(** * grok-cli: tool execution, confirmation gating and streaming history

    A shallow embedding of the TypeScript sources of grok-cli:

    - the shell-command tools ([src/tools/systemctl.ts], [apt.ts],
      [disk.ts], [network.ts], [code-execution.ts]);
    - the headless drivers of [src/index.ts];
    - the chat and confirmation contexts of the terminal UI and the
      streaming consumer of [src/tui/app.tsx];
    - the MCP tool-name helpers of [src/commands/mcp.ts] and
      [src/tui/components/chat-history.tsx].

    Asynchronous functions are embedded in a small monad that threads the
    session flags of the confirmation service, records the effects a call
    performs and carries JavaScript's abrupt completions (a thrown error,
    [process.exit]).  Everything the outside world answers (command
    output, the human's decision, the file system, the clock) comes from
    an environment of oracles that may depend on what happened so far. *)

From Stdlib Require Import ZArith Ascii String DecimalString.
From stdpp Require Import base option list strings.

Local Open Scope Z_scope.

(** ** JavaScript strings and truthiness *)

Module Js.

(** [undefined] is [None]; a present string is [Some s]. *)
Definition value := option string.

(** Truthiness of a string-or-undefined: [undefined] and [""] are falsy. *)
Definition truthy (v : value) : bool :=
  match v with
  | Some (String _ _) => true
  | _ => false
  end.

(** [s] used as a condition, for a string that is known to be present. *)
Definition nonempty (s : string) : bool :=
  match s with
  | EmptyString => false
  | String _ _ => true
  end.

(** [v || d] for a string default [d]. *)
Definition or_default (v : value) (d : string) : string :=
  match v with
  | Some (String c s) => String c s
  | _ => d
  end.

(** [s || d] for a present string [s]. *)
Definition or_string (s d : string) : string :=
  match s with
  | EmptyString => d
  | String _ _ => s
  end.

(** A parameter default [(x = d)]: applies to [undefined] only. *)
Definition param_default (v : value) (d : string) : string :=
  match v with
  | Some s => s
  | None => d
  end.

(** Strings are kept as the bytes of their UTF-8 text.  The operations
    below agree with JavaScript's on ASCII text; bytes above 127 are
    carried along unchanged.  White space of [String.prototype.trim]:
    TAB, LF, VT, FF, CR and SPACE. *)
Definition is_whitespace (c : ascii) : bool :=
  let n := nat_of_ascii c in
  (Nat.eqb n 9 || Nat.eqb n 10 || Nat.eqb n 11 || Nat.eqb n 12
   || Nat.eqb n 13 || Nat.eqb n 32)%bool.

Fixpoint trimStart (s : string) : string :=
  match s with
  | EmptyString => EmptyString
  | String c s' => if is_whitespace c then trimStart s' else s
  end.

Fixpoint trimEnd (s : string) : string :=
  match s with
  | EmptyString => EmptyString
  | String c s' =>
      match trimEnd s' with
      | EmptyString => if is_whitespace c then EmptyString else String c EmptyString
      | r => String c r
      end
  end.

Definition trim (s : string) : string := trimEnd (trimStart s).

(** The line feed of ["\n"]. *)
Definition LF : string := String (ascii_of_nat 10) EmptyString.

(** [toLowerCase] on ASCII: A-Z. *)
Definition lower (c : ascii) : ascii :=
  let n := nat_of_ascii c in
  if (Nat.leb 65 n && Nat.leb n 90)%bool then ascii_of_nat (n + 32) else c.

Fixpoint toLowerCase (s : string) : string :=
  match s with
  | EmptyString => EmptyString
  | String c s' => String (lower c) (toLowerCase s')
  end.

(** The double quote, for literals that contain one. *)
Definition DQUOTE : string := String (ascii_of_nat 34) EmptyString.

(** [parts.join(sep)] *)
Fixpoint join_with (sep : string) (parts : list string) : string :=
  match parts with
  | [] => EmptyString
  | [p] => p
  | p :: rest => p +:+ sep +:+ join_with sep rest
  end.

(** [s.split("\n")[0]]: the text before the first line feed. *)
Fixpoint first_line (s : string) : string :=
  match s with
  | EmptyString => EmptyString
  | String c s' => if Nat.eqb (nat_of_ascii c) 10 then EmptyString else String c (first_line s')
  end.

(** [s.startsWith(p)] *)
Fixpoint startsWith (p s : string) : bool :=
  match p, s with
  | EmptyString, _ => true
  | String a p', String b s' => (Ascii.eqb a b && startsWith p' s')%bool
  | String _ _, EmptyString => false
  end.

(** [s.includes(sub)] *)
Fixpoint includes (sub s : string) : bool :=
  (startsWith sub s
   || match s with
      | EmptyString => false
      | String _ s' => includes sub s'
      end)%bool.

Definition is_quote (c : ascii) : bool :=
  let n := nat_of_ascii c in (Nat.eqb n 34 || Nat.eqb n 39)%bool.

Fixpoint drop_last_quote (s : string) : string :=
  match s with
  | EmptyString => EmptyString
  | String c EmptyString => if is_quote c then EmptyString else s
  | String c s' => String c (drop_last_quote s')
  end.

(** [s.replace(/^["']|["']$/g, "")]: one quote off the front, one off
    the end. *)
Definition strip_quotes (s : string) : string :=
  match s with
  | EmptyString => EmptyString
  | String c s' => drop_last_quote (if is_quote c then s' else s)
  end.

(** [s.slice(0, -1)] *)
Fixpoint drop_last (s : string) : string :=
  match s with
  | EmptyString => EmptyString
  | String _ EmptyString => EmptyString
  | String c s' => String c (drop_last s')
  end.

(** The concatenation of all the strings of a list, in order. *)
Definition concat (parts : list string) : string := fold_right String.append EmptyString parts.

(** Decimal rendering of a number inside a template literal. *)
Definition of_nat (n : nat) : string := NilEmpty.string_of_uint (Nat.to_uint n).
Definition of_Z (z : Z) : string := NilEmpty.string_of_int (Z.to_int z).

End Js.

(** ** Results, errors and the confirmation service's data *)

(** The [data] object [CodeExecutionTool] attaches to its results. *)
Record ExecData := {
  language : string;
  containerName : option string;   (* [string | null] *)
  executionTime : string
}.

(** Modelled from the spec: [ToolResult] (its declaration, [src/types], is
    not among the sources): a success flag, an optional output text, an
    optional error text and optional structured data.  The fields are the
    ones the tools fill; an absent field is [None]. *)
Record ToolResult := {
  success : bool;
  output : option string;
  error : option string;
  data : option ExecData
}.

Definition failure (msg : string) : ToolResult :=
  {| success := false; output := None; error := Some msg; data := None |}.

Definition succeeded (out : string) : ToolResult :=
  {| success := true; output := Some out; error := None; data := None |}.

(** A thrown [Error]; only its [message] is read by the sources. *)
Record JsError := { message : string }.

(** Modelled from the spec: the session flags of the confirmation service
    (its source is missing), a mapping from category to boolean.  The
    categories are the ones the sources read and set. *)
Inductive SessionFlag := fileOperations | bashCommands | allOperations.

(** Modelled from the spec: the object returned by [getSessionFlags()],
    one boolean per category. *)
Record SessionFlags := {
  flag_fileOperations : bool;
  flag_bashCommands : bool;
  flag_allOperations : bool
}.

Definition no_flags : SessionFlags :=
  {| flag_fileOperations := false; flag_bashCommands := false;
     flag_allOperations := false |}.

Definition set_flag (f : SessionFlag) (v : bool) (fl : SessionFlags) : SessionFlags :=
  match f with
  | fileOperations =>
      {| flag_fileOperations := v; flag_bashCommands := flag_bashCommands fl;
         flag_allOperations := flag_allOperations fl |}
  | bashCommands =>
      {| flag_fileOperations := flag_fileOperations fl; flag_bashCommands := v;
         flag_allOperations := flag_allOperations fl |}
  | allOperations =>
      {| flag_fileOperations := flag_fileOperations fl;
         flag_bashCommands := flag_bashCommands fl; flag_allOperations := v |}
  end.

(** The second argument of [requestConfirmation]: ['file'] or ['bash']. *)
Inductive OperationType := FileOp | BashOp.

(** Modelled from the spec: the pending confirmation handed to the service
    ([ConfirmationOptions], declared in the missing
    [utils/confirmation-service.ts]): operation label, target and preview
    content, with the fields the tools fill. *)
Record ConfirmationOptions := {
  operation : string;
  filename : string;
  showVSCodeOpen : bool;
  content : option string
}.

(** Modelled from the spec: the decision the service resolves a request
    with (approve, approve and remember, reject with optional feedback),
    with the fields the tools and the dialog use. *)
Record ConfirmationResult := {
  confirmed : bool;
  dontAskAgain : bool;
  feedback : option string
}.

(** What [await execAsync(...)] gives: the two streams, or a rejection
    (non-zero exit, timeout, buffer overflow, spawn failure). *)
Inductive ExecOutcome :=
| ExecResolved (stdout stderr : string)
| ExecRejected (e : JsError).

Inductive FsOutcome (A : Type) :=
| FsOk (a : A)
| FsFailed (e : JsError).
Arguments FsOk {A} a.
Arguments FsFailed {A} e.

(** ** Effects *)

Inductive Event :=
| EvRequestConfirmation (opts : ConfirmationOptions) (ty : OperationType)
| EvPrompt (opts : ConfirmationOptions) (answer : ConfirmationResult)
| EvSetSessionFlag (f : SessionFlag) (v : bool)
| EvExec (command : string) (timeout maxBuffer : option Z) (res : ExecOutcome)
| EvExecDetached (command : string)
| EvMkdtemp (prefix : string) (res : FsOutcome string)
| EvWriteFile (path data : string) (res : FsOutcome unit)
| EvLog (line : string)
| EvError (line : string).

(** The outside world.  Each oracle sees the events that happened before
    the call, so the same command may answer differently over time. *)
Record Env := {
  exec_answer : list Event -> string -> ExecOutcome;
  human_answer : list Event -> ConfirmationOptions -> ConfirmationResult;
  mkdtemp_answer : list Event -> string -> FsOutcome string;
  writeFile_answer : list Event -> string -> string -> FsOutcome unit;
  date_now : list Event -> Z;
  random_tag : list Event -> string;   (* Math.random().toString(36).substr(2, 9) *)
  os_tmpdir : string;
  path_join : string -> string -> string
}.

(** How a call completes. *)
Inductive Completion (A : Type) :=
| Returned (a : A)
| Thrown (e : JsError)
| Exited (code : Z).
Arguments Returned {A} a.
Arguments Thrown {A} e.
Arguments Exited {A} code.

Record Out (A : Type) := MkOut {
  completion : Completion A;
  flags_after : SessionFlags;
  emitted : list Event
}.
Arguments MkOut {A} _ _ _.
Arguments completion {A} _.
Arguments flags_after {A} _.
Arguments emitted {A} _.

(** An asynchronous computation: environment, session flags on entry and
    the events so far give a completion, the flags on exit and the events
    the call itself emitted, oldest first. *)
Definition M (A : Type) : Type := Env -> SessionFlags -> list Event -> Out A.

Definition ret {A} (a : A) : M A := fun _ fl _ => MkOut (Returned a) fl [].

Definition throw {A} (e : JsError) : M A := fun _ fl _ => MkOut (Thrown e) fl [].

Definition process_exit {A} (code : Z) : M A := fun _ fl _ => MkOut (Exited code) fl [].

Definition bind {A B} (m : M A) (k : A -> M B) : M B :=
  fun env fl past =>
    match m env fl past with
    | MkOut (Returned a) fl1 ev1 =>
        match k a env fl1 (past ++ ev1) with
        | MkOut c fl2 ev2 => MkOut c fl2 (ev1 ++ ev2)
        end
    | MkOut (Thrown e) fl1 ev1 => MkOut (Thrown e) fl1 ev1
    | MkOut (Exited code) fl1 ev1 => MkOut (Exited code) fl1 ev1
    end.

(** [try { body } catch (error) { handler error }] *)
Definition try_catch {A} (body : M A) (handler : JsError -> M A) : M A :=
  fun env fl past =>
    match body env fl past with
    | MkOut (Thrown e) fl1 ev1 =>
        match handler e env fl1 (past ++ ev1) with
        | MkOut c fl2 ev2 => MkOut c fl2 (ev1 ++ ev2)
        end
    | o => o
    end.

(** [try { body } finally { fin }]: [fin] runs after a return or a
    throw of [body]; an abrupt completion of [fin] replaces [body]'s. *)
Definition try_finally {A} (body : M A) (fin : M unit) : M A :=
  fun env fl past =>
    match body env fl past with
    | MkOut (Exited code) fl1 ev1 => MkOut (Exited code) fl1 ev1
    | MkOut c fl1 ev1 =>
        match fin env fl1 (past ++ ev1) with
        | MkOut (Returned _) fl2 ev2 => MkOut c fl2 (ev1 ++ ev2)
        | MkOut (Thrown e) fl2 ev2 => MkOut (Thrown e) fl2 (ev1 ++ ev2)
        | MkOut (Exited code) fl2 ev2 => MkOut (Exited code) fl2 (ev1 ++ ev2)
        end
    end.

Declare Scope js_scope.
Delimit Scope js_scope with js.
Notation "x <- m ;; k" := (bind m (fun x => k))
  (at level 100, m at next level, right associativity) : js_scope.
Notation "m ;;; k" := (bind m (fun _ => k))
  (at level 100, right associativity) : js_scope.
Local Open Scope js_scope.

(** *** Primitive effects *)

Definition emit (ev : Event) : M unit := fun _ fl _ => MkOut (Returned tt) fl [ev].

(** [await execAsync(command, { timeout, maxBuffer })] *)
Definition execAsync (command : string) (timeout maxBuffer : option Z) : M (string * string) :=
  fun env fl past =>
    let res := exec_answer env past command in
    MkOut (match res with
           | ExecResolved out err => Returned (out, err)
           | ExecRejected e => Thrown e
           end) fl [EvExec command timeout maxBuffer res].

(** [execAsync(command).catch(() => {})], not awaited. *)
Definition execDetached (command : string) : M unit := emit (EvExecDetached command).

Definition mkdtemp (prefix : string) : M string :=
  fun env fl past =>
    let res := mkdtemp_answer env past prefix in
    MkOut (match res with FsOk p => Returned p | FsFailed e => Thrown e end)
          fl [EvMkdtemp prefix res].

Definition writeFile (path contents : string) : M unit :=
  fun env fl past =>
    let res := writeFile_answer env past path contents in
    MkOut (match res with FsOk u => Returned u | FsFailed e => Thrown e end)
          fl [EvWriteFile path contents res].

Definition dateNow : M Z := fun env fl past => MkOut (Returned (date_now env past)) fl [].
Definition randomTag : M string := fun env fl past => MkOut (Returned (random_tag env past)) fl [].
Definition tmpdir : M string := fun env fl _ => MkOut (Returned (os_tmpdir env)) fl [].
Definition join (a b : string) : M string := fun env fl _ => MkOut (Returned (path_join env a b)) fl [].

Definition console_log (line : string) : M unit := emit (EvLog line).
Definition console_error (line : string) : M unit := emit (EvError line).

(** *** The confirmation service, as the tools see it *)

Module ConfirmationService.

(** Modelled from the spec: [getSessionFlags()] of the missing service
    reads the flags. *)
Definition getSessionFlags : M SessionFlags := fun _ fl _ => MkOut (Returned fl) fl [].

(** Modelled from the spec: [setSessionFlag(flag, value)] of the missing
    service sets one flag. *)
Definition setSessionFlag (f : SessionFlag) (v : bool) : M unit :=
  fun _ fl _ => MkOut (Returned tt) (set_flag f v fl) [EvSetSessionFlag f v].

(** Modelled from the spec: a session flag covers an operation's category
    when it is the flag of that category or the global one. *)
Definition covers (fl : SessionFlags) (ty : OperationType) : bool :=
  (flag_allOperations fl
   || match ty with
      | FileOp => flag_fileOperations fl
      | BashOp => flag_bashCommands fl
      end)%bool.

(** Modelled from the spec: "approve and remember" sets the category's
    flag for the remainder of the run. *)
Definition remember (ty : OperationType) (fl : SessionFlags) : SessionFlags :=
  match ty with
  | FileOp => set_flag fileOperations true fl
  | BashOp => set_flag bashCommands true fl
  end.

(** Modelled from the spec: [ConfirmationService.requestConfirmation]
    ([utils/confirmation-service.ts] is not among the sources).  A flag
    that covers the category (its own or the global one) resolves the
    request as approved without surfacing anything to the human;
    otherwise the human is prompted and decides, and an approval "for
    the session" sets the category's flag. *)
Definition requestConfirmation (opts : ConfirmationOptions) (ty : OperationType)
  : M ConfirmationResult :=
  fun env fl past =>
    let req := EvRequestConfirmation opts ty in
    if covers fl ty then
      MkOut (Returned {| confirmed := true; dontAskAgain := false; feedback := None |})
            fl [req]
    else
      let answer := human_answer env (past ++ [req]) opts in
      MkOut (Returned answer)
            (if (confirmed answer && dontAskAgain answer)%bool then remember ty fl else fl)
            [req; EvPrompt opts answer].

End ConfirmationService.

(** ** [src/tools/systemctl.ts] *)

Module SystemctlTool.

Definition runCommand (command : string) (requiresConfirmation : bool) : M ToolResult :=
  try_catch
    (early <-
       (if requiresConfirmation then
          sessionFlags <- ConfirmationService.getSessionFlags ;;
          if (negb (flag_bashCommands sessionFlags)
              && negb (flag_allOperations sessionFlags))%bool then
            confirmationResult <-
              ConfirmationService.requestConfirmation
                {| operation := "Run systemctl command";
                   filename := command;
                   showVSCodeOpen := false;
                   content := Some ("Command: sudo " +:+ command) |} BashOp ;;
            if negb (confirmed confirmationResult) then
              ret (Some (failure (Js.or_default (feedback confirmationResult)
                                    "Systemctl command cancelled by user")))
            else ret None
          else ret None
        else ret None) ;;
     match early with
     | Some r => ret r
     | None =>
         streams <- execAsync ("sudo " +:+ command) (Some 30000) (Some (1024 * 1024)) ;;
         let '(stdout, stderr) := streams in
         let output := stdout +:+ (if Js.nonempty stderr then Js.LF +:+ "STDERR: " +:+ stderr else "") in
         ret (succeeded (Js.or_string (Js.trim output)
                           "Command executed successfully (no output)"))
     end)
    (fun error => ret (failure ("Systemctl command failed: " +:+ message error))).

Definition start (serviceName : string) := runCommand ("systemctl start " +:+ serviceName) true.
Definition stop (serviceName : string) := runCommand ("systemctl stop " +:+ serviceName) true.
Definition restart (serviceName : string) := runCommand ("systemctl restart " +:+ serviceName) true.
(* Status check doesn't require confirmation *)
Definition status (serviceName : string) := runCommand ("systemctl status " +:+ serviceName) false.
Definition enable (serviceName : string) := runCommand ("systemctl enable " +:+ serviceName) true.
Definition disable (serviceName : string) := runCommand ("systemctl disable " +:+ serviceName) true.

Definition describe (serviceName : string) (result : ToolResult) : ToolResult :=
  if success result then
    {| success := success result;
       output := Some ("Service " +:+ serviceName +:+ " is "
                       +:+ Js.param_default (output result) "undefined");
       error := error result;
       data := data result |}
  else result.

Definition isActive (serviceName : string) : M ToolResult :=
  result <- runCommand ("systemctl is-active " +:+ serviceName) false ;;
  ret (describe serviceName result).

Definition isEnabled (serviceName : string) : M ToolResult :=
  result <- runCommand ("systemctl is-enabled " +:+ serviceName) false ;;
  ret (describe serviceName result).

Definition execute (operation : string) (serviceName : Js.value) : M ToolResult :=
  match serviceName with
  | None | Some EmptyString => ret (failure "Service name is required")
  | Some serviceName =>
      if String.eqb operation "start" then start serviceName
      else if String.eqb operation "stop" then stop serviceName
      else if String.eqb operation "restart" then restart serviceName
      else if String.eqb operation "status" then status serviceName
      else if String.eqb operation "enable" then enable serviceName
      else if String.eqb operation "disable" then disable serviceName
      else if String.eqb operation "is-active" then isActive serviceName
      else if String.eqb operation "is-enabled" then isEnabled serviceName
      else ret (failure ("Unknown systemctl operation: " +:+ operation
             +:+ ". Supported: start, stop, restart, status, enable, disable, is-active, is-enabled"))
  end.

End SystemctlTool.

(** ** [src/tools/apt.ts] *)

Module AptTool.

Definition runCommand (command : string) (requiresConfirmation : bool) : M ToolResult :=
  try_catch
    (early <-
       (if requiresConfirmation then
          sessionFlags <- ConfirmationService.getSessionFlags ;;
          if (negb (flag_bashCommands sessionFlags)
              && negb (flag_allOperations sessionFlags))%bool then
            confirmationResult <-
              ConfirmationService.requestConfirmation
                {| operation := "Run apt command";
                   filename := command;
                   showVSCodeOpen := false;
                   content := Some ("Command: sudo " +:+ command) |} BashOp ;;
            if negb (confirmed confirmationResult) then
              ret (Some (failure (Js.or_default (feedback confirmationResult)
                                    "Apt command cancelled by user")))
            else ret None
          else ret None
        else ret None) ;;
     match early with
     | Some r => ret r
     | None =>
         (* 5 minutes for apt operations, 10MB buffer *)
         streams <- execAsync ("sudo " +:+ command) (Some 300000) (Some (1024 * 1024 * 10)) ;;
         let '(stdout, stderr) := streams in
         let output := stdout +:+ (if Js.nonempty stderr then Js.LF +:+ "STDERR: " +:+ stderr else "") in
         ret (succeeded (Js.or_string (Js.trim output)
                           "Command executed successfully (no output)"))
     end)
    (fun error => ret (failure ("Apt command failed: " +:+ message error))).

Definition install (packageName : Js.value) : M ToolResult :=
  match packageName with
  | Some (String c s) => runCommand ("apt install -y " +:+ String c s) true
  | _ => ret (failure "Package name is required")
  end.

Definition remove (packageName : Js.value) : M ToolResult :=
  match packageName with
  | Some (String c s) => runCommand ("apt remove -y " +:+ String c s) true
  | _ => ret (failure "Package name is required")
  end.

Definition update : M ToolResult := runCommand "apt update" true.

Definition upgrade : M ToolResult := runCommand "apt upgrade -y" true.

(* Search doesn't require confirmation *)
Definition search (packageName : Js.value) : M ToolResult :=
  match packageName with
  | Some (String c s) => runCommand ("apt search " +:+ String c s) false
  | _ => ret (failure "Package name is required")
  end.

(* Show doesn't require confirmation *)
Definition show (packageName : Js.value) : M ToolResult :=
  match packageName with
  | Some (String c s) => runCommand ("apt show " +:+ String c s) false
  | _ => ret (failure "Package name is required")
  end.

Definition execute (operation : string) (args : list string) : M ToolResult :=
  if String.eqb operation "install" then install (args !! 0%nat)
  else if String.eqb operation "remove" then remove (args !! 0%nat)
  else if String.eqb operation "update" then update
  else if String.eqb operation "upgrade" then upgrade
  else if String.eqb operation "search" then search (args !! 0%nat)
  else if String.eqb operation "show" then show (args !! 0%nat)
  else ret (failure ("Unknown apt operation: " +:+ operation
         +:+ ". Supported: install, remove, update, upgrade, search, show")).

End AptTool.

(** ** [src/tools/disk.ts] *)

Module DiskTool.

Definition runCommand (command : string) : M ToolResult :=
  try_catch
    (streams <- execAsync command (Some 30000) (Some (1024 * 1024)) ;;
     let '(stdout, stderr) := streams in
     let output := stdout +:+ (if Js.nonempty stderr then Js.LF +:+ "STDERR: " +:+ stderr else "") in
     ret (succeeded (Js.or_string (Js.trim output)
                       "Command executed successfully (no output)")))
    (fun error => ret (failure ("Disk command failed: " +:+ message error))).

Definition usage (path : Js.value) : M ToolResult :=
  runCommand ("df -h " +:+ Js.param_default path "/").

Definition free : M ToolResult := runCommand "free -h".

Definition diskUsage (path : Js.value) : M ToolResult :=
  runCommand ("du -sh " +:+ Js.param_default path ".").

(* Find files larger than specified size *)
Definition findLargeFiles (directory minSize : Js.value) : M ToolResult :=
  runCommand ("find " +:+ Js.param_default directory "/" +:+ " -type f -size +"
              +:+ Js.param_default minSize "100M"
              +:+ " -exec ls -lh {} \; | sort -k5 -hr | head -20").

Definition suggestions : list string :=
  [ "Consider cleaning package cache: sudo apt autoclean && sudo apt autoremove";
    "Check for large log files: sudo find /var/log -type f -size +50M -exec ls -lh {} \;";
    "Look for old kernels: dpkg --list | grep linux-image";
    "Check Docker if installed: docker system df";
    "Find duplicate packages: sudo apt list --installed | grep -o " +:+ Js.DQUOTE
      +:+ "^[^/]*" +:+ Js.DQUOTE +:+ " | sort | uniq -d" ].

Definition cleanupSuggestions : M ToolResult :=
  ret (succeeded ("Disk cleanup suggestions:" +:+ Js.LF +:+ Js.join_with Js.LF suggestions)).

Definition execute (operation : string) (args : list string) : M ToolResult :=
  if String.eqb operation "usage" then usage (args !! 0%nat)
  else if String.eqb operation "free" then free
  else if String.eqb operation "du" then diskUsage (Some (Js.or_default (args !! 0%nat) "."))
  else if String.eqb operation "large-files" then
    findLargeFiles (Some (Js.or_default (args !! 0%nat) "."))
                   (Some (Js.or_default (args !! 1%nat) "100M"))
  else if String.eqb operation "cleanup" then cleanupSuggestions
  else ret (failure ("Unknown disk operation: " +:+ operation
         +:+ ". Supported: usage, free, du, large-files, cleanup")).

End DiskTool.

(** ** [src/tools/network.ts] *)

Module NetworkTool.

Definition runCommand (command : string) : M ToolResult :=
  try_catch
    (streams <- execAsync command (Some 30000) (Some (1024 * 1024)) ;;
     let '(stdout, stderr) := streams in
     let output := stdout +:+ (if Js.nonempty stderr then Js.LF +:+ "STDERR: " +:+ stderr else "") in
     ret (succeeded (Js.or_string (Js.trim output)
                       "Command executed successfully (no output)")))
    (fun error => ret (failure ("Network command failed: " +:+ message error))).

Definition ping (host count : Js.value) : M ToolResult :=
  match host with
  | Some (String c s) =>
      runCommand ("ping -c " +:+ Js.param_default count "4" +:+ " " +:+ String c s)
  | _ => ret (failure "Host is required for ping")
  end.

Definition traceroute (host : Js.value) : M ToolResult :=
  match host with
  | Some (String c s) => runCommand ("traceroute " +:+ String c s)
  | _ => ret (failure "Host is required for traceroute")
  end.

Definition interfaces : M ToolResult := runCommand "ip addr show".

Definition connections : M ToolResult := runCommand "ss -tuln".

Definition dnsLookup (host : Js.value) : M ToolResult :=
  match host with
  | Some (String c s) => runCommand ("nslookup " +:+ String c s)
  | _ => ret (failure "Host is required for DNS lookup")
  end.

Definition speedtest_hint : string :=
  "speedtest-cli not installed. Install with: sudo apt install speedtest-cli"
  +:+ Js.LF +:+ Js.LF
  +:+ "Alternative: Visit https://www.speedtest.net/ for manual testing".

(** The [try] block awaits the probe only; [runCommand]'s promise is
    returned from it without being awaited there, and it never rejects. *)
Definition speedTest : M ToolResult :=
  (* Check if speedtest-cli is available *)
  available <- try_catch (execAsync "which speedtest-cli" (Some 5000) None ;;; ret true)
                         (fun _ => ret false) ;;
  if available : bool then runCommand "speedtest-cli --simple"
  else
    (* speedtest-cli not available, provide alternative *)
    ret (succeeded speedtest_hint).

Definition execute (operation : string) (args : list string) : M ToolResult :=
  if String.eqb operation "ping" then ping (args !! 0%nat) (args !! 1%nat)
  else if String.eqb operation "traceroute" then traceroute (args !! 0%nat)
  else if String.eqb operation "interfaces" then interfaces
  else if String.eqb operation "connections" then connections
  else if String.eqb operation "dns" then dnsLookup (args !! 0%nat)
  else if String.eqb operation "speedtest" then speedTest
  else ret (failure ("Unknown network operation: " +:+ operation
         +:+ ". Supported: ping, traceroute, interfaces, connections, dns, speedtest")).

End NetworkTool.

(** ** [src/tools/code-execution.ts] *)

Module CodeExecutionTool.

Record LanguageConfig := {
  cfg_filename : string;
  dockerImage : string;
  runCommand : string
}.

(** The [configs] table.  It and [testInputs] below are object literals
    indexed by the language; the embedding looks up their own keys. *)
Definition configs : list (string * LanguageConfig) :=
  [ ("javascript", {| cfg_filename := "code.js"; dockerImage := "node:18-alpine";
                      runCommand := "node code.js" |});
    ("typescript", {| cfg_filename := "code.ts"; dockerImage := "node:18-alpine";
                      runCommand := "npx ts-node code.ts" |});
    ("python", {| cfg_filename := "code.py"; dockerImage := "python:3.11-alpine";
                  runCommand := "python code.py" |});
    ("python3", {| cfg_filename := "code.py"; dockerImage := "python:3.11-alpine";
                   runCommand := "python code.py" |});
    ("java", {| cfg_filename := "Main.java"; dockerImage := "openjdk:17-alpine";
                runCommand := "javac Main.java && java Main" |});
    ("cpp", {| cfg_filename := "main.cpp"; dockerImage := "gcc:11-alpine";
               runCommand := "g++ -o main main.cpp && ./main" |});
    ("c", {| cfg_filename := "main.c"; dockerImage := "gcc:11-alpine";
             runCommand := "gcc -o main main.c && ./main" |});
    ("go", {| cfg_filename := "main.go"; dockerImage := "golang:1.21-alpine";
              runCommand := "go run main.go" |});
    ("rust", {| cfg_filename := "main.rs"; dockerImage := "rust:1.72-alpine";
                runCommand := "rustc main.rs && ./main" |});
    ("bash", {| cfg_filename := "script.sh"; dockerImage := "alpine:latest";
                runCommand := "chmod +x script.sh && ./script.sh" |});
    ("shell", {| cfg_filename := "script.sh"; dockerImage := "alpine:latest";
                 runCommand := "chmod +x script.sh && ./script.sh" |});
    ("sh", {| cfg_filename := "script.sh"; dockerImage := "alpine:latest";
              runCommand := "chmod +x script.sh && ./script.sh" |}) ].

Fixpoint lookup {V} (key : string) (table : list (string * V)) : option V :=
  match table with
  | [] => None
  | (k, v) :: rest => if String.eqb k key then Some v else lookup key rest
  end.

Definition getLanguageConfig (language : string) : LanguageConfig :=
  match lookup (Js.toLowerCase language) configs with
  | Some cfg => cfg
  | None => {| cfg_filename := "code.txt"; dockerImage := "alpine:latest";
               runCommand := "echo " +:+ Js.DQUOTE +:+ "Unsupported language" +:+ Js.DQUOTE |}
  end.

Definition buildDockerCommand (image containerName tempDir runCommand : string)
    (inputPath : option string) : string :=
  (* Mount temp directory as read-only for security *)
  let volumeMount := "-v " +:+ tempDir +:+ ":/app:ro" in
  (* If there's input, mount it separately as readable *)
  let inputMount :=
    match inputPath with
    | Some (String c p) => "-v " +:+ String c p +:+ ":/app/input.txt:ro"
    | _ => ""
    end in
  (* Build the full command *)
  let dockerRun :=
    "docker run --rm --name " +:+ containerName +:+ " " +:+ volumeMount +:+ " "
    +:+ inputMount
    +:+ " -w /app --memory=128m --cpus=0.5 --network=none --read-only --tmpfs /tmp "
    +:+ image in
  (* If input file exists, redirect it to stdin *)
  match inputPath with
  | Some (String _ _) =>
      dockerRun +:+ " sh -c " +:+ Js.DQUOTE +:+ runCommand +:+ " < input.txt" +:+ Js.DQUOTE
  | _ => dockerRun +:+ " sh -c " +:+ Js.DQUOTE +:+ runCommand +:+ Js.DQUOTE
  end.

Definition failed_with (language : string) (containerName : option string)
    (error : JsError) : ToolResult :=
  {| success := false;
     output := None;
     error := Some ("Code execution failed: " +:+ message error);
     data := Some {| language := language; containerName := containerName;
                     executionTime := "failed" |} |}.

(** The [finally] block: both removals are started and not awaited. *)
Definition cleanup (containerName tempDir : option string) : M unit :=
  (match containerName with
   | Some (String c s) =>
       (* Remove container (don't await to avoid blocking) *)
       execDetached ("docker rm -f " +:+ String c s)
   | _ => ret tt
   end) ;;;
  match tempDir with
  | Some (String c s) =>
      (* Clean up temp directory *)
      execDetached ("rm -rf " +:+ String c s)
  | _ => ret tt
  end.

(** The part of the [try] block after [containerName] is assigned. *)
Definition runInContainer (code language : string) (input : Js.value)
    (tempDir containerName : string) : M ToolResult :=
  (* Prepare code file based on language *)
  let cfg := getLanguageConfig language in
  (* Write code to file *)
  codePath <- join tempDir (cfg_filename cfg) ;;
  writeFile codePath code ;;;
  (* Write input to file if provided *)
  inputPath <-
    (match input with
     | Some (String c s) =>
         inputPath <- join tempDir "input.txt" ;;
         writeFile inputPath (String c s) ;;;
         ret (Some inputPath)
     | _ => ret None
     end) ;;
  (* Build Docker command *)
  let dockerCommand :=
    buildDockerCommand (dockerImage cfg) containerName tempDir (runCommand cfg) inputPath in
  (* Execute in Docker with timeout: 30 second timeout, 5MB buffer *)
  streams <- execAsync dockerCommand (Some 30000) (Some (1024 * 1024 * 5)) ;;
  let '(stdout, stderr) := streams in
  let output := stdout +:+ (if Js.nonempty stderr then Js.LF +:+ "STDERR: " +:+ stderr else "") in
  ret {| success := true;
         output := Some (Js.or_string (Js.trim output) "Code executed successfully (no output)");
         error := None;
         data := Some {| language := language; containerName := Some containerName;
                         executionTime := "completed" |} |}.

(** [try { ... } catch (error) { ... } finally { ... }] of [runCode].
    The two variables assigned inside the [try] block, [tempDir] and
    [containerName], are [null] in the handlers exactly when [mkdtemp]
    rejected, so the block is split at that call. *)
Definition runCodeBody (code language : string) (input : Js.value) : M ToolResult :=
  (* Create temporary directory *)
  tmp <- tmpdir ;;
  prefix <- join tmp "grok-code-exec-" ;;
  created <- try_catch (tempDir <- mkdtemp prefix ;; ret (inl tempDir))
                       (fun error => ret (inr error)) ;;
  match created with
  | inr error =>
      try_finally (ret (failed_with language None error)) (cleanup None None)
  | inl tempDir =>
      now <- dateNow ;;
      tag <- randomTag ;;
      let containerName := "grok-exec-" +:+ Js.of_Z now +:+ "-" +:+ tag in
      try_finally
        (try_catch (runInContainer code language input tempDir containerName)
                   (fun error => ret (failed_with language (Some containerName) error)))
        (cleanup (Some containerName) (Some tempDir))
  end.

Definition runCode (code language input : Js.value) : M ToolResult :=
  match code with
  | Some (String c0 code') =>
      let code := String c0 code' in
      match language with
      | Some (String l0 language') =>
          let language := String l0 language' in
          (* Check if Docker is available *)
          docker <- try_catch (execAsync "docker --version" None None ;;; ret true)
                              (fun _ => ret false) ;;
          if docker : bool then
            (* Request confirmation for code execution *)
            sessionFlags <- ConfirmationService.getSessionFlags ;;
            early <-
              (if (negb (flag_bashCommands sessionFlags)
                   && negb (flag_allOperations sessionFlags))%bool then
                 confirmationResult <-
                   ConfirmationService.requestConfirmation
                     {| operation := "Execute code in Docker container";
                        filename := "code." +:+ language;
                        showVSCodeOpen := false;
                        content := Some ("Language: " +:+ language +:+ Js.LF
                                         +:+ "Code length: " +:+ Js.of_nat (String.length code)
                                         +:+ " characters" +:+ Js.LF
                                         +:+ "Input: " +:+ Js.or_default input "none") |}
                     BashOp ;;
                 if negb (confirmed confirmationResult) then
                   ret (Some (failure (Js.or_default (feedback confirmationResult)
                                         "Code execution cancelled by user")))
                 else ret None
               else ret None) ;;
            match early with
            | Some r => ret r
            | None => runCodeBody code language input
            end
          else
            ret (failure
              "Docker is required for safe code execution but is not available. Please install Docker.")
      | _ => ret (failure "Language is required")
      end
  | _ => ret (failure "Code is required")
  end.

Definition testInputs : list (string * string) :=
  [ ("javascript", "console.log(" +:+ Js.DQUOTE +:+ "Hello from test!" +:+ Js.DQUOTE +:+ ");");
    ("python", "print(" +:+ Js.DQUOTE +:+ "Hello from test!" +:+ Js.DQUOTE +:+ ")");
    ("bash", "echo " +:+ Js.DQUOTE +:+ "Hello from test!" +:+ Js.DQUOTE);
    ("java", "public class Test { public static void main(String[] args) { System.out.println("
             +:+ Js.DQUOTE +:+ "Hello from test!" +:+ Js.DQUOTE +:+ "); } }") ].

(** Test mode - run with sample input to verify code works *)
Definition testCode (code language : Js.value) : M ToolResult :=
  let testInput :=
    match language with
    | Some l => match lookup l testInputs with
                | Some t => Some t
                | None => code
                end
    | None => code
    end in
  runCode testInput language None.

Definition execute (operation : string) (args : list string) : M ToolResult :=
  if String.eqb operation "run" then runCode (args !! 0%nat) (args !! 1%nat) (args !! 2%nat)
  else if String.eqb operation "test" then testCode (args !! 0%nat) (args !! 1%nat)
  else ret (failure ("Unknown code execution operation: " +:+ operation
         +:+ ". Supported: run, test")).

End CodeExecutionTool.

(** ** What is observed of a tool call *)

Definition bash_covered (fl : SessionFlags) : bool :=
  (flag_bashCommands fl || flag_allOperations fl)%bool.

(** The two events of the confirmation path: the service is asked, the
    human is prompted. *)
Definition is_confirmation (ev : Event) : bool :=
  match ev with
  | EvRequestConfirmation _ _ | EvPrompt _ _ => true
  | _ => false
  end.

(** An awaited effect that ended in a rejection. *)
Definition faulted (ev : Event) : bool :=
  match ev with
  | EvExec _ _ _ (ExecRejected _) => true
  | EvMkdtemp _ (FsFailed _) => true
  | EvWriteFile _ _ (FsFailed _) => true
  | _ => false
  end.

(** The availability probe of [NetworkTool.speedTest]. *)
Definition speedtest_probe (ev : Event) : bool :=
  match ev with
  | EvExec command (Some 5000) None _ => String.eqb command "which speedtest-cli"
  | _ => false
  end.

Definition real_fault (ev : Event) : bool := (faulted ev && negb (speedtest_probe ev))%bool.

Definition present (v : option string) : Prop :=
  exists s, v = Some s /\ s <> "".

(** The invariant of [ToolResult]. *)
Definition well_formed (r : ToolResult) : Prop :=
  if success r then present (output r) /\ error r = None
  else present (error r).

(** Everything the claims need of one call of a tool, in one place: it
    returns, its result is well formed, a fault makes it a failure, and
    under a covering flag the confirmation path is not taken and the
    flags are left alone. *)
Definition tool_contract (fl : SessionFlags) (o : Out ToolResult) : Prop :=
  (exists r, completion o = Returned r /\ well_formed r
             /\ (existsb real_fault (emitted o) = true -> success r = false))
  /\ (bash_covered fl = true ->
      flags_after o = fl /\ forallb (fun ev => negb (is_confirmation ev)) (emitted o) = true).

(** The contract of a step that never consults the confirmation service. *)
Definition quiet_contract (fl : SessionFlags) (o : Out ToolResult) : Prop :=
  (exists r, completion o = Returned r /\ well_formed r
             /\ (existsb real_fault (emitted o) = true -> success r = false))
  /\ flags_after o = fl
  /\ forallb (fun ev => negb (is_confirmation ev)) (emitted o) = true.


(** ** The built-in tools behind one entry point *)

(** A call [tool.execute(operation, ...args)] of one of the five tools. *)
Inductive Invocation :=
| Systemctl (operation : string) (serviceName : Js.value)
| Apt (operation : string) (args : list string)
| Disk (operation : string) (args : list string)
| Network (operation : string) (args : list string)
| CodeExecution (operation : string) (args : list string).

Definition invoke (call : Invocation) : M ToolResult :=
  match call with
  | Systemctl operation serviceName => SystemctlTool.execute operation serviceName
  | Apt operation args => AptTool.execute operation args
  | Disk operation args => DiskTool.execute operation args
  | Network operation args => NetworkTool.execute operation args
  | CodeExecution operation args => CodeExecutionTool.execute operation args
  end.

(** *** The mutating operations *)

Inductive SystemctlVerb := Start | Stop | Restart | Enable | Disable.
Inductive AptVerb := Install | Remove | Update | Upgrade.
Inductive CodeVerb := Run | Test.

Inductive MutatingOperation :=
| SystemctlOp (verb : SystemctlVerb) (serviceName : Js.value)
| AptOp (verb : AptVerb) (args : list string)
| CodeOp (verb : CodeVerb) (args : list string).

Definition systemctl_verb (v : SystemctlVerb) : string :=
  match v with
  | Start => "start" | Stop => "stop" | Restart => "restart"
  | Enable => "enable" | Disable => "disable"
  end.

Definition apt_verb (v : AptVerb) : string :=
  match v with
  | Install => "install" | Remove => "remove" | Update => "update" | Upgrade => "upgrade"
  end.

Definition code_verb (v : CodeVerb) : string :=
  match v with Run => "run" | Test => "test" end.

Definition as_invocation (op : MutatingOperation) : Invocation :=
  match op with
  | SystemctlOp verb serviceName => Systemctl (systemctl_verb verb) serviceName
  | AptOp verb args => Apt (apt_verb verb) args
  | CodeOp verb args => CodeExecution (code_verb verb) args
  end.

Definition perform (op : MutatingOperation) : M ToolResult := invoke (as_invocation op).

(** The shell command a systemctl or apt operation guards, when its
    arguments pass validation. *)
Definition guarded_command (op : MutatingOperation) : option string :=
  match op with
  | SystemctlOp verb (Some (String c s)) =>
      Some ("sudo systemctl " +:+ systemctl_verb verb +:+ " " +:+ String c s)
  | SystemctlOp _ _ => None
  | AptOp Install args =>
      match args !! 0%nat with
      | Some (String c s) => Some ("sudo apt install -y " +:+ String c s)
      | _ => None
      end
  | AptOp Remove args =>
      match args !! 0%nat with
      | Some (String c s) => Some ("sudo apt remove -y " +:+ String c s)
      | _ => None
      end
  | AptOp Update _ => Some "sudo apt update"
  | AptOp Upgrade _ => Some "sudo apt upgrade -y"
  | CodeOp _ _ => None
  end.

(** The code a code-execution operation hands to [runCode]. *)
Definition submitted_code (verb : CodeVerb) (args : list string) : Js.value :=
  match verb with
  | Run => args !! 0%nat
  | Test =>
      match args !! 1%nat with
      | Some l => match CodeExecutionTool.lookup l CodeExecutionTool.testInputs with
                  | Some t => Some t
                  | None => args !! 0%nat
                  end
      | None => args !! 0%nat
      end
  end.

Definition docker_available (env : Env) (past : list Event) : bool :=
  match exec_answer env past "docker --version" with
  | ExecResolved _ _ => true
  | ExecRejected _ => false
  end.

(** The operation gets as far as its confirmation gate: its arguments are
    accepted and, for code execution, Docker answers. *)
Definition reaches_gate (op : MutatingOperation) (env : Env) (past : list Event) : bool :=
  match op with
  | SystemctlOp _ _ | AptOp _ _ =>
      match guarded_command op with Some _ => true | None => false end
  | CodeOp verb args =>
      (Js.truthy (submitted_code verb args) && Js.truthy (args !! 1%nat)
       && docker_available env past)%bool
  end.

(** The first effect behind the gate: the guarded command is run, or the
    scratch directory of a code execution is created. *)
Definition launches (op : MutatingOperation) (ev : Event) : bool :=
  match op, ev with
  | CodeOp _ _, EvMkdtemp _ _ => true
  | CodeOp _ _, _ => false
  | _, EvExec command _ _ _ =>
      match guarded_command op with
      | Some guarded => String.eqb command guarded
      | None => false
      end
  | _, _ => false
  end.

(** The text a tool reports when a rejection carries no feedback. *)
Definition cancellation_message (op : MutatingOperation) : string :=
  match op with
  | SystemctlOp _ _ => "Systemctl command cancelled by user"
  | AptOp _ _ => "Apt command cancelled by user"
  | CodeOp _ _ => "Code execution cancelled by user"
  end.

(** ** Sample environments *)

(** Every command succeeds and prints one line; the human approves. *)
Definition obliging : Env :=
  {| exec_answer := fun _ _ => ExecResolved "ok" "";
     human_answer := fun _ _ => {| confirmed := true; dontAskAgain := false; feedback := None |};
     mkdtemp_answer := fun _ prefix => FsOk (prefix +:+ "a1b2c3");
     writeFile_answer := fun _ _ _ => FsOk tt;
     date_now := fun _ => 1700000000000;
     random_tag := fun _ => "k3x9q2m1z";
     os_tmpdir := "/tmp";
     path_join := fun a b => a +:+ "/" +:+ b |}.

(** Commands succeed; the human rejects every request with [fb]. *)
Definition rejecting (fb : option string) : Env :=
  {| exec_answer := exec_answer obliging;
     human_answer := fun _ _ => {| confirmed := false; dontAskAgain := false; feedback := fb |};
     mkdtemp_answer := mkdtemp_answer obliging;
     writeFile_answer := writeFile_answer obliging;
     date_now := date_now obliging;
     random_tag := random_tag obliging;
     os_tmpdir := os_tmpdir obliging;
     path_join := path_join obliging |}.

(** No command can be run: every [execAsync] rejects. *)
Definition broken_shell : Env :=
  {| exec_answer := fun _ command => ExecRejected {| message := "Command failed: " +:+ command |};
     human_answer := human_answer obliging;
     mkdtemp_answer := mkdtemp_answer obliging;
     writeFile_answer := writeFile_answer obliging;
     date_now := date_now obliging;
     random_tag := random_tag obliging;
     os_tmpdir := os_tmpdir obliging;
     path_join := path_join obliging |}.

(** ** Conversation entries ([ChatEntry] of the agent, as the sources use it) *)

Inductive EntryType := user | assistant | tool_call | tool_result.

(** [GrokToolCall] of [src/grok/client.ts]; its [type] is always
    ["function"]. *)
Record GrokToolCall := {
  id : string;
  function_name : string;
  function_arguments : string
}.

Module Chat.

(** Modelled from the spec: [ChatEntry], the conversation entry (declared
    in the missing [agent/grok-agent.ts]): kind, text, creation time,
    optional streaming flag, optional tool-call requests, optional single
    tool call and its outcome.  The fields are the ones the sources read
    and write. *)
Record ChatEntry := {
  type : EntryType;
  content : string;
  timestamp : Z;
  isStreaming : option bool;
  toolCalls : option (list GrokToolCall);
  toolCall : option GrokToolCall;
  toolResult : option ToolResult
}.

End Chat.

Abbreviation ChatEntry := Chat.ChatEntry.

(** ** The agent, seen from its callers *)

(** Modelled from the spec: a turn of the agent ([agent/grok-agent.ts] is
    not among the sources).  The orchestrator reaches the session only
    through the tools it dispatches to: a run is a tree of tool calls,
    each next step chosen from the result of the previous one, that ends
    with the entries of the turn or with a thrown error. *)
Inductive AgentRun :=
| Finish (entries : list ChatEntry)
| Fail (e : JsError)
| CallTool (call : Invocation) (next : ToolResult -> AgentRun)
| CallBash (command : string) (next : ToolResult -> AgentRun).

Module GrokAgent.

(** Modelled from the spec: [executeBashCommand], the agent's direct shell
    command ([tools/bash.ts] is missing).  Command execution is a mutating
    operation: the dispatcher awaits the confirmation gate under the bash
    category, a rejection returns a failure carrying the feedback, and a
    fault of the command becomes a failure. *)
Definition executeBashCommand (command : string) : M ToolResult :=
  try_catch
    (confirmationResult <-
       ConfirmationService.requestConfirmation
         {| operation := "Run bash command"; filename := command;
            showVSCodeOpen := false; content := Some ("Command: " +:+ command) |} BashOp ;;
     if negb (confirmed confirmationResult) then
       ret (failure (Js.or_default (feedback confirmationResult)
                       "Command execution cancelled by user"))
     else
       streams <- execAsync command None None ;;
       let '(stdout, stderr) := streams in
       let output := stdout +:+ (if Js.nonempty stderr then Js.LF +:+ "STDERR: " +:+ stderr else "") in
       ret (succeeded (Js.or_string (Js.trim output) "Command executed successfully (no output)")))
    (fun error => ret (failure ("Command failed: " +:+ message error))).

(** Modelled from the spec: the dispatcher invokes the requested tool and
    feeds its result back. *)
Fixpoint run (r : AgentRun) : M (list ChatEntry) :=
  match r with
  | Finish entries => ret entries
  | Fail e => throw e
  | CallTool call next => result <- invoke call ;; run (next result)
  | CallBash command next => result <- executeBashCommand command ;; run (next result)
  end.

(** An agent is the run it makes of each prompt. *)
Definition t := string -> AgentRun.

(** Modelled from the spec: [processUserMessage], the synchronous "run to
    completion, return the entries" mode. *)
Definition processUserMessage (agent : t) (message : string) : M (list ChatEntry) :=
  run (agent message).

End GrokAgent.

(** ** The headless drivers of [src/index.ts] *)

Module Headless.





Definition commitPrompt (status : string) (diff : Js.value) : string :=
  "Generate a concise, professional git commit message for these changes:" +:+ Js.LF
  +:+ Js.LF
  +:+ "Git Status:" +:+ Js.LF
  +:+ status +:+ Js.LF
  +:+ Js.LF
  +:+ "Git Diff (staged changes):" +:+ Js.LF
  +:+ Js.or_default diff "No staged changes shown" +:+ Js.LF
  +:+ Js.LF
  +:+ "Follow conventional commit format (feat:, fix:, docs:, etc.) and keep it under 72 characters."
  +:+ Js.LF
  +:+ "Respond with ONLY the commit message, no additional text.".

(** The first assistant entry with text, trimmed; [""] when there is none. *)
Fixpoint commitMessage_of (entries : list ChatEntry) : string :=
  match entries with
  | [] => ""
  | entry :: rest =>
      match Chat.type entry, Js.trim (Chat.content entry) with
      | assistant, String c s => String c s
      | _, _ => commitMessage_of rest
      end
  end.

Definition first_line_or (v : Js.value) (d : string) : string :=
  match v with
  | Some s => Js.or_string (Js.first_line s) d
  | None => d
  end.

Definition pushAndReport (commitResult : ToolResult) : M unit :=
  console_log ("✅ git commit: " +:+ first_line_or (output commitResult) "Commit successful") ;;;
  pushResult <- GrokAgent.executeBashCommand "git push" ;;
  pushResult <-
    (if (negb (success pushResult)
         && match error pushResult with
            | Some e => Js.includes "no upstream branch" e
            | None => false
            end)%bool
     then
       console_log "🔄 Setting upstream and pushing..." ;;;
       GrokAgent.executeBashCommand "git push -u origin HEAD"
     else ret pushResult) ;;
  if success pushResult then
    console_log ("✅ git push: " +:+ first_line_or (output pushResult) "Push successful")
  else
    console_log ("❌ git push: " +:+ Js.or_default (error pushResult) "Push failed") ;;;
    process_exit 1.

(** Handle commit-and-push command in headless mode. *)
Definition handleCommitAndPushHeadless (agent : GrokAgent.t) : M unit :=
  try_catch
    (ConfirmationService.setSessionFlag allOperations true ;;;
     console_log ("🤖 Processing commit and push..." +:+ Js.LF) ;;;
     console_log ("> /commit-and-push" +:+ Js.LF) ;;;
     initialStatusResult <- GrokAgent.executeBashCommand "git status --porcelain" ;;
     match success initialStatusResult, output initialStatusResult with
     | true, Some status =>
         if Js.nonempty (Js.trim status) then
           console_log "✅ git status: Changes detected" ;;;
           addResult <- GrokAgent.executeBashCommand "git add ." ;;
           if success addResult then
             console_log "✅ git add: Changes staged" ;;;
             diffResult <- GrokAgent.executeBashCommand "git diff --cached" ;;
             console_log "🤖 Generating commit message..." ;;;
             commitMessageEntries <-
               GrokAgent.processUserMessage agent (commitPrompt status (output diffResult)) ;;
             let commitMessage := commitMessage_of commitMessageEntries in
             if Js.nonempty commitMessage then
               let cleanCommitMessage := Js.strip_quotes commitMessage in
               console_log ("✅ Generated commit message: " +:+ Js.DQUOTE
                            +:+ cleanCommitMessage +:+ Js.DQUOTE) ;;;
               let commitCommand :=
                 "git commit -m " +:+ Js.DQUOTE +:+ cleanCommitMessage +:+ Js.DQUOTE in
               commitResult <- GrokAgent.executeBashCommand commitCommand ;;
               if success commitResult then pushAndReport commitResult
               else
                 console_log ("❌ git commit: "
                              +:+ Js.or_default (error commitResult) "Commit failed") ;;;
                 process_exit 1
             else
               console_log "❌ Failed to generate commit message" ;;;
               process_exit 1
           else
             console_log ("❌ git add: "
                          +:+ Js.or_default (error addResult) "Failed to stage changes") ;;;
             process_exit 1
         else
           console_log "❌ No changes to commit. Working directory is clean." ;;;
           process_exit 1
     | _, _ =>
         console_log "❌ No changes to commit. Working directory is clean." ;;;
         process_exit 1
     end)
    (fun error =>
       console_error ("❌ Error during commit and push: " +:+ message error) ;;;
       process_exit 1).

End Headless.

(** The human is prompted. *)
Definition is_prompt (ev : Event) : bool :=
  match ev with
  | EvPrompt _ _ => true
  | _ => false
  end.




(** ** The chat context of the terminal UI ([ChatProvider]) *)

Module ChatProvider.

(** The signals of the provider, and the number of [new Date()] taken so
    far: the n-th one reads [clock n]. *)
Record ChatState := {
  history : list ChatEntry;
  isProcessing : bool;
  isStreaming : bool;
  tokenCount : Z;
  processingTime : Z;
  dates : nat
}.

Definition initial : ChatState :=
  {| history := []; isProcessing := false; isStreaming := false;
     tokenCount := 0; processingTime := 0; dates := 0 |}.

Definition setHistory (f : list ChatEntry -> list ChatEntry) (st : ChatState) : ChatState :=
  {| history := f (history st); isProcessing := isProcessing st;
     isStreaming := isStreaming st; tokenCount := tokenCount st;
     processingTime := processingTime st; dates := dates st |}.

Definition setIsProcessing (v : bool) (st : ChatState) : ChatState :=
  {| history := history st; isProcessing := v; isStreaming := isStreaming st;
     tokenCount := tokenCount st; processingTime := processingTime st; dates := dates st |}.

Definition setIsStreaming (v : bool) (st : ChatState) : ChatState :=
  {| history := history st; isProcessing := isProcessing st; isStreaming := v;
     tokenCount := tokenCount st; processingTime := processingTime st; dates := dates st |}.

Definition setTokenCount (v : Z) (st : ChatState) : ChatState :=
  {| history := history st; isProcessing := isProcessing st; isStreaming := isStreaming st;
     tokenCount := v; processingTime := processingTime st; dates := dates st |}.

Definition setProcessingTime (v : Z) (st : ChatState) : ChatState :=
  {| history := history st; isProcessing := isProcessing st; isStreaming := isStreaming st;
     tokenCount := tokenCount st; processingTime := v; dates := dates st |}.

Definition tick (st : ChatState) : ChatState :=
  {| history := history st; isProcessing := isProcessing st; isStreaming := isStreaming st;
     tokenCount := tokenCount st; processingTime := processingTime st;
     dates := S (dates st) |}.

Definition addEntry (entry : ChatEntry) : ChatState -> ChatState :=
  setHistory (fun prev => prev ++ [entry]).

(** [updated[updated.length - 1] = updater(updated[updated.length - 1])]
    on a copy, and nothing on the empty history. *)
Definition updateLast (updater : ChatEntry -> ChatEntry) (prev : list ChatEntry)
    : list ChatEntry :=
  match prev !! (length prev - 1)%nat with
  | Some last => <[(length prev - 1)%nat := updater last]> prev
  | None => prev
  end.

Definition updateLastEntry (updater : ChatEntry -> ChatEntry) : ChatState -> ChatState :=
  setHistory (updateLast updater).

Definition clearHistory (st : ChatState) : ChatState :=
  {| history := []; isProcessing := false; isStreaming := false;
     tokenCount := 0; processingTime := 0; dates := dates st |}.

End ChatProvider.

(** ** The streaming consumer of [src/tui/app.tsx] *)

Inductive ChunkType := content_t | token_count_t | tool_calls_t | tool_result_t | done_t.

Module Chunk.

(** Modelled from the spec: the typed events of the agent's stream
    ([StreamingChunk], declared in the missing [agent/grok-agent.ts]):
    content delta, token count, tool calls, tool result, done.  The
    fields are the ones the consumer reads; an absent field is [None]. *)
Record StreamingChunk := {
  type : ChunkType;
  content : option string;
  tokenCount : option Z;
  toolCalls : option (list GrokToolCall);
  toolCall : option GrokToolCall;
  toolResult : option ToolResult
}.

End Chunk.

Abbreviation StreamingChunk := Chunk.StreamingChunk.

Module App.

Import ChatProvider.

Definition is_streaming (entry : ChatEntry) : bool :=
  match Chat.isStreaming entry with
  | Some true => true
  | _ => false
  end.

Definition with_isStreaming (v : bool) (entry : ChatEntry) : ChatEntry :=
  {| Chat.type := Chat.type entry; Chat.content := Chat.content entry;
     Chat.timestamp := Chat.timestamp entry; Chat.isStreaming := Some v;
     Chat.toolCalls := Chat.toolCalls entry; Chat.toolCall := Chat.toolCall entry;
     Chat.toolResult := Chat.toolResult entry |}.

(** [{ ...entry, content: entry.content + text }] *)
Definition append_content (text : string) (entry : ChatEntry) : ChatEntry :=
  {| Chat.type := Chat.type entry; Chat.content := Chat.content entry +:+ text;
     Chat.timestamp := Chat.timestamp entry; Chat.isStreaming := Chat.isStreaming entry;
     Chat.toolCalls := Chat.toolCalls entry; Chat.toolCall := Chat.toolCall entry;
     Chat.toolResult := Chat.toolResult entry |}.

(** [{ ...entry, isStreaming: false, toolCalls }] *)
Definition close_with_calls (calls : list GrokToolCall) (entry : ChatEntry) : ChatEntry :=
  {| Chat.type := Chat.type entry; Chat.content := Chat.content entry;
     Chat.timestamp := Chat.timestamp entry; Chat.isStreaming := Some false;
     Chat.toolCalls := Some calls; Chat.toolCall := Chat.toolCall entry;
     Chat.toolResult := Chat.toolResult entry |}.

Definition result_text (result : ToolResult) : string :=
  if success result then Js.or_default (output result) "Success"
  else Js.or_default (error result) "Error occurred".

(** [{ ...entry, type: "tool_result", content, toolResult }] *)
Definition as_result (result : ToolResult) (entry : ChatEntry) : ChatEntry :=
  {| Chat.type := tool_result; Chat.content := result_text result;
     Chat.timestamp := Chat.timestamp entry; Chat.isStreaming := Chat.isStreaming entry;
     Chat.toolCalls := Chat.toolCalls entry; Chat.toolCall := Chat.toolCall entry;
     Chat.toolResult := Some result |}.

(** [entry.type === "tool_call" && entry.toolCall?.id === chunk.toolCall?.id] *)
Definition is_call_of (call : GrokToolCall) (entry : ChatEntry) : bool :=
  match Chat.type entry, Chat.toolCall entry with
  | tool_call, Some c => String.eqb (id c) (id call)
  | _, _ => false
  end.

(** The state of one [processUserMessage]: the chat signals and the local
    [streamingEntry]. *)
Record Consumer := {
  chat : ChatState;
  streamingEntry : option ChatEntry
}.

Definition on_chat (f : ChatState -> ChatState) (s : Consumer) : Consumer :=
  {| chat := f (chat s); streamingEntry := streamingEntry s |}.

Definition set_streamingEntry (e : option ChatEntry) (s : Consumer) : Consumer :=
  {| chat := chat s; streamingEntry := e |}.

Definition toolCallEntry (now : Z) (call : GrokToolCall) : ChatEntry :=
  {| Chat.type := tool_call; Chat.content := "Executing..."; Chat.timestamp := now;
     Chat.isStreaming := None; Chat.toolCalls := None; Chat.toolCall := Some call;
     Chat.toolResult := None |}.

(** [chunk.toolCalls.forEach(...)]: one entry per call, each with its own
    [new Date()]. *)
Fixpoint add_tool_calls (clock : nat -> Z) (calls : list GrokToolCall) (st : ChatState)
    : ChatState :=
  match calls with
  | [] => st
  | call :: rest =>
      add_tool_calls clock rest
        (tick (addEntry (toolCallEntry (clock (dates st)) call) st))
  end.

(** The body of the [for await] loop: one chunk. *)
Definition on_chunk (clock : nat -> Z) (chunk : StreamingChunk) (s : Consumer) : Consumer :=
  match Chunk.type chunk with
  | content_t =>
      match Chunk.content chunk with
      | Some (String c text) =>
          match streamingEntry s with
          | None =>
              let newStreamingEntry :=
                {| Chat.type := assistant; Chat.content := String c text;
                   Chat.timestamp := clock (dates (chat s));
                   Chat.isStreaming := Some true; Chat.toolCalls := None;
                   Chat.toolCall := None; Chat.toolResult := None |} in
              {| chat := tick (addEntry newStreamingEntry (chat s));
                 streamingEntry := Some newStreamingEntry |}
          | Some _ =>
              on_chat (updateLastEntry
                         (fun entry => if is_streaming entry
                                       then append_content (String c text) entry
                                       else entry)) s
          end
      | _ => s
      end
  | token_count_t =>
      match Chunk.tokenCount chunk with
      | Some n => on_chat (setTokenCount n) s
      | None => s
      end
  | tool_calls_t =>
      match Chunk.toolCalls chunk with
      | Some calls =>
          let closed :=
            setHistory (fmap (fun entry => if is_streaming entry
                                           then close_with_calls calls entry
                                           else entry)) (chat s) in
          {| chat := add_tool_calls clock calls closed; streamingEntry := None |}
      | None => s
      end
  | tool_result_t =>
      match Chunk.toolCall chunk, Chunk.toolResult chunk with
      | Some call, Some result =>
          {| chat := setHistory
                       (fmap (fun entry =>
                               if is_streaming entry then with_isStreaming false entry
                               else if is_call_of call entry then as_result result entry
                               else entry)) (chat s);
             streamingEntry := None |}
      | _, _ => s
      end
  | done_t =>
      on_chat (setIsStreaming false)
        match streamingEntry s with
        | Some _ =>
            on_chat (setHistory (fmap (fun entry => if is_streaming entry
                                                    then with_isStreaming false entry
                                                    else entry))) s
        | None => s
        end
  end.

(** The chunks the agent's stream yields, in order. *)
Definition consume (clock : nat -> Z) (chunks : list StreamingChunk) (s : Consumer)
    : Consumer :=
  fold_left (fun s chunk => on_chunk clock chunk s) chunks s.

(** [processUserMessage(userInput)] over a stream that yields [chunks]
    and then ends, or throws [thrown] when that is [Some].  Clearing the
    input line belongs to the input context and is left out. *)
Definition processUserMessage (clock : nat -> Z) (userInput : string)
    (chunks : list StreamingChunk) (thrown : option JsError) (st : ChatState) : ChatState :=
  let userEntry :=
    {| Chat.type := user; Chat.content := userInput; Chat.timestamp := clock (dates st);
       Chat.isStreaming := None; Chat.toolCalls := None; Chat.toolCall := None;
       Chat.toolResult := None |} in
  let st := setIsProcessing true (tick (addEntry userEntry st)) in
  let s := consume clock chunks
             {| chat := setIsStreaming true st; streamingEntry := None |} in
  let st :=
    match thrown with
    | None => chat s
    | Some error =>
        let errorEntry :=
          {| Chat.type := assistant; Chat.content := "Error: " +:+ message error;
             Chat.timestamp := clock (dates (chat s)); Chat.isStreaming := None;
             Chat.toolCalls := None; Chat.toolCall := None; Chat.toolResult := None |} in
        setIsStreaming false (tick (addEntry errorEntry (chat s)))
    end in
  setIsProcessing false st.

End App.

(** *** What a chunk may do to the history *)


(** The non-empty content deltas of a stream, in order. *)
Definition deltas (chunks : list StreamingChunk) : list string :=
  flat_map (fun chunk =>
              match Chunk.type chunk, Chunk.content chunk with
              | content_t, Some (String c text) => [String c text]
              | _, _ => []
              end) chunks.

(** A chunk that opens or closes nothing: content or token count. *)
Definition plain (chunk : StreamingChunk) : bool :=
  match Chunk.type chunk with
  | content_t | token_count_t => true
  | _ => false
  end.

Definition is_assistant (e : ChatEntry) : bool :=
  match Chat.type e with
  | assistant => true
  | _ => false
  end.

Definition count_assistant (h : list ChatEntry) : nat :=
  length (List.filter is_assistant h).

(** The entry a first content delta opens at time [now]. *)
Definition streamed (now : Z) (text : string) : ChatEntry :=
  {| Chat.type := assistant; Chat.content := text; Chat.timestamp := now;
     Chat.isStreaming := Some true; Chat.toolCalls := None; Chat.toolCall := None;
     Chat.toolResult := None |}.

(** *** Sample chunks *)

Definition content_chunk (text : string) : StreamingChunk :=
  {| Chunk.type := content_t; Chunk.content := Some text; Chunk.tokenCount := None;
     Chunk.toolCalls := None; Chunk.toolCall := None; Chunk.toolResult := None |}.

Definition tool_calls_chunk (calls : list GrokToolCall) : StreamingChunk :=
  {| Chunk.type := tool_calls_t; Chunk.content := None; Chunk.tokenCount := None;
     Chunk.toolCalls := Some calls; Chunk.toolCall := None; Chunk.toolResult := None |}.

Definition tool_result_chunk (call : GrokToolCall) (result : ToolResult) : StreamingChunk :=
  {| Chunk.type := tool_result_t; Chunk.content := None; Chunk.tokenCount := None;
     Chunk.toolCalls := None; Chunk.toolCall := Some call; Chunk.toolResult := Some result |}.

Definition done_chunk : StreamingChunk :=
  {| Chunk.type := done_t; Chunk.content := None; Chunk.tokenCount := None;
     Chunk.toolCalls := None; Chunk.toolCall := None; Chunk.toolResult := None |}.

Definition call_ls : GrokToolCall :=
  {| id := "call_1"; function_name := "bash"; function_arguments := "{}" |}.


(** A fresh consumer over an empty chat. *)
Definition fresh : App.Consumer :=
  {| App.chat := ChatProvider.initial; App.streamingEntry := None |}.

(** ** Names of protocol (MCP) tools *)

Module McpNames.

Definition is_underscore (c : ascii) : bool := Nat.eqb (nat_of_ascii c) 95.

Fixpoint drop (n : nat) (s : string) : string :=
  match n, s with
  | O, _ => s
  | S n', String _ s' => drop n' s'
  | S _, EmptyString => EmptyString
  end.


(** [s.split("__")]: [current] is the piece being read. *)
Fixpoint split_from (current s : string) : list string :=
  match s with
  | EmptyString => [current]
  | String c rest =>
      match rest with
      | String c' rest' =>
          if (is_underscore c && is_underscore c')%bool
          then current :: split_from EmptyString rest'
          else split_from (current +:+ String c EmptyString) rest
      | EmptyString => [current +:+ String c EmptyString]
      end
  end.

Definition split (s : string) : list string := split_from EmptyString s.









End McpNames.

(** ** The confirmation gate and its dialog, as a transition system *)

(** Who is waiting for a decision: the pending operations are told apart
    by a number. *)
Definition Caller := nat.

Record Request := {
  caller : Caller;
  request_options : ConfirmationOptions;
  request_type : OperationType
}.

(** What the gate did, oldest first. *)
Inductive GateEvent :=
| Surfaced (r : Request)                           (* 'confirmation-requested' was emitted *)
| Decided (r : Request) (d : ConfirmationResult)   (* the human's decision reached the caller *)
| AutoApproved (r : Request).                      (* resolved by a session flag *)

Module Gate.

(** Modelled from the spec: the state of [ConfirmationService]
    ([utils/confirmation-service.ts] is not among the sources): the
    session flags, the single outstanding request, the callers suspended
    in [request] behind it, and a record of what happened. *)
Record State := {
  sessionFlags : SessionFlags;
  pending : option Request;
  waiting : list Request;
  log : list GateEvent
}.

Definition initial : State :=
  {| sessionFlags := no_flags; pending := None; waiting := []; log := [] |}.

Definition approved : ConfirmationResult :=
  {| confirmed := true; dontAskAgain := false; feedback := None |}.

(** Modelled from the spec: a request that no session flag covers is taken
    up, and emitted to the dialog, when nothing is outstanding; the
    second component is the emitted ['confirmation-requested'] payload. *)
Definition take_up (r : Request) (g : State) : State * option ConfirmationOptions :=
  if ConfirmationService.covers (sessionFlags g) (request_type r) then
    ({| sessionFlags := sessionFlags g; pending := pending g; waiting := waiting g;
        log := log g ++ [AutoApproved r] |}, None)
  else
    ({| sessionFlags := sessionFlags g; pending := Some r; waiting := waiting g;
        log := log g ++ [Surfaced r] |}, Some (request_options r)).

(** Modelled from the spec: [request(pending)].  A covered category
    resolves at once as approved; a caller that arrives while a request is
    outstanding (or others are already waiting) is suspended behind it. *)
Definition requestConfirmation (r : Request) (g : State) : State * option ConfirmationOptions :=
  if ConfirmationService.covers (sessionFlags g) (request_type r) then take_up r g
  else
    match pending g, waiting g with
    | None, [] => take_up r g
    | _, _ =>
        ({| sessionFlags := sessionFlags g; pending := pending g;
            waiting := waiting g ++ [r]; log := log g |}, None)
    end.

(** Modelled from the spec: once the outstanding request is resolved, the
    first suspended caller resumes. *)
Definition resume (g : State) : State * option ConfirmationOptions :=
  match pending g, waiting g with
  | None, r :: rest =>
      take_up r {| sessionFlags := sessionFlags g; pending := None; waiting := rest;
                   log := log g |}
  | _, _ => (g, None)
  end.

(** Modelled from the spec: the decision of the human resolves the
    outstanding request; "approve and remember" sets the flag of its
    category. *)
Definition decide (d : ConfirmationResult) (g : State) : State :=
  match pending g with
  | Some r =>
      {| sessionFlags :=
           if (confirmed d && dontAskAgain d)%bool
           then ConfirmationService.remember (request_type r) (sessionFlags g)
           else sessionFlags g;
         pending := None;
         waiting := waiting g;
         log := log g ++ [Decided r d] |}
  | None => g
  end.

(** Modelled from the spec: [confirmOperation], the approving decisions. *)
Definition confirmOperation (confirmed' dontAskAgain' : bool) : State -> State :=
  decide {| confirmed := confirmed'; dontAskAgain := dontAskAgain'; feedback := None |}.

(** Modelled from the spec: [rejectOperation], rejection with optional
    feedback. *)
Definition rejectOperation (feedback' : option string) : State -> State :=
  decide {| confirmed := false; dontAskAgain := false; feedback := feedback' |}.

(** Modelled from the spec: [setSessionFlag] on the service's state. *)
Definition setSessionFlag (f : SessionFlag) (v : bool) (g : State) : State :=
  {| sessionFlags := set_flag f v (sessionFlags g); pending := pending g;
     waiting := waiting g; log := log g |}.

(** Modelled from the spec: [reset()] clears all session flags. *)
Definition resetSession (g : State) : State :=
  {| sessionFlags := no_flags; pending := pending g; waiting := waiting g; log := log g |}.

End Gate.

(** [ConfirmationProvider] of the terminal UI: its two signals and the
    functions it hands to the dialog. *)
Module ConfirmationProvider.

Record Signals := {
  options : option ConfirmationOptions;
  autoEditEnabled : bool
}.

(** The whole of it: the service instance and the provider's signals. *)
Record State := {
  service : Gate.State;
  signals : Signals
}.

Definition setOptions (v : option ConfirmationOptions) (s : Signals) : Signals :=
  {| options := v; autoEditEnabled := autoEditEnabled s |}.

Definition setAutoEditEnabled (v : bool) (s : Signals) : Signals :=
  {| options := options s; autoEditEnabled := v |}.

(** Initialize autoEditEnabled based on current session flags *)
Definition mount (g : Gate.State) : State :=
  {| service := g;
     signals := {| options := None;
                   autoEditEnabled := flag_allOperations (Gate.sessionFlags g) |} |}.

(** The listener for ['confirmation-requested']. *)
Definition handleConfirmationRequest (opts : ConfirmationOptions) : Signals -> Signals :=
  setOptions (Some opts).

Definition deliver (emitted : option ConfirmationOptions) (s : Signals) : Signals :=
  match emitted with
  | Some opts => handleConfirmationRequest opts s
  | None => s
  end.

Definition confirm (dontAskAgain' : bool) (st : State) : State :=
  {| service := Gate.confirmOperation true dontAskAgain' (service st);
     signals := setOptions None (signals st) |}.

Definition reject (feedback' : option string) (st : State) : State :=
  {| service := Gate.rejectOperation feedback' (service st);
     signals := setOptions None (signals st) |}.

Definition toggleAutoEdit (st : State) : State :=
  let newState := negb (autoEditEnabled (signals st)) in
  {| service := if newState then Gate.setSessionFlag allOperations true (service st)
                else Gate.resetSession (service st);
     signals := setAutoEditEnabled newState (signals st) |}.

End ConfirmationProvider.

(** [ConfirmationDialog]: the keyboard handler that turns key presses
    into decisions. *)
Module ConfirmationDialog.

(** A key event: its name, its modifiers and the text it types. *)
Record Key := {
  name : string;
  shift : bool;
  ctrl : bool;
  meta : bool;
  sequence : string
}.

Record Signals := {
  selectedOption : nat;
  feedbackMode : bool;
  feedback : string
}.

Definition initial : Signals :=
  {| selectedOption := 0; feedbackMode := false; feedback := "" |}.

(** "Yes", "Yes, and don't ask again this session", "No",
    "No, with feedback". *)
Definition options_length : nat := 4.

Record World := {
  dialog : Signals;
  provider : ConfirmationProvider.State;
  chat : ChatProvider.ChatState
}.

(** Reset processing states when rejected *)
Definition resetProcessing (c : ChatProvider.ChatState) : ChatProvider.ChatState :=
  ChatProvider.setProcessingTime 0
    (ChatProvider.setTokenCount 0
       (ChatProvider.setIsStreaming false (ChatProvider.setIsProcessing false c))).

Definition onKey (key : Key) (w : World) : World :=
  match ConfirmationProvider.options (ConfirmationProvider.signals (provider w)) with
  | None => w
  | Some _ =>
      let d := dialog w in
      if feedbackMode d then
        if String.eqb (name key) "return" then
          {| dialog := {| selectedOption := selectedOption d; feedbackMode := false;
                          feedback := "" |};
             provider := ConfirmationProvider.reject (Some (Js.trim (feedback d))) (provider w);
             chat := resetProcessing (chat w) |}
        else if String.eqb (name key) "backspace" then
          {| dialog := {| selectedOption := selectedOption d; feedbackMode := true;
                          feedback := Js.drop_last (feedback d) |};
             provider := provider w; chat := chat w |}
        else if String.eqb (name key) "escape" then
          {| dialog := {| selectedOption := selectedOption d; feedbackMode := false;
                          feedback := "" |};
             provider := provider w; chat := chat w |}
        else if (Js.nonempty (sequence key) && negb (ctrl key) && negb (meta key))%bool then
          {| dialog := {| selectedOption := selectedOption d; feedbackMode := true;
                          feedback := feedback d +:+ sequence key |};
             provider := provider w; chat := chat w |}
        else w
      else if (String.eqb (name key) "up" || (shift key && String.eqb (name key) "tab"))%bool then
        {| dialog := {| selectedOption :=
                          match selectedOption d with
                          | O => (options_length - 1)%nat
                          | S prev => prev
                          end;
                        feedbackMode := false; feedback := feedback d |};
           provider := provider w; chat := chat w |}
      else if (String.eqb (name key) "down" || String.eqb (name key) "tab")%bool then
        {| dialog := {| selectedOption := (S (selectedOption d) mod options_length)%nat;
                        feedbackMode := false; feedback := feedback d |};
           provider := provider w; chat := chat w |}
      else if String.eqb (name key) "return" then
        match selectedOption d with
        | 0%nat => {| dialog := d; provider := ConfirmationProvider.confirm false (provider w);
                      chat := chat w |}
        | 1%nat => {| dialog := d; provider := ConfirmationProvider.confirm true (provider w);
                      chat := chat w |}
        | 2%nat =>
            {| dialog := d;
               provider := ConfirmationProvider.reject (Some "Operation cancelled by user")
                             (provider w);
               chat := resetProcessing (chat w) |}
        | _ => {| dialog := {| selectedOption := selectedOption d; feedbackMode := true;
                               feedback := feedback d |};
                  provider := provider w; chat := chat w |}
        end
      else if String.eqb (name key) "escape" then
        {| dialog := d;
           provider :=
             ConfirmationProvider.reject (Some "Operation cancelled by user (pressed Escape)")
               (provider w);
           chat := resetProcessing (chat w) |}
      else w
  end.

Definition press (keys : list Key) (w : World) : World :=
  fold_left (fun w key => onKey key w) keys w.

Definition named (n : string) : Key :=
  {| name := n; shift := false; ctrl := false; meta := false; sequence := "" |}.

End ConfirmationDialog.

(** What can happen to the gate and its dialog, one at a time: a tool
    asks, a suspended caller resumes, the human answers in the dialog or
    toggles auto-edit, the conversation is cleared. *)
Inductive Action :=
| Ask (r : Request)
| Resume
| Confirm (dontAskAgain' : bool)
| Reject (feedback' : option string)
| ToggleAutoEdit
| Clear.

Definition act (st : ConfirmationProvider.State) (a : Action) : ConfirmationProvider.State :=
  match a with
  | Ask r =>
      let '(g, emitted) := Gate.requestConfirmation r (ConfirmationProvider.service st) in
      {| ConfirmationProvider.service := g;
         ConfirmationProvider.signals :=
           ConfirmationProvider.deliver emitted (ConfirmationProvider.signals st) |}
  | Resume =>
      let '(g, emitted) := Gate.resume (ConfirmationProvider.service st) in
      {| ConfirmationProvider.service := g;
         ConfirmationProvider.signals :=
           ConfirmationProvider.deliver emitted (ConfirmationProvider.signals st) |}
  | Confirm d => ConfirmationProvider.confirm d st
  | Reject fb => ConfirmationProvider.reject fb st
  | ToggleAutoEdit => ConfirmationProvider.toggleAutoEdit st
  | Clear =>
      {| ConfirmationProvider.service := Gate.resetSession (ConfirmationProvider.service st);
         ConfirmationProvider.signals := ConfirmationProvider.signals st |}
  end.

Definition after (actions : list Action) : ConfirmationProvider.State :=
  fold_left act actions (ConfirmationProvider.mount Gate.initial).

(** The prompts that were surfaced and are not decided yet. *)
Fixpoint open_prompts (log : list GateEvent) (open : nat) : nat :=
  match log with
  | [] => open
  | Surfaced _ :: rest => open_prompts rest (S open)
  | Decided _ _ :: rest => open_prompts rest (open - 1)
  | AutoApproved _ :: rest => open_prompts rest open
  end.

(** ** The bound on tool rounds *)

(** A command-line number as yargs parses it: an integer, or [NaN] for
    text that is no number. *)
Inductive CliNumber := NaN | Num (z : Z).

Module Cli.

(** The [max-tool-rounds] option: [type: "number", default: 400]. *)
Definition max_tool_rounds_default : CliNumber := Num 400.

Definition maxToolRounds_option (given : option CliNumber) : CliNumber :=
  match given with
  | Some n => n
  | None => max_tool_rounds_default
  end.

(** [const maxToolRounds = args.maxToolRounds || 400] *)
Definition maxToolRounds (given : option CliNumber) : Z :=
  match maxToolRounds_option given with
  | NaN => 400
  | Num 0 => 400
  | Num z => z
  end.

End Cli.

Module Orchestrator.

(** Modelled from the spec: what one call of the model API brings back, a
    final answer, tool-call requests, or an API error. *)
Inductive ModelReply :=
| Answer (text : string)
| ToolCalls (text : string) (calls : list GrokToolCall)
| ApiError (e : JsError).

(** Modelled from the spec: how a turn ends. *)
Inductive Outcome := Done | RoundLimit | Error.

Record Turn := {
  entries : list ChatEntry;
  outcome : Outcome;
  rounds : nat           (* the round counter when the loop ended *)
}.

Definition entry (ty : EntryType) (text : string) (calls : option (list GrokToolCall))
    (call : option GrokToolCall) (result : option ToolResult) : ChatEntry :=
  {| Chat.type := ty; Chat.content := text; Chat.timestamp := 0;
     Chat.isStreaming := None; Chat.toolCalls := calls; Chat.toolCall := call;
     Chat.toolResult := result |}.

Section Loop.

(** The model and the dispatcher, as functions of what they are given. *)
Variable model : list ChatEntry -> ModelReply.
Variable dispatch : GrokToolCall -> ToolResult.

(** Modelled from the spec: one tool-result entry per requested call. *)
Definition tool_round (calls : list GrokToolCall) : list ChatEntry :=
  (fun call => entry tool_result (App.result_text (dispatch call)) None (Some call)
                 (Some (dispatch call))) <$> calls.

(** Modelled from the spec: the orchestration loop ([agent/grok-agent.ts]
    is not among the sources).  The round counter increments each time
    tool results are fed back for a new model call, and exceeding the
    configured maximum ends the loop with the round-limit outcome;
    [budget] is what is left of the maximum. *)
Fixpoint loop (budget counter : nat) (history : list ChatEntry) : Turn :=
  match model history with
  | Answer text =>
      {| entries := history ++ [entry assistant text None None None];
         outcome := Done; rounds := counter |}
  | ApiError e =>
      {| entries := history ++ [entry assistant ("Error: " +:+ message e) None None None];
         outcome := Error; rounds := counter |}
  | ToolCalls text calls =>
      let fed := history ++ [entry assistant text (Some calls) None None] ++ tool_round calls in
      match budget with
      | O => {| entries := fed; outcome := RoundLimit; rounds := S counter |}
      | S budget' => loop budget' (S counter) fed
      end
  end.

(** Modelled from the spec: a turn starts from the conversation so far
    and the user's message, with a fresh round counter. *)
Definition processUserMessage (maxToolRounds : Z) (history : list ChatEntry) (message : string)
    : Turn :=
  loop (Z.to_nat maxToolRounds) 0 (history ++ [entry user message None None None]).

End Loop.

End Orchestrator.

(** [systemctl stop nginx] asks for confirmation. *)
Definition stop_nginx : Request :=
  {| caller := 1%nat;
     request_options :=
       {| operation := "Run systemctl command"; filename := "systemctl stop nginx";
          showVSCodeOpen := false; content := Some "Command: sudo systemctl stop nginx" |};
     request_type := BashOp |}.

(** The dialog while that request is shown. *)
Definition asked_to_stop_nginx : ConfirmationDialog.World :=
  {| ConfirmationDialog.dialog := ConfirmationDialog.initial;
     ConfirmationDialog.provider := after [Ask stop_nginx];
     ConfirmationDialog.chat := ChatProvider.initial |}.

(** * More of the sources: what the tools do to the system *)

(** The calls that only read: they pass [requiresConfirmation = false] to
    [runCommand] ("Status check doesn't require confirmation", "Search
    doesn't require confirmation"), or belong to a tool whose
    [runCommand] has no gate. *)
Definition read_only (call : Invocation) : bool :=
  match call with
  | Systemctl operation _ =>
      (String.eqb operation "status" || String.eqb operation "is-active"
       || String.eqb operation "is-enabled")%bool
  | Apt operation _ => (String.eqb operation "search" || String.eqb operation "show")%bool
  | Disk _ _ | Network _ _ => true
  | CodeExecution _ _ => false
  end.







(** A container started with the limits of [buildDockerCommand]: no
    network, a read-only file system, bounded memory and CPU. *)
Definition isolated (command : string) : bool :=
  (Js.startsWith "docker run --rm --name grok-exec-" command
   && Js.includes " -w /app --memory=128m --cpus=0.5 --network=none --read-only --tmpfs /tmp "
        command)%bool.

(** What [CodeExecutionTool] may start: the Docker probe, an isolated
    container with a 30 second timeout, and the two removals of the
    [finally] block. *)
Definition code_execution_effect (ev : Event) : bool :=
  match ev with
  | EvExec command None None _ => String.eqb command "docker --version"
  | EvExec command (Some 30000) (Some 5242880) _ => isolated command
  | EvExec _ _ _ _ => false
  | EvExecDetached command =>
      (Js.startsWith "docker rm -f grok-exec-" command || Js.startsWith "rm -rf " command)%bool
  | _ => true
  end.

(** The scratch directory [mkdtemp] created, if it did. *)
Fixpoint created_scratch (evs : list Event) : option string :=
  match evs with
  | [] => None
  | EvMkdtemp _ (FsOk tempDir) :: _ => Some tempDir
  | _ :: rest => created_scratch rest
  end.

(** The removals that were started, in order. *)
Definition removals (evs : list Event) : list string :=
  flat_map (fun ev => match ev with EvExecDetached command => [command] | _ => [] end) evs.

(** The containers that were started: the name after [--name]. *)
Definition is_run_of (containerName : string) (ev : Event) : bool :=
  match ev with
  | EvExec command (Some _) _ _ =>
      Js.startsWith ("docker run --rm --name " +:+ containerName +:+ " ") command
  | _ => true
  end.

(** The human approved a request. *)
Definition is_approval (ev : Event) : bool :=
  match ev with
  | EvPrompt _ answer => confirmed answer
  | _ => false
  end.

(** A computation whose every event satisfies [P], whatever the
    environment answers. *)
Definition confined {A} (P : Event -> bool) (m : M A) : Prop :=
  forall env fl past, forallb P (emitted (m env fl past)) = true.

(** A computation that returns or throws: it never ends the process. *)
Definition stays {A} (m : M A) : Prop :=
  forall env fl past code, completion (m env fl past) <> Exited code.

(** Nothing of the confirmation path happened, and the flags are as
    they were. *)
Definition unasked {A} (fl : SessionFlags) (o : Out A) : Prop :=
  flags_after o = fl
  /\ forallb (fun ev => negb (is_confirmation ev)) (emitted o) = true.

(** The [finally] block did its work: see [scratch_is_always_cleaned_up]. *)
Definition cleaned_up (evs : list Event) : Prop :=
  (forall tempDir, created_scratch evs = Some tempDir -> tempDir <> "" ->
     exists containerName before,
       evs = before ++ [EvExecDetached ("docker rm -f " +:+ containerName);
                        EvExecDetached ("rm -rf " +:+ tempDir)]
       /\ removals before = []
       /\ forallb (is_run_of containerName) evs = true)
  /\ (created_scratch evs = None -> removals evs = []).

(** No event that [launches] the operation comes before an approval;
    [seen] tells whether one was seen already. *)
Fixpoint approved_before (op : MutatingOperation) (seen : bool) (evs : list Event) : bool :=
  match evs with
  | [] => true
  | ev :: rest =>
      (implb (launches op ev) seen && approved_before op (seen || is_approval ev) rest)%bool
  end.

(** * More of the sources: the terminal UI *)

(** In the functions of the terminal UI a position counts the characters
    of the Rocq string: JavaScript's UTF-16 code units, for ASCII text.
    Numbers are integers. *)
Module JsText.

Definition length (s : string) : Z := Z.of_nat (String.length s).

(** [xs.length] of an array. *)
Definition count {A} (xs : list A) : Z := Z.of_nat (List.length xs).

Fixpoint take (n : nat) (s : string) : string :=
  match n, s with
  | O, _ => EmptyString
  | S n', String c s' => String c (take n' s')
  | S _, EmptyString => EmptyString
  end.

Fixpoint drop (n : nat) (s : string) : string :=
  match n, s with
  | O, _ => s
  | S n', String _ s' => drop n' s'
  | S _, EmptyString => EmptyString
  end.

(** An index argument of [slice], made absolute: a negative one counts
    from the end, and the result is clamped to the string. *)
Definition absolute (len i : Z) : Z :=
  if i <? 0 then Z.max (len + i) 0 else Z.min i len.

(** [s.slice(start, end)] *)
Definition slice (s : string) (start stop : Z) : string :=
  let from := absolute (length s) start in
  let to := absolute (length s) stop in
  take (Z.to_nat (to - from)) (drop (Z.to_nat from) s).

(** [s.slice(start)] *)
Definition slice_from (s : string) (start : Z) : string := slice s start (length s).

(** [s.substring(start)]: a negative start is 0. *)
Definition substring_from (s : string) (start : Z) : string :=
  drop (Z.to_nat (Z.min (Z.max start 0) (length s))) s.

(** [s.split("\n")] *)
Fixpoint lines (s : string) : list string :=
  match s with
  | EmptyString => [EmptyString]
  | String c s' =>
      if Nat.eqb (nat_of_ascii c) 10 then EmptyString :: lines s'
      else match lines s' with
           | line :: rest => String c line :: rest
           | [] => [String c EmptyString]
           end
  end.

(** [xs[i]]: [undefined] outside the array. *)
Definition at_index {A} (xs : list A) (i : Z) : option A :=
  if i <? 0 then None else xs !! Z.to_nat i.

(** [xs.slice(-n)]: the last [n] elements. *)
Definition last_n {A} (n : nat) (xs : list A) : list A :=
  List.skipn (List.length xs - n) xs.

End JsText.

(** ** The input context ([InputProvider]) *)

Module InputProvider.

(** The signals of the provider. *)
Record InputState := {
  input : string;
  cursorPosition : Z;
  history : list string;
  historyIndex : Z;
  originalInput : string
}.

Definition initial : InputState :=
  {| input := ""; cursorPosition := 0; history := []; historyIndex := -1;
     originalInput := "" |}.

Definition setInput (v : string) (st : InputState) : InputState :=
  {| input := v; cursorPosition := cursorPosition st; history := history st;
     historyIndex := historyIndex st; originalInput := originalInput st |}.

Definition setCursorPosition (v : Z) (st : InputState) : InputState :=
  {| input := input st; cursorPosition := v; history := history st;
     historyIndex := historyIndex st; originalInput := originalInput st |}.

Definition setHistory (f : list string -> list string) (st : InputState) : InputState :=
  {| input := input st; cursorPosition := cursorPosition st; history := f (history st);
     historyIndex := historyIndex st; originalInput := originalInput st |}.

Definition setHistoryIndex (v : Z) (st : InputState) : InputState :=
  {| input := input st; cursorPosition := cursorPosition st; history := history st;
     historyIndex := v; originalInput := originalInput st |}.

Definition setOriginalInput (v : string) (st : InputState) : InputState :=
  {| input := input st; cursorPosition := cursorPosition st; history := history st;
     historyIndex := historyIndex st; originalInput := v |}.

(** What an editing function of [utils/text-utils.js] returns. *)
Record Edit := {
  text : string;
  position : Z
}.

(** The functions the provider imports from [utils/text-utils.js], a
    module that is not among the sources: they are taken as given. *)
Record TextUtils := {
  deleteCharBefore : string -> Z -> Edit;
  deleteCharAfter : string -> Z -> Edit;
  deleteWordBefore : string -> Z -> Edit;
  deleteWordAfter : string -> Z -> Edit;
  insertText : string -> Z -> string -> Edit;
  moveToLineStart : string -> Z -> Z;
  moveToLineEnd : string -> Z -> Z;
  moveToPreviousWord : string -> Z -> Z;
  moveToNextWord : string -> Z -> Z
}.

Definition clearInput (st : InputState) : InputState :=
  setOriginalInput "" (setHistoryIndex (-1) (setCursorPosition 0 (setInput "" st))).

Definition insertAtCursor (u : TextUtils) (typed : string) (st : InputState) : InputState :=
  let result := insertText u (input st) (cursorPosition st) typed in
  setHistoryIndex (-1)
    (setOriginalInput (text result)
       (setCursorPosition (position result) (setInput (text result) st))).

Definition handleBackspace (u : TextUtils) (ctrl : bool) (st : InputState) : InputState :=
  let result :=
    if ctrl then deleteWordBefore u (input st) (cursorPosition st)
    else deleteCharBefore u (input st) (cursorPosition st) in
  let st := setCursorPosition (position result) (setInput (text result) st) in
  setOriginalInput (input st) st.

Definition handleDelete (u : TextUtils) (ctrl : bool) (st : InputState) : InputState :=
  let result :=
    if ctrl then deleteWordAfter u (input st) (cursorPosition st)
    else deleteCharAfter u (input st) (cursorPosition st) in
  let st := setCursorPosition (position result) (setInput (text result) st) in
  setOriginalInput (input st) st.

Definition handleLeft (u : TextUtils) (ctrl : bool) (st : InputState) : InputState :=
  if ctrl then setCursorPosition (moveToPreviousWord u (input st) (cursorPosition st)) st
  else setCursorPosition (Z.max 0 (cursorPosition st - 1)) st.

Definition handleRight (u : TextUtils) (ctrl : bool) (st : InputState) : InputState :=
  if ctrl then setCursorPosition (moveToNextWord u (input st) (cursorPosition st)) st
  else setCursorPosition (Z.min (JsText.length (input st)) (cursorPosition st + 1)) st.

(** [setInput(newInput); setCursorPosition(newInput.length)] for an entry
    read from the history.  Outside the history the entry is [undefined]
    and reading its [length] throws a [TypeError]: that is [None]. *)
Definition show_entry (newInput : option string) (st : InputState) : option InputState :=
  match newInput with
  | Some newInput => Some (setCursorPosition (JsText.length newInput) (setInput newInput st))
  | None => None
  end.

(** [handleUp]: the state it leaves and the boolean it returns. *)
Definition handleUp (st : InputState) : option (InputState * bool) :=
  let hist := history st in
  if JsText.count hist =? 0 then Some (st, false)
  else
    let moved :=
      if historyIndex st =? -1 then
        Some (setHistoryIndex (JsText.count hist - 1) (setOriginalInput (input st) st))
      else if 0 <? historyIndex st then Some (setHistoryIndex (historyIndex st - 1) st)
      else None in
    match moved with
    | None => Some (st, false)
    | Some st =>
        match show_entry (JsText.at_index hist (historyIndex st)) st with
        | Some st => Some (st, true)
        | None => None
        end
    end.

(** [handleDown] *)
Definition handleDown (st : InputState) : option (InputState * bool) :=
  let hist := history st in
  if historyIndex st =? -1 then Some (st, false)
  else if historyIndex st <? JsText.count hist - 1 then
    let st := setHistoryIndex (historyIndex st + 1) st in
    match show_entry (JsText.at_index hist (historyIndex st)) st with
    | Some st => Some (st, true)
    | None => None
    end
  else
    let st := setInput (originalInput st) (setHistoryIndex (-1) st) in
    Some (setCursorPosition (JsText.length (originalInput st)) st, true).

Definition handleHome (st : InputState) : InputState := setCursorPosition 0 st.

Definition handleEnd (st : InputState) : InputState :=
  setCursorPosition (JsText.length (input st)) st.

Definition handleKillLine (u : TextUtils) (st : InputState) : InputState :=
  let lineEnd := moveToLineEnd u (input st) (cursorPosition st) in
  let newText :=
    JsText.slice (input st) 0 (cursorPosition st) +:+ JsText.slice_from (input st) lineEnd in
  setOriginalInput newText (setInput newText st).

Definition handleKillLineBack (u : TextUtils) (st : InputState) : InputState :=
  let lineStart := moveToLineStart u (input st) (cursorPosition st) in
  let newText :=
    JsText.slice (input st) 0 lineStart +:+ JsText.slice_from (input st) (cursorPosition st) in
  setOriginalInput newText (setCursorPosition lineStart (setInput newText st)).

Definition handleKillWord (u : TextUtils) (st : InputState) : InputState :=
  let result := deleteWordBefore u (input st) (cursorPosition st) in
  setOriginalInput (text result)
    (setCursorPosition (position result) (setInput (text result) st)).

Definition addToHistory (submitted : string) (st : InputState) : InputState :=
  let st :=
    if Js.nonempty (Js.trim submitted) then
      setHistory (fun prev =>
                    (* Don't add duplicates *)
                    match JsText.at_index prev (JsText.count prev - 1) with
                    | Some newest => if String.eqb newest submitted then prev
                                     else prev ++ [submitted]
                    | None => prev ++ [submitted]
                    end) st
    else st in
  setOriginalInput "" (setHistoryIndex (-1) st).

(** A call of one of the functions the provider hands out. *)
Inductive Call :=
| SetInput (v : string)
| SetCursorPosition (v : Z)
| ClearInput
| InsertAtCursor (typed : string)
| HandleBackspace (ctrl : bool)
| HandleDelete (ctrl : bool)
| HandleLeft (ctrl : bool)
| HandleRight (ctrl : bool)
| HandleUp
| HandleDown
| HandleHome
| HandleEnd
| HandleKillLine
| HandleKillLineBack
| HandleKillWord
| AddToHistory (submitted : string).

(** The state after a call; [None] when the call throws. *)
Definition call (u : TextUtils) (c : Call) (st : InputState) : option InputState :=
  match c with
  | SetInput v => Some (setInput v st)
  | SetCursorPosition v => Some (setCursorPosition v st)
  | ClearInput => Some (clearInput st)
  | InsertAtCursor typed => Some (insertAtCursor u typed st)
  | HandleBackspace ctrl => Some (handleBackspace u ctrl st)
  | HandleDelete ctrl => Some (handleDelete u ctrl st)
  | HandleLeft ctrl => Some (handleLeft u ctrl st)
  | HandleRight ctrl => Some (handleRight u ctrl st)
  | HandleUp => fst <$> handleUp st
  | HandleDown => fst <$> handleDown st
  | HandleHome => Some (handleHome st)
  | HandleEnd => Some (handleEnd st)
  | HandleKillLine => Some (handleKillLine u st)
  | HandleKillLineBack => Some (handleKillLineBack u st)
  | HandleKillWord => Some (handleKillWord u st)
  | AddToHistory submitted => Some (addToHistory submitted st)
  end.

(** Calls in a row, from the provider's initial signals. *)
Fixpoint calls (u : TextUtils) (cs : list Call) (st : InputState) : option InputState :=
  match cs with
  | [] => Some st
  | c :: rest =>
      match call u c st with
      | Some st => calls u rest st
      | None => None
      end
  end.

(** [n] presses in a row of a key whose handler may throw. *)
Fixpoint times (n : nat) (handler : InputState -> option (InputState * bool))
    (st : InputState) : option InputState :=
  match n with
  | O => Some st
  | S n' =>
      match handler st with
      | Some (st, _) => times n' handler st
      | None => None
      end
  end.

End InputProvider.

(** ** The input box ([ChatInput]) *)

Module ChatInput.

(** The loop of [cursorInfo] from line [i] on, [totalChars] characters
    being before that line; [(0, 0)] when no line takes the cursor. *)
Fixpoint locate (allLines : list string) (i totalChars cursorPos : Z) : Z * Z :=
  match allLines with
  | [] => (0, 0)
  | line :: rest =>
      if cursorPos <=? totalChars + JsText.length line then (i, cursorPos - totalChars)
      else locate rest (i + 1) (totalChars + JsText.length line + 1) cursorPos
  end.

(** Calculate cursor position within current line: [(lineIndex,
    charIndex)]. *)
Definition cursorInfo (input : string) (cursorPos : Z) : Z * Z :=
  locate (JsText.lines input) 0 0 cursorPos.

End ChatInput.

(** Where line [i] starts in the text whose lines are [allLines]: every
    line before it counts with its line feed. *)
Fixpoint line_start (allLines : list string) (i : nat) : Z :=
  match i, allLines with
  | S i', line :: rest => JsText.length line + 1 + line_start rest i'
  | _, _ => 0
  end.

(** ** The command suggestions ([command-suggestions.tsx]) *)

Module CommandSuggestions.

Definition MAX_SUGGESTIONS : nat := 8.

Record CommandSuggestion := {
  command : string;
  description : string
}.

Definition filterCommandSuggestions (suggestions : list CommandSuggestion) (input : string)
    : list CommandSuggestion :=
  let lowerInput := Js.toLowerCase input in
  List.firstn MAX_SUGGESTIONS
    (List.filter (fun s => Js.startsWith lowerInput (Js.toLowerCase (command s))) suggestions).

End CommandSuggestions.

(** The history index is -1 (not browsing) or an index of the history. *)
Definition index_in_history (st : InputProvider.InputState) : Prop :=
  -1 <= InputProvider.historyIndex st < JsText.count (InputProvider.history st).

(** No blank entry, and no entry equal to the one before it. *)
Definition history_is_clean (h : list string) : Prop :=
  forall i t, h !! i = Some t -> Js.trim t <> "" /\ h !! S i <> Some t.

(** Browsing from the state [st0]: entry [i] of its history is shown. *)
Definition browsing (st0 : InputProvider.InputState) (i : nat)
    (st : InputProvider.InputState) : Prop :=
  InputProvider.history st = InputProvider.history st0
  /\ InputProvider.originalInput st = InputProvider.input st0
  /\ InputProvider.historyIndex st = Z.of_nat i
  /\ InputProvider.history st0 !! i = Some (InputProvider.input st)
  /\ InputProvider.cursorPosition st = JsText.length (InputProvider.input st).

(** The suggestion starts with the input, case ignored. *)
Definition matches (input : string) (s : CommandSuggestions.CommandSuggestion) : bool :=
  Js.startsWith (Js.toLowerCase input) (Js.toLowerCase (CommandSuggestions.command s)).

(** ** The chat interface of [src/tui/app.tsx] *)

Module ChatInterface.

Definition commandSuggestions : list CommandSuggestions.CommandSuggestion :=
  [ {| CommandSuggestions.command := "/help";
       CommandSuggestions.description := "Show help information" |};
    {| CommandSuggestions.command := "/clear";
       CommandSuggestions.description := "Clear chat history" |};
    {| CommandSuggestions.command := "/models";
       CommandSuggestions.description := "Switch Grok Model" |};
    {| CommandSuggestions.command := "/commit-and-push";
       CommandSuggestions.description := "AI commit & push to remote" |};
    {| CommandSuggestions.command := "/exit";
       CommandSuggestions.description := "Exit the application" |} ].

End ChatInterface.

(** No entry is marked as streaming. *)
Definition none_streaming (h : list ChatEntry) : Prop :=
  Forall (fun entry => App.is_streaming entry = false) h.

(** While no entry is being streamed into, none is marked as streaming. *)
Definition idle_means_closed (s : App.Consumer) : Prop :=
  App.streamingEntry s = None -> none_streaming (ChatProvider.history (App.chat s)).

(** ** The chat history ([chat-history.tsx]) *)

Module ChatHistory.

(** [entry.type === "tool_call" && entry.content === "Executing..."] *)
Definition is_placeholder (entry : ChatEntry) : bool :=
  match Chat.type entry with
  | tool_call => String.eqb (Chat.content entry) "Executing..."
  | _ => false
  end.

Definition filteredEntries (entries : list ChatEntry) (options : option ConfirmationOptions)
    : list ChatEntry :=
  let isConfirmationActive := match options with Some _ => true | None => false end in
  if isConfirmationActive then List.filter (fun entry => negb (is_placeholder entry)) entries
  else entries.

Definition displayedEntries (entries : list ChatEntry) (options : option ConfirmationOptions)
    : list ChatEntry :=
  JsText.last_n 20 (filteredEntries entries options).

(** [line.search(/\S/)] from position [i] on: the index of the first
    character that is not white space, or -1. *)
Fixpoint search_nonspace (i : Z) (line : string) : Z :=
  match line with
  | EmptyString => -1
  | String c rest => if Js.is_whitespace c then search_nonspace (i + 1) rest else i
  end.

(** The body of the loop that computes the minimum indentation; [None]
    is [Infinity]. *)
Definition narrow (baseIndentation : option Z) (line : string) : option Z :=
  if String.eqb (Js.trim line) "" then baseIndentation
  else
    let firstCharIndex := search_nonspace 0 line in
    let currentIndent := if firstCharIndex =? -1 then 0 else firstCharIndex in
    match baseIndentation with
    | None => Some currentIndent
    | Some b => Some (Z.min b currentIndent)
    end.

Definition minimum_indentation (lines : list string) : option Z :=
  fold_left narrow lines None.

Definition baseIndentation (lines : list string) : Z :=
  match minimum_indentation lines with
  | Some b => b
  | None => 0      (* [!isFinite(baseIndentation)] *)
  end.

Definition renderFileContent (content : string) : list string :=
  let lines := JsText.lines content in
  (fun line => JsText.substring_from line (baseIndentation lines)) <$> lines.

End ChatHistory.

(** The white space a line starts with, counted. *)
Fixpoint leading (s : string) : nat :=
  match s with
  | EmptyString => 0
  | String c rest => if Js.is_whitespace c then S (leading rest) else 0
  end.

(** A line with something else than white space on it. *)
Definition nonblank (line : string) : Prop := leading line <> String.length line.

(** How many characters [substring(baseIndentation)] takes off a line. *)
Definition cut (b : Z) (line : string) : nat :=
  Z.to_nat (Z.min (Z.max b 0) (JsText.length line)).

(** ** The diff renderer ([diff-renderer.tsx]) *)

Module DiffRenderer.

Inductive LineType := add | del | context | hunk | other.

(** [oldLine] and [newLine] are optional. *)
Record DiffLine := {
  type : LineType;
  oldLine : option Z;
  newLine : option Z;
  content : string
}.

(** [\d] *)
Definition is_digit (c : ascii) : bool :=
  let n := nat_of_ascii c in (Nat.leb 48 n && Nat.leb n 57)%bool.

(** The longest run of digits a text starts with, and what follows it. *)
Fixpoint digits (s : string) : string * string :=
  match s with
  | EmptyString => (EmptyString, EmptyString)
  | String c rest =>
      if is_digit c then let '(run, after) := digits rest in (String c run, after)
      else (EmptyString, s)
  end.

(** A literal piece of the pattern: what follows it, when the text
    starts with it. *)
Definition literal (piece s : string) : option string :=
  if Js.startsWith piece s then Some (JsText.drop (String.length piece) s) else None.

(** [(\d+),?\d*]: the group, and what follows the match. *)
Definition side (s : string) : option (string * string) :=
  match digits s with
  | (EmptyString, _) => None
  | (group, after) =>
      let after := if Js.startsWith "," after then JsText.drop 1 after else after in
      Some (group, snd (digits after))
  end.

(** [line.match(/^@@ -(\d+),?\d* \+(\d+),?\d* @@/)]: the two groups of a
    match.  Every piece of the pattern is followed by one that cannot
    start with what the piece gave up (a run of digits is followed by a
    comma or a space, the optional comma by a digit or a space), so the
    greedy match is the only one and backtracking finds no other. *)
Definition hunkHeaderRegex (line : string) : option (string * string) :=
  match literal "@@ -" line with
  | None => None
  | Some s =>
      match side s with
      | None => None
      | Some (old, s) =>
          match literal " +" s with
          | None => None
          | Some s =>
              match side s with
              | None => None
              | Some (new, s) =>
                  match literal " @@" s with
                  | None => None
                  | Some _ => Some (old, new)
                  end
              end
          end
      end
  end.

Fixpoint parseInt_from (value : Z) (digits : string) : Z :=
  match digits with
  | EmptyString => value
  | String c rest => parseInt_from (10 * value + (Z.of_nat (nat_of_ascii c) - 48)) rest
  end.

(** [parseInt(digits, 10)] of a run of digits. *)
Definition parseInt (digits : string) : Z := parseInt_from 0 digits.

(** The variables of the loop of [parseDiffWithLineNumbers]. *)
Record Parser := {
  result : list DiffLine;
  currentOldLine : Z;
  currentNewLine : Z;
  inHunk : bool
}.

Definition BACKSLASH : string := String (ascii_of_nat 92) EmptyString.

(** The body of the loop. *)
Definition step (p : Parser) (line : string) : Parser :=
  match hunkHeaderRegex line with
  | Some (old, new) =>
      {| result := result p ++ [ {| type := hunk; oldLine := None; newLine := None;
                                    content := line |} ];
         currentOldLine := parseInt old - 1;
         currentNewLine := parseInt new - 1;
         inHunk := true |}
  | None =>
      if negb (inHunk p) then p
      else if Js.startsWith "+" line then
        let currentNewLine := currentNewLine p + 1 in
        {| result := result p ++ [ {| type := add; oldLine := None;
                                      newLine := Some currentNewLine;
                                      content := JsText.substring_from line 1 |} ];
           currentOldLine := currentOldLine p;
           currentNewLine := currentNewLine;
           inHunk := true |}
      else if Js.startsWith "-" line then
        let currentOldLine := currentOldLine p + 1 in
        {| result := result p ++ [ {| type := del; oldLine := Some currentOldLine;
                                      newLine := None;
                                      content := JsText.substring_from line 1 |} ];
           currentOldLine := currentOldLine;
           currentNewLine := currentNewLine p;
           inHunk := true |}
      else if Js.startsWith " " line then
        let currentOldLine := currentOldLine p + 1 in
        let currentNewLine := currentNewLine p + 1 in
        {| result := result p ++ [ {| type := context; oldLine := Some currentOldLine;
                                      newLine := Some currentNewLine;
                                      content := JsText.substring_from line 1 |} ];
           currentOldLine := currentOldLine;
           currentNewLine := currentNewLine;
           inHunk := true |}
      else if Js.startsWith BACKSLASH line then
        {| result := result p ++ [ {| type := other; oldLine := None; newLine := None;
                                      content := line |} ];
           currentOldLine := currentOldLine p;
           currentNewLine := currentNewLine p;
           inHunk := true |}
      else p
  end.

Definition parseDiffWithLineNumbers (diffContent : string) : list DiffLine :=
  result
    (fold_left step (JsText.lines diffContent)
       {| result := []; currentOldLine := 0; currentNewLine := 0; inHunk := false |}).

Record DiffRendererProps := {
  diffContent : string;
  tabWidth : option Z
}.

Definition DEFAULT_TAB_WIDTH : Z := 4.

(** [" ".repeat(count)]: a [RangeError] ([None]) for a negative count. *)
Definition repeat_space (count : Z) : option string :=
  if count <? 0 then None else Some (Nat.iter (Z.to_nat count) (String " ") EmptyString).

(** [s.replace(/\t/g, spaces)] *)
Fixpoint replace_tabs (spaces s : string) : string :=
  match s with
  | EmptyString => EmptyString
  | String c rest =>
      if Nat.eqb (nat_of_ascii c) 9 then spaces +:+ replace_tabs spaces rest
      else String c (replace_tabs spaces rest)
  end.

(** Strip the first summary line *)
Definition actualDiffContent (diffContent : string) : string :=
  let lines := JsText.lines diffContent in
  let firstLine := hd EmptyString lines in
  if (Js.nonempty firstLine
      && (Js.startsWith "Updated " firstLine || Js.startsWith "Created " firstLine))%bool
  then Js.join_with Js.LF (tl lines)
  else diffContent.

Definition displayable (l : DiffLine) : bool :=
  match type l with
  | hunk | other => false
  | _ => true
  end.

Record ParsedData := {
  lines : list DiffLine;
  baseIndentation : Z
}.

(** The memo [parsedData]; [None] is the [RangeError] that [repeat] throws
    for a negative count, in the callback of [map]. *)
Definition parsedData (props : DiffRendererProps) : option ParsedData :=
  let tabWidth := default DEFAULT_TAB_WIDTH (tabWidth props) in
  if String.eqb (diffContent props) "" then Some {| lines := []; baseIndentation := 0 |}
  else
    let parsedLines := parseDiffWithLineNumbers (actualDiffContent (diffContent props)) in
    (* Normalize whitespace *)
    let normalizedLines :=
      match parsedLines, repeat_space tabWidth with
      | [], _ => Some []
      | _, None => None
      | _, Some spaces =>
          Some ((fun line =>
                   {| type := type line; oldLine := oldLine line; newLine := newLine line;
                      content := replace_tabs spaces (content line) |})
                  <$> parsedLines)
      end in
    match normalizedLines with
    | None => None
    | Some normalizedLines =>
        let displayableLines := List.filter displayable normalizedLines in
        (* Calculate base indentation *)
        let baseIndentation :=
          fold_left (fun baseIndentation line => ChatHistory.narrow baseIndentation (content line))
            displayableLines None in
        Some {| lines := displayableLines;
                baseIndentation := match baseIndentation with
                                   | Some b => b
                                   | None => 0     (* [!isFinite(baseIndentation)] *)
                                   end |}
    end.

(** One row of the rendered diff. *)
Record Row := {
  gutter : string;
  backgroundColor : option string;
  prefixSymbol : string;
  dim : bool;
  displayContent : string
}.

(** [(n ?? "").toString()] *)
Definition number_text (n : option Z) : string :=
  match n with
  | Some n => Js.of_Z n
  | None => EmptyString
  end.

(** [s.padEnd(width)] *)
Definition padEnd (width : nat) (s : string) : string :=
  s +:+ Nat.iter (width - String.length s) (String " ") EmptyString.

Definition row (data : ParsedData) (line : DiffLine) : option Row :=
  let displayContent := JsText.substring_from (content line) (baseIndentation data) in
  match type line with
  | add =>
      Some {| gutter := padEnd 4 (number_text (newLine line));
              backgroundColor := Some "#86efac"; prefixSymbol := "+"; dim := false;
              displayContent := displayContent |}
  | del =>
      Some {| gutter := padEnd 4 (number_text (oldLine line));
              backgroundColor := Some "#fca5a5"; prefixSymbol := "-"; dim := false;
              displayContent := displayContent |}
  | context =>
      Some {| gutter := padEnd 4 (number_text (newLine line));
              backgroundColor := None; prefixSymbol := " "; dim := true;
              displayContent := displayContent |}
  | _ => None
  end.

(** What the component shows. *)
Inductive View :=
| NoChanges                       (* "No changes detected." *)
| Rows (rows : list Row).

Definition render (props : DiffRendererProps) : option View :=
  match parsedData props with
  | None => None
  | Some data =>
      match lines data with
      | [] => Some NoChanges
      | shown => Some (Rows (omap (row data) shown))
      end
  end.

End DiffRenderer.

(** The line counts on the old side of the diff. *)
Definition on_old_side (e : DiffRenderer.DiffLine) : bool :=
  match DiffRenderer.type e with
  | DiffRenderer.del | DiffRenderer.context => true
  | _ => false
  end.

(** The line counts on the new side of the diff. *)
Definition on_new_side (e : DiffRenderer.DiffLine) : bool :=
  match DiffRenderer.type e with
  | DiffRenderer.add | DiffRenderer.context => true
  | _ => false
  end.

(** How many of the first [k] entries are on the given side. *)
Definition count_before (side : DiffRenderer.DiffLine -> bool) (k : nat)
    (body : list DiffRenderer.DiffLine) : Z :=
  JsText.count (List.filter side (take k body)).

(** The entries carry the numbers the parser's counters give them, from
    the counters [o] and [n] on. *)
Fixpoint numbered (o n : Z) (r : list DiffRenderer.DiffLine) : Prop :=
  match r with
  | [] => True
  | e :: rest =>
      match DiffRenderer.type e with
      | DiffRenderer.hunk =>
          DiffRenderer.oldLine e = None /\ DiffRenderer.newLine e = None
          /\ exists old new,
               DiffRenderer.hunkHeaderRegex (DiffRenderer.content e) = Some (old, new)
               /\ numbered (DiffRenderer.parseInt old - 1) (DiffRenderer.parseInt new - 1) rest
      | DiffRenderer.add =>
          DiffRenderer.oldLine e = None /\ DiffRenderer.newLine e = Some (n + 1)
          /\ numbered o (n + 1) rest
      | DiffRenderer.del =>
          DiffRenderer.oldLine e = Some (o + 1) /\ DiffRenderer.newLine e = None
          /\ numbered (o + 1) n rest
      | DiffRenderer.context =>
          DiffRenderer.oldLine e = Some (o + 1) /\ DiffRenderer.newLine e = Some (n + 1)
          /\ numbered (o + 1) (n + 1) rest
      | DiffRenderer.other =>
          DiffRenderer.oldLine e = None /\ DiffRenderer.newLine e = None
          /\ numbered o n rest
      end
  end.

(** A line that is a hunk header. *)
Definition is_hunk_header (line : string) : bool :=
  match DiffRenderer.hunkHeaderRegex line with
  | Some _ => true
  | None => false
  end.

(** The lines after the first hunk header. *)
Fixpoint after_first_header (ls : list string) : list string :=
  match ls with
  | [] => []
  | line :: rest => if is_hunk_header line then rest else after_first_header rest
  end.

(** A line of a hunk that is displayed: an addition, a deletion or a
    line of context. *)
Definition is_change (line : string) : bool :=
  (negb (is_hunk_header line)
   && (Js.startsWith "+" line || Js.startsWith "-" line || Js.startsWith " " line))%bool.

(** The entry is the change the line shows: its text without the first
    character, and its type by that character. *)
Definition change_of (e : DiffRenderer.DiffLine) (line : string) : Prop :=
  DiffRenderer.content e = JsText.substring_from line 1
  /\ match DiffRenderer.type e with
     | DiffRenderer.add => Js.startsWith "+" line = true
     | DiffRenderer.del => Js.startsWith "-" line = true
     | DiffRenderer.context => Js.startsWith " " line = true
     | _ => False
     end.

(** The row shows the line of the diff: its first character as the
    symbol, and the rest of it, tabs replaced, without an indentation of
    [b] characters (of fewer, on a line that is blank). *)
Definition shows (spaces : string) (b : Z) (row : DiffRenderer.Row) (line : string) : Prop :=
  String.length (DiffRenderer.prefixSymbol row) = 1%nat
  /\ Js.startsWith (DiffRenderer.prefixSymbol row) line = true
  /\ exists indent,
       DiffRenderer.replace_tabs spaces (JsText.substring_from line 1)
       = indent +:+ DiffRenderer.displayContent row
       /\ Js.trimStart indent = ""
       /\ (Js.trim (DiffRenderer.displayContent row) <> "" -> JsText.length indent = b).

(** ** The keys of the confirmation dialog *)

(** A key that types text into the feedback: it is none of Return,
    Backspace and Escape, and carries text without Ctrl or Meta. *)
Definition types_text (key : ConfirmationDialog.Key) : bool :=
  (negb (String.eqb (ConfirmationDialog.name key) "return")
   && negb (String.eqb (ConfirmationDialog.name key) "backspace")
   && negb (String.eqb (ConfirmationDialog.name key) "escape")
   && Js.nonempty (ConfirmationDialog.sequence key)
   && negb (ConfirmationDialog.ctrl key)
   && negb (ConfirmationDialog.meta key))%bool.

(** A key that can decide: Return or Escape. *)
Definition decides (key : ConfirmationDialog.Key) : bool :=
  (String.eqb (ConfirmationDialog.name key) "return"
   || String.eqb (ConfirmationDialog.name key) "escape")%bool.

(** ** How the headless drivers end *)

(** The last thing logged is the success of [git push]. *)
Definition ends_with_push (evs : list Event) : Prop :=
  exists before line, evs = before ++ [EvLog ("✅ git push: " +:+ line)].

(** A step of the commit-and-push driver: when it returns, the push has
    succeeded; when it ends the process, the status is 1. *)
Definition reports {A} (m : M A) : Prop :=
  forall env fl past,
    match completion (m env fl past) with
    | Returned _ => ends_with_push (emitted (m env fl past))
    | Thrown _ => True
    | Exited code => code = 1
    end.


(** ** The cursor of the input box *)

(** The cursor is inside the input. *)
Definition cursor_in_input (st : InputProvider.InputState) : Prop :=
  0 <= InputProvider.cursorPosition st <= JsText.length (InputProvider.input st).

(** What the provider needs of [text-utils]: from a position inside a
    text, an edit leaves the position inside the text it returns, and a
    move stays inside the text. *)
Definition keeps_positions (u : InputProvider.TextUtils) : Prop :=
  forall s p, 0 <= p <= JsText.length s ->
    (forall edit, In edit [InputProvider.deleteCharBefore u s p;
                           InputProvider.deleteCharAfter u s p;
                           InputProvider.deleteWordBefore u s p;
                           InputProvider.deleteWordAfter u s p] ->
       0 <= InputProvider.position edit <= JsText.length (InputProvider.text edit))
    /\ (forall typed,
          0 <= InputProvider.position (InputProvider.insertText u s p typed)
            <= JsText.length (InputProvider.text (InputProvider.insertText u s p typed)))
    /\ (forall q, In q [InputProvider.moveToLineStart u s p; InputProvider.moveToLineEnd u s p;
                        InputProvider.moveToPreviousWord u s p;
                        InputProvider.moveToNextWord u s p] ->
          0 <= q <= JsText.length s).

(** A call of a handler: not one of the two raw setters. *)
Definition is_handler (c : InputProvider.Call) : bool :=
  match c with
  | InputProvider.SetInput _ | InputProvider.SetCursorPosition _ => false
  | _ => true
  end.

(** Editing functions that neither edit nor move. *)
Definition idle_utils : InputProvider.TextUtils :=
  {| InputProvider.deleteCharBefore := fun s p => {| InputProvider.text := s; InputProvider.position := p |};
     InputProvider.deleteCharAfter := fun s p => {| InputProvider.text := s; InputProvider.position := p |};
     InputProvider.deleteWordBefore := fun s p => {| InputProvider.text := s; InputProvider.position := p |};
     InputProvider.deleteWordAfter := fun s p => {| InputProvider.text := s; InputProvider.position := p |};
     InputProvider.insertText := fun s p _ => {| InputProvider.text := s; InputProvider.position := p |};
     InputProvider.moveToLineStart := fun _ p => p;
     InputProvider.moveToLineEnd := fun _ p => p;
     InputProvider.moveToPreviousWord := fun _ p => p;
     InputProvider.moveToNextWord := fun _ p => p |}.

(** ** The [mcp add] command ([commands/mcp.ts]) *)

Module McpCommand.

(** A plain object with string values ([Record<string, string>]): its
    own properties, the one assigned last first. *)
Definition Obj := list (string * string).


(** [obj[key] = value] for a string [value], on an object made by [{}]:
    [__proto__] is the accessor of [Object.prototype], and its setter
    ignores a value that is no object. *)
Definition set (key value : string) (obj : Obj) : Obj :=
  if String.eqb key "__proto__" then obj else (key, value) :: obj.

Definition is_equals (c : ascii) : bool := Nat.eqb (nat_of_ascii c) 61.

(** [s.split("=")] *)
Fixpoint split_equals (s : string) : list string :=
  match s with
  | EmptyString => [EmptyString]
  | String c rest =>
      if is_equals c then EmptyString :: split_equals rest
      else match split_equals rest with
           | piece :: pieces => String c piece :: pieces
           | [] => [String c EmptyString]
           end
  end.

(** The loop [for (const envVar of ...) { const [key, value] =
    envVar.split("=", 2); if (key && value) env[key] = value }], from the
    empty object. *)
Definition assignments (vars : list string) : Obj :=
  fold_left
    (fun env envVar =>
       let pieces := take 2 (split_equals envVar) in
       match pieces !! 0%nat, pieces !! 1%nat with
       | Some key, Some value =>
           if (Js.nonempty key && Js.nonempty value)%bool then set key value env else env
       | _, _ => env
       end)
    vars [].

Record Transport := {
  type : string;
  command : Js.value;
  args : list string;
  url : Js.value;
  env : Obj;
  headers : option Obj
}.

(** A server configuration: an entry of [PREDEFINED_SERVERS], named by
    its key, or the one the command builds. *)
Inductive MCPServerConfig :=
| Predefined (key : string)
| Custom (name : string) (transport : Transport).

(** The arguments as [yargs] hands them over. *)
Record Argv := {
  argv_name : string;
  argv_transport : string;
  argv_command : Js.value;
  argv_args : list string;
  argv_url : Js.value;
  argv_headers : list string;
  argv_env : list string
}.

Inductive Effect :=
| AddMCPServer (config : MCPServerConfig)
| ManagerAddServer (config : MCPServerConfig)
| GetTools
| ConsoleLog (line : string)
| ConsoleError (line : string).

(** What the command imports and does not define: [mcp/config.js],
    [grok/tools.js] and [chalk].  Each function answers from what was
    done so far; an error is what it throws. *)
Record Host := {
  PREDEFINED_SERVERS : string -> bool;
  addMCPServer_throws : MCPServerConfig -> list Effect -> option JsError;
  getMCPManager_throws : list Effect -> option JsError;
  addServer_rejects : MCPServerConfig -> list Effect -> option JsError;
  getTools_result : list Effect -> JsError + list string;   (* the [serverName] of each tool *)
  green : string -> string;
  red : string -> string;
  blue : string -> string
}.

(** A computation of the handler: from the host and the effects so far,
    how it completes and the effects it adds. *)
Definition Run (A : Type) : Type := Host -> list Effect -> Completion A * list Effect.

Definition pure {A} (a : A) : Run A := fun _ _ => (Returned a, []).

Definition exit {A} (code : Z) : Run A := fun _ _ => (Exited code, []).

Definition and_then {A B} (m : Run A) (k : A -> Run B) : Run B :=
  fun host past =>
    match m host past with
    | (Returned a, done) =>
        let '(c, more) := k a host (past ++ done) in (c, done ++ more)
    | (Thrown e, done) => (Thrown e, done)
    | (Exited code, done) => (Exited code, done)
    end.

(** [try { body } catch (error) { handler error }] *)
Definition try_catch {A} (body : Run A) (handler : JsError -> Run A) : Run A :=
  fun host past =>
    match body host past with
    | (Thrown e, done) =>
        let '(c, more) := handler e host (past ++ done) in (c, done ++ more)
    | o => o
    end.

Definition effect (ev : Effect) (throws : Host -> list Effect -> option JsError) : Run unit :=
  fun host past =>
    (match throws host past with
     | Some e => Thrown e
     | None => Returned tt
     end, [ev]).

Definition console_log (line : Host -> string) : Run unit :=
  fun host _ => (Returned tt, [ConsoleLog (line host)]).

Definition console_error (line : Host -> string) : Run unit :=
  fun host _ => (Returned tt, [ConsoleError (line host)]).

Definition addMCPServer (config : MCPServerConfig) : Run unit :=
  effect (AddMCPServer config) (fun host => addMCPServer_throws host config).

(** [getMCPManager()] and [await manager.addServer(config)] *)
Definition connect (config : MCPServerConfig) : Run unit :=
  fun host past =>
    match getMCPManager_throws host past with
    | Some e => (Thrown e, [])
    | None =>
        (match addServer_rejects host config past with
         | Some e => Thrown e
         | None => Returned tt
         end, [ManagerAddServer config])
    end.

(** [manager.getTools().filter((t) => t.serverName === name).length] *)
Definition countTools (name : string) : Run nat :=
  fun host past =>
    (match getTools_result host past with
     | inl e => Thrown e
     | inr servers => Returned (length (List.filter (String.eqb name) servers))
     end, [GetTools]).

(** The steps after the configuration is known. *)
Definition register (what : string) (name : string) (config : MCPServerConfig) : Run unit :=
  and_then (addMCPServer config) (fun _ =>
  and_then (console_log (fun host => green host (what +:+ name))) (fun _ =>
  and_then (connect config) (fun _ =>
  and_then (console_log (fun host => green host ("✓ Connected to MCP server: " +:+ name)))
    (fun _ =>
  and_then (countTools name) (fun tools =>
  console_log (fun host => blue host ("  Available tools: " +:+ Js.of_nat tools))))))).

Definition refuse {A} (message : string) : Run A :=
  and_then (console_error (fun host => red host message)) (fun _ => exit 1).

(** The handler of [add <name>]. *)
Definition add (argv : Argv) : Run unit :=
  try_catch
    (fun host =>
       let name := argv_name argv in
       (* Check if it's a predefined server *)
       if PREDEFINED_SERVERS host name
       then register "✓ Added predefined MCP server: " name (Predefined name) host
       else
         (* Custom server *)
         let transportType := Js.toLowerCase (argv_transport argv) in
         and_then
           (if String.eqb transportType "stdio" then
              if negb (Js.truthy (argv_command argv))
              then refuse "Error: --command is required for stdio transport"
              else pure tt
            else if (String.eqb transportType "http" || String.eqb transportType "sse"
                     || String.eqb transportType "streamable_http")%bool then
              if negb (Js.truthy (argv_url argv))
              then refuse ("Error: --url is required for " +:+ transportType +:+ " transport")
              else pure tt
            else refuse "Error: Transport type must be stdio, http, sse, or streamable_http")
           (fun _ =>
              (* Parse environment variables *)
              let env := assignments (argv_env argv) in
              (* Parse headers *)
              let headers := assignments (argv_headers argv) in
              let config :=
                Custom name
                  {| type := transportType;
                     command := argv_command argv;
                     args := argv_args argv;
                     url := argv_url argv;
                     env := env;
                     headers := match headers with
                                | [] => None
                                | _ => Some headers
                                end |} in
              register "✓ Added MCP server: " name config)
           host)
    (fun error =>
       and_then
         (console_error (fun host => red host ("Error adding MCP server: " +:+ message error)))
         (fun _ => exit 1)).

End McpCommand.





(** ** The API key prompt ([ApiKeyInput]) *)

Module ApiKeyInput.

Record Signals := {
  input : string;
  error : string;
  isSubmitting : bool
}.

Definition initial : Signals := {| input := ""; error := ""; isSubmitting := false |}.

Definition setInput (v : string) (s : Signals) : Signals :=
  {| input := v; error := error s; isSubmitting := isSubmitting s |}.

Definition setError (v : string) (s : Signals) : Signals :=
  {| input := input s; error := v; isSubmitting := isSubmitting s |}.

Definition setIsSubmitting (v : bool) (s : Signals) : Signals :=
  {| input := input s; error := error s; isSubmitting := v |}.

Inductive Effect :=
| NewGrokAgent (apiKey : string)                 (* [new GrokAgent(apiKey)] *)
| SetEnv (name value : string)                   (* [process.env[name] = value] *)
| GetSettingsManager
| UpdateUserSetting (key value : string)
| ConsoleLog (line : string)
| OnApiKeySet (apiKey : string)                  (* [props.onApiKeySet(agent)], the agent of this key *)
| ProcessExit (code : Z).

(** What the component imports or is given, and does not define: each
    function tells, from what was done so far, whether it throws. *)
Record Host := {
  GrokAgent_throws : string -> list Effect -> bool;
  getSettingsManager_throws : list Effect -> bool;
  updateUserSetting_throws : string -> string -> list Effect -> bool;
  onApiKeySet_throws : string -> list Effect -> bool
}.

(** Save to user settings: the inner [try ... catch]. *)
Definition save (host : Host) (past : list Effect) (apiKey : string) : list Effect :=
  let failed := [ConsoleLog (Js.LF +:+ "⚠️ Could not save API key to settings file");
                 ConsoleLog "API key set for current session only"] in
  if getSettingsManager_throws host past then GetSettingsManager :: failed
  else if updateUserSetting_throws host "apiKey" apiKey (past ++ [GetSettingsManager])
  then GetSettingsManager :: UpdateUserSetting "apiKey" apiKey :: failed
  else [GetSettingsManager; UpdateUserSetting "apiKey" apiKey;
        ConsoleLog (Js.LF +:+ "✅ API key saved to ~/.grok/user-settings.json")].

Definition handleSubmit (host : Host) (past : list Effect) (s : Signals)
    : Signals * list Effect :=
  if negb (Js.nonempty (Js.trim (input s))) then (setError "API key cannot be empty" s, [])
  else
    let s := setIsSubmitting true s in
    let apiKey := Js.trim (input s) in
    let invalid := setIsSubmitting false (setError "Invalid API key format" s) in
    if GrokAgent_throws host apiKey past then (invalid, [NewGrokAgent apiKey])
    else
      (* Set environment variable for current process *)
      let done := [NewGrokAgent apiKey; SetEnv "GROK_API_KEY" apiKey] in
      let done := done ++ save host (past ++ done) apiKey in
      if onApiKeySet_throws host apiKey (past ++ done)
      then (invalid, done ++ [OnApiKeySet apiKey])
      else (s, done ++ [OnApiKeySet apiKey]).

(** The keyboard handler. *)
Definition onKey (host : Host) (past : list Effect) (key : ConfirmationDialog.Key)
    (s : Signals) : Signals * list Effect :=
  if isSubmitting s then (s, [])
  else if (ConfirmationDialog.ctrl key && String.eqb (ConfirmationDialog.name key) "c")%bool
  then (s, [ProcessExit 0])
  else if String.eqb (ConfirmationDialog.name key) "return" then handleSubmit host past s
  else if String.eqb (ConfirmationDialog.name key) "backspace"
  then (setError "" (setInput (Js.drop_last (input s)) s), [])
  else if (Js.nonempty (ConfirmationDialog.sequence key)
           && negb (ConfirmationDialog.ctrl key) && negb (ConfirmationDialog.meta key))%bool
  then (setError "" (setInput (input s +:+ ConfirmationDialog.sequence key) s), [])
  else (s, []).

Definition is_exit (ev : Effect) : bool :=
  match ev with
  | ProcessExit _ => true
  | _ => false
  end.

(** Keys in a row; the keys after the process has ended are not handled. *)
Fixpoint press (host : Host) (past : list Effect) (keys : list ConfirmationDialog.Key)
    (s : Signals) : Signals * list Effect :=
  match keys with
  | [] => (s, [])
  | key :: rest =>
      let '(s, done) := onKey host past key s in
      if existsb is_exit done then (s, done)
      else let '(s, more) := press host (past ++ done) rest s in (s, done ++ more)
  end.

End ApiKeyInput.

(** The key an effect carries, if any. *)
Definition key_used (ev : ApiKeyInput.Effect) : option string :=
  match ev with
  | ApiKeyInput.NewGrokAgent k | ApiKeyInput.SetEnv _ k
  | ApiKeyInput.UpdateUserSetting _ k | ApiKeyInput.OnApiKeySet k => Some k
  | _ => None
  end.

(** Every export, save and hand-over of a key uses the key that was
    validated last; [last] is that key at the start. *)
Fixpoint uses_validated (last : option string) (effects : list ApiKeyInput.Effect) : Prop :=
  match effects with
  | [] => True
  | ApiKeyInput.NewGrokAgent k :: rest => uses_validated (Some k) rest
  | ApiKeyInput.SetEnv name v :: rest =>
      name = "GROK_API_KEY" /\ last = Some v /\ uses_validated last rest
  | ApiKeyInput.UpdateUserSetting name v :: rest =>
      name = "apiKey" /\ last = Some v /\ uses_validated last rest
  | ApiKeyInput.OnApiKeySet k :: rest => last = Some k /\ uses_validated last rest
  | _ :: rest => uses_validated last rest
  end.

(** A host where nothing throws. *)
Definition obliging_host : ApiKeyInput.Host :=
  {| ApiKeyInput.GrokAgent_throws := fun _ _ => false;
     ApiKeyInput.getSettingsManager_throws := fun _ => false;
     ApiKeyInput.updateUserSetting_throws := fun _ _ _ => false;
     ApiKeyInput.onApiKeySet_throws := fun _ _ => false |}.

(** The key that types one character. *)
Definition typing (c : string) : ConfirmationDialog.Key :=
  {| ConfirmationDialog.name := c; ConfirmationDialog.shift := false;
     ConfirmationDialog.ctrl := false; ConfirmationDialog.meta := false;
     ConfirmationDialog.sequence := c |}.
(** ** Symbolic execution of monadic code *)

(** Unfolds the monad's combinators and primitive effects and reduces the
    projections they expose, leaving the environment's answers as the
    only stuck terms. *)
Ltac unfold_m :=
  unfold bind, try_catch, try_finally, ret, throw, process_exit, execDetached, emit,
    execAsync, mkdtemp, writeFile, dateNow, randomTag, tmpdir, join, console_log,
    console_error, ConfirmationService.getSessionFlags,
    ConfirmationService.setSessionFlag, ConfirmationService.requestConfirmation;
  cbn beta iota zeta delta
    [completion flags_after emitted negb andb orb app ConfirmationService.covers
     flag_fileOperations flag_bashCommands flag_allOperations
     confirmed dontAskAgain feedback];
  rewrite ?app_nil_r.

(** The leftmost atom of a boolean condition. *)
Ltac bool_atom x k :=
  lazymatch x with
  | negb ?y => bool_atom y k
  | andb ?y _ => bool_atom y k
  | orb ?y _ => bool_atom y k
  | _ => k x
  end.

(** Case analysis on an innermost stuck scrutinee: an answer of the
    environment, a flag, an argument. *)
Ltac split_m :=
  match goal with
  | |- context [match ?x with _ => _ end] =>
      lazymatch x with
      | context [match _ with _ => _ end] => fail
      | _ => bool_atom x ltac:(fun y => destruct y eqn:?)
      end
  end.

(** Runs a computation to its outcomes, one goal per path. *)
Ltac run_m := repeat (unfold_m; try split_m).

(** Evaluates the event predicates on an explicit list of events. *)
Ltac eval_events :=
  cbn beta iota zeta delta
    [existsb forallb app real_fault faulted speedtest_probe is_confirmation
     negb andb orb String.eqb Ascii.eqb Bool.eqb Z.eqb Pos.eqb
     completion flags_after emitted success output error data failure succeeded].

Lemma or_string_nonempty s d : d <> "" -> Js.or_string s d <> "".
Proof. intros H. destruct s; simpl; [exact H | discriminate]. Qed.

Lemma or_default_nonempty v d : d <> "" -> Js.or_default v d <> "".
Proof. intros H. destruct v as [[|]|]; simpl; first [exact H | discriminate]. Qed.

Lemma append_nonempty_l a b : a <> "" -> a +:+ b <> "".
Proof. intros H. destruct a; simpl; [contradiction | discriminate]. Qed.

Lemma well_formed_failure msg : msg <> "" -> well_formed (failure msg).
Proof. intros H. exists msg. split; [reflexivity | exact H]. Qed.

Lemma well_formed_succeeded out : out <> "" -> well_formed (succeeded out).
Proof. intros H. split; [exists out; split; [reflexivity | exact H] | reflexivity]. Qed.

Lemma present_some s : s <> "" -> present (Some s).
Proof. intros H. exists s. split; [reflexivity | exact H]. Qed.

(** ** The contract of each tool *)

Ltac solve_nonempty :=
  repeat first [ apply or_string_nonempty | apply or_default_nonempty
               | apply append_nonempty_l ];
  discriminate.

Ltac solve_wf :=
  first [ apply well_formed_failure; solve_nonempty
        | apply well_formed_succeeded; solve_nonempty
        | unfold well_formed; cbn [success output error];
          first [ split; [apply present_some; solve_nonempty | reflexivity]
                | apply present_some; solve_nonempty ] ].

(** Closes [tool_contract] on one path of a computation. *)
Ltac solve_contract :=
  split;
  [ eexists; split; [reflexivity | split;
      [ solve_wf
      | eval_events; first [ reflexivity | discriminate | intros _; reflexivity ] ] ]
  | eval_events; first [ discriminate | intros _; split; reflexivity ] ].

Lemma systemctl_runCommand_contract command requiresConfirmation env fl past :
  tool_contract fl (SystemctlTool.runCommand command requiresConfirmation env fl past).
Proof.
  unfold SystemctlTool.runCommand, bash_covered, tool_contract.
  destruct fl as [ff [] []]; cbn [flag_bashCommands flag_allOperations orb].
  all: run_m; try discriminate; solve_contract.
Qed.

Lemma apt_runCommand_contract command requiresConfirmation env fl past :
  tool_contract fl (AptTool.runCommand command requiresConfirmation env fl past).
Proof.
  unfold AptTool.runCommand, bash_covered, tool_contract.
  destruct fl as [ff [] []]; cbn [flag_bashCommands flag_allOperations orb].
  all: run_m; try discriminate; solve_contract.
Qed.

Lemma disk_runCommand_contract command env fl past :
  tool_contract fl (DiskTool.runCommand command env fl past).
Proof.
  unfold DiskTool.runCommand, tool_contract.
  run_m; solve_contract.
Qed.

Lemma network_runCommand_contract command env fl past :
  tool_contract fl (NetworkTool.runCommand command env fl past).
Proof.
  unfold NetworkTool.runCommand, tool_contract.
  run_m; solve_contract.
Qed.

Lemma ret_contract r env fl past :
  well_formed r -> tool_contract fl (ret r env fl past).
Proof.
  intros Hwf. split.
  - exists r. split; [reflexivity | split; [exact Hwf | discriminate]].
  - intros _. split; reflexivity.
Qed.

Lemma ret_failure_contract msg env fl past :
  msg <> "" -> tool_contract fl (ret (failure msg) env fl past).
Proof. intros H. apply ret_contract, well_formed_failure, H. Qed.

(** A pure post-processing step that keeps [success] and well-formedness
    keeps the contract. *)
Lemma map_contract (f : ToolResult -> ToolResult) (m : M ToolResult) env fl past :
  (forall r, well_formed r -> well_formed (f r) /\ success (f r) = success r) ->
  tool_contract fl (m env fl past) ->
  tool_contract fl ((r <- m ;; ret (f r)) env fl past).
Proof.
  intros Hf [(r & Hr & Hwf & Hfault) Hcov].
  unfold bind, ret. destruct (m env fl past) as [c fl1 ev1].
  cbn [completion flags_after emitted] in *. subst c.
  rewrite app_nil_r. split.
  - exists (f r). destruct (Hf r Hwf) as [Hwf' Hs].
    split; [reflexivity | split; [exact Hwf' | rewrite Hs; exact Hfault]].
  - exact Hcov.
Qed.

Lemma describe_keeps serviceName r :
  well_formed r ->
  well_formed (SystemctlTool.describe serviceName r)
  /\ success (SystemctlTool.describe serviceName r) = success r.
Proof.
  unfold SystemctlTool.describe, well_formed.
  destruct (success r) eqn:Hs; cbn [success output error]; rewrite ?Hs.
  - intros [_ He]. split; [split; [apply present_some; discriminate | exact He] | reflexivity].
  - intros H. split; [exact H | reflexivity].
Qed.

Ltac dispatch_on_operation :=
  repeat match goal with
         | |- context [String.eqb ?op ?name] => destruct (String.eqb op name)
         end.

Lemma systemctl_execute_contract operation serviceName env fl past :
  tool_contract fl (SystemctlTool.execute operation serviceName env fl past).
Proof.
  unfold SystemctlTool.execute.
  destruct serviceName as [[|c s]|]; try (apply ret_failure_contract; discriminate).
  dispatch_on_operation;
    try apply systemctl_runCommand_contract;
    try (apply map_contract;
         [apply describe_keeps | apply systemctl_runCommand_contract]).
  apply ret_failure_contract. discriminate.
Qed.

Lemma apt_execute_contract operation args env fl past :
  tool_contract fl (AptTool.execute operation args env fl past).
Proof.
  unfold AptTool.execute, AptTool.install, AptTool.remove, AptTool.search, AptTool.show,
    AptTool.update, AptTool.upgrade.
  dispatch_on_operation;
    try destruct (args !! 0%nat) as [[|c s]|];
    first [ apply apt_runCommand_contract | apply ret_failure_contract; discriminate ].
Qed.

Lemma disk_execute_contract operation args env fl past :
  tool_contract fl (DiskTool.execute operation args env fl past).
Proof.
  unfold DiskTool.execute, DiskTool.usage, DiskTool.free, DiskTool.diskUsage,
    DiskTool.findLargeFiles, DiskTool.cleanupSuggestions.
  dispatch_on_operation;
    first [ apply disk_runCommand_contract
          | apply ret_failure_contract; discriminate
          | apply ret_contract, well_formed_succeeded; discriminate ].
Qed.

Lemma speedTest_contract env fl past :
  tool_contract fl (NetworkTool.speedTest env fl past).
Proof.
  unfold NetworkTool.speedTest, NetworkTool.runCommand, tool_contract.
  run_m; solve_contract.
Qed.

Lemma network_execute_contract operation args env fl past :
  tool_contract fl (NetworkTool.execute operation args env fl past).
Proof.
  unfold NetworkTool.execute, NetworkTool.ping, NetworkTool.traceroute,
    NetworkTool.interfaces, NetworkTool.connections, NetworkTool.dnsLookup.
  dispatch_on_operation;
    try destruct (args !! 0%nat) as [[|c s]|];
    first [ apply network_runCommand_contract
          | apply speedTest_contract
          | apply ret_failure_contract; discriminate ].
Qed.

Lemma cleanup_out containerName tempDir env fl past :
  exists evs,
    CodeExecutionTool.cleanup containerName tempDir env fl past = MkOut (Returned tt) fl evs
    /\ existsb real_fault evs = false
    /\ forallb (fun ev => negb (is_confirmation ev)) evs = true.
Proof.
  unfold CodeExecutionTool.cleanup.
  run_m; eexists; (split; [reflexivity | split; reflexivity]).
Qed.

Lemma runInContainer_quiet code language input tempDir containerName env fl past :
  quiet_contract fl
    (try_catch (CodeExecutionTool.runInContainer code language input tempDir containerName)
       (fun error => ret (CodeExecutionTool.failed_with language (Some containerName) error))
       env fl past).
Proof.
  unfold CodeExecutionTool.runInContainer, CodeExecutionTool.failed_with, quiet_contract.
  run_m;
    (split; [eexists; split; [reflexivity | split;
               [solve_wf | eval_events; first [discriminate | intros _; reflexivity]]]
            | split; [reflexivity | eval_events; reflexivity]]).
Qed.

(** [finally { cleanup }] after a quiet step is quiet. *)
Lemma finally_cleanup_quiet (body : M ToolResult) containerName tempDir env fl past :
  quiet_contract fl (body env fl past) ->
  quiet_contract fl
    (try_finally body (CodeExecutionTool.cleanup containerName tempDir) env fl past).
Proof.
  intros [(r & Hr & Hwf & Hfault) [Hfl Hquiet]].
  unfold try_finally. destruct (body env fl past) as [c fl1 ev1].
  cbn [completion flags_after emitted] in *. subst c fl1.
  destruct (cleanup_out containerName tempDir env fl (past ++ ev1))
    as (evs & -> & Hnofault & Hnoconf).
  split; [| split]; cbn [completion flags_after emitted].
  - exists r. split; [reflexivity | split; [exact Hwf |]].
    rewrite existsb_app, Hnofault, orb_false_r. exact Hfault.
  - reflexivity.
  - rewrite forallb_app, Hquiet, Hnoconf. reflexivity.
Qed.

Lemma runCodeBody_quiet code language input env fl past :
  quiet_contract fl (CodeExecutionTool.runCodeBody code language input env fl past).
Proof.
  unfold CodeExecutionTool.runCodeBody.
  unfold bind at 1 2 3. unfold tmpdir, join, try_catch at 1, bind at 1, mkdtemp, ret at 1 2.
  cbn beta iota zeta delta [completion flags_after emitted app].
  destruct (mkdtemp_answer env _ _) as [tempDir | error] eqn:Hmk.
  - unfold bind at 1 2, dateNow, randomTag.
    cbn beta iota zeta delta [completion flags_after emitted app].
    match goal with
    | |- context [try_finally ?body (CodeExecutionTool.cleanup ?c ?t) ?e ?f ?p] =>
        pose proof (finally_cleanup_quiet body c t e f p
                      (runInContainer_quiet _ _ _ _ _ _ _ _)) as H;
        destruct (try_finally body (CodeExecutionTool.cleanup c t) e f p) as [c1 fl1 ev1]
    end.
    destruct H as [(r & Hr & Hwf & Hfault) [Hfl Hquiet]].
    cbn [completion flags_after emitted] in *. subst c1 fl1.
    split; [| split]; cbn [completion flags_after emitted].
    + exists r. split; [reflexivity | split; [exact Hwf |]].
      cbn [existsb app real_fault faulted andb orb]. exact Hfault.
    + reflexivity.
    + cbn [forallb app is_confirmation negb andb]. exact Hquiet.
  - unfold CodeExecutionTool.cleanup, CodeExecutionTool.failed_with.
    run_m.
    split; [eexists; split; [reflexivity | split; [solve_wf | intros _; reflexivity]]
           | split; reflexivity].
Qed.

Lemma runCode_contract code language input env fl past :
  tool_contract fl (CodeExecutionTool.runCode code language input env fl past).
Proof.
  unfold CodeExecutionTool.runCode.
  destruct code as [[|c0 code]|]; try (apply ret_failure_contract; discriminate).
  destruct language as [[|l0 language]|]; try (apply ret_failure_contract; discriminate).
  unfold bash_covered, tool_contract.
  destruct fl as [ff [] []]; cbn [flag_bashCommands flag_allOperations orb].
  all: run_m; try discriminate; try solve [solve_contract].
  all: match goal with
       | Hbody : CodeExecutionTool.runCodeBody ?a ?b ?c ?e ?f ?p = _ |- _ =>
           pose proof (runCodeBody_quiet a b c e f p) as H; rewrite Hbody in H
       end.
  all: destruct H as [(r & Hr & Hwf & Hfault) [Hfl Hquiet]].
  all: cbn [completion flags_after emitted] in *; subst.
  all: (split;
        [ exists r; split; [reflexivity | split; [exact Hwf |]];
          eval_events; exact Hfault
        | first [ discriminate | intros _; split; [reflexivity | eval_events; exact Hquiet] ] ]).
Qed.

Lemma code_execute_contract operation args env fl past :
  tool_contract fl (CodeExecutionTool.execute operation args env fl past).
Proof.
  unfold CodeExecutionTool.execute, CodeExecutionTool.testCode.
  dispatch_on_operation;
    first [ apply runCode_contract | apply ret_failure_contract; discriminate ].
Qed.


Lemma invoke_contract call env fl past : tool_contract fl (invoke call env fl past).
Proof.
  destruct call; cbn [invoke].
  - apply systemctl_execute_contract.
  - apply apt_execute_contract.
  - apply disk_execute_contract.
  - apply network_execute_contract.
  - apply code_execute_contract.
Qed.


(** ** Results of the built-in tools *)

(** C5.  A call of a built-in tool's [execute] returns a [ToolResult] that
    satisfies the invariant: on success [output] is present and not
    empty and [error] is absent; on failure [error] is present and not
    empty. *)
Theorem tool_result_invariant (call : Invocation) env fl past :
  exists r, completion (invoke call env fl past) = Returned r /\ well_formed r.
Proof.
  destruct (invoke_contract call env fl past) as [(r & Hr & Hwf & _) _].
  exists r. split; assumption.
Qed.

(** C3, as stated, fails: when the probe [which speedtest-cli] of
    [network speedtest] is rejected, the call reports success. *)
Lemma speedtest_probe_fault_is_a_success :
  let o := invoke (Network "speedtest" []) broken_shell no_flags [] in
  existsb faulted (emitted o) = true
  /\ exists r, completion o = Returned r /\ success r = true
               /\ output r = Some NetworkTool.speedtest_hint.
Proof.
  split; [reflexivity |].
  eexists. split; [reflexivity | split; reflexivity].
Qed.

(** C3, amended.  A call of a built-in tool's [execute] returns normally
    whatever faults its effects raise (nothing is thrown to the caller),
    and when an awaited effect other than the speedtest availability probe
    faulted, the result is a failure with a non-empty [error]. *)
Theorem tool_faults_become_failures (call : Invocation) env fl past :
  exists r,
    completion (invoke call env fl past) = Returned r
    /\ (existsb real_fault (emitted (invoke call env fl past)) = true ->
        success r = false /\ present (error r)).
Proof.
  destruct (invoke_contract call env fl past) as [(r & Hr & Hwf & Hfault) _].
  exists r. split; [exact Hr |].
  intros H. specialize (Hfault H). split; [exact Hfault |].
  unfold well_formed in Hwf. rewrite Hfault in Hwf. exact Hwf.
Qed.

(** A run in which the guarded command itself fails. *)
Lemma tool_faults_become_failures_witness :
  exists r,
    completion (invoke (Disk "free" []) broken_shell no_flags []) = Returned r
    /\ success r = false
    /\ error r = Some "Disk command failed: Command failed: free -h".
Proof.
  destruct (tool_faults_become_failures (Disk "free" []) broken_shell no_flags [])
    as (r & Hr & Hfail).
  exists r. split; [exact Hr |].
  split; [apply Hfail; reflexivity |].
  vm_compute in Hr. injection Hr as <-. reflexivity.
Defined.

(** ** Behind and in front of the confirmation gate *)

(** Two records of one answer that disagree on [confirmed]. *)
Ltac clash_on_confirmed :=
  match goal with
  | H1 : confirmed ?x = true, H2 : confirmed ?y = false |- _ =>
      exfalso; apply diff_true_false; exact (eq_trans (eq_sym H1) H2)
  end.

Ltac find_prompt H :=
  cbn [In app emitted] in H;
  repeat (destruct H as [H | H]);
  first [ discriminate H | contradiction | injection H as <- <- ].

Lemma quiet_has_no_prompt evs opts answer :
  forallb (fun ev => negb (is_confirmation ev)) evs = true ->
  ~ In (EvPrompt opts answer) evs.
Proof.
  intros Hq Hin. rewrite forallb_forall in Hq. specialize (Hq _ Hin). discriminate Hq.
Qed.

Lemma systemctl_runCommand_covered command requiresConfirmation env fl past :
  bash_covered fl = true ->
  emitted (SystemctlTool.runCommand command requiresConfirmation env fl past)
  = [EvExec ("sudo " +:+ command) (Some 30000) (Some (1024 * 1024))
       (exec_answer env past ("sudo " +:+ command))].
Proof.
  unfold SystemctlTool.runCommand, bash_covered.
  destruct fl as [ff [] []]; cbn [flag_bashCommands flag_allOperations orb];
    try discriminate; intros _.
  all: run_m; cbn [app]; congruence.
Qed.

Lemma apt_runCommand_covered command requiresConfirmation env fl past :
  bash_covered fl = true ->
  emitted (AptTool.runCommand command requiresConfirmation env fl past)
  = [EvExec ("sudo " +:+ command) (Some 300000) (Some (1024 * 1024 * 10))
       (exec_answer env past ("sudo " +:+ command))].
Proof.
  unfold AptTool.runCommand, bash_covered.
  destruct fl as [ff [] []]; cbn [flag_bashCommands flag_allOperations orb];
    try discriminate; intros _.
  all: run_m; cbn [app]; congruence.
Qed.

Lemma systemctl_runCommand_rejected command requiresConfirmation env fl past opts answer :
  In (EvPrompt opts answer)
     (emitted (SystemctlTool.runCommand command requiresConfirmation env fl past)) ->
  confirmed answer = false ->
  SystemctlTool.runCommand command requiresConfirmation env fl past
  = MkOut (Returned (failure (Js.or_default (feedback answer)
                                "Systemctl command cancelled by user")))
          fl [EvRequestConfirmation opts BashOp; EvPrompt opts answer].
Proof.
  unfold SystemctlTool.runCommand.
  destruct fl as [ff [] []].
  all: run_m; intros Hin Hrej; find_prompt Hin; try clash_on_confirmed; reflexivity.
Qed.

Lemma apt_runCommand_rejected command requiresConfirmation env fl past opts answer :
  In (EvPrompt opts answer)
     (emitted (AptTool.runCommand command requiresConfirmation env fl past)) ->
  confirmed answer = false ->
  AptTool.runCommand command requiresConfirmation env fl past
  = MkOut (Returned (failure (Js.or_default (feedback answer)
                                "Apt command cancelled by user")))
          fl [EvRequestConfirmation opts BashOp; EvPrompt opts answer].
Proof.
  unfold AptTool.runCommand.
  destruct fl as [ff [] []].
  all: run_m; intros Hin Hrej; find_prompt Hin; try clash_on_confirmed; reflexivity.
Qed.

Lemma runCodeBody_creates_scratch verb args code language input env fl past :
  existsb (launches (CodeOp verb args))
          (emitted (CodeExecutionTool.runCodeBody code language input env fl past)) = true.
Proof.
  unfold CodeExecutionTool.runCodeBody.
  run_m; reflexivity.
Qed.

Lemma runCode_covered_launches verb args code language input env fl past :
  bash_covered fl = true ->
  Js.truthy code = true -> Js.truthy language = true ->
  docker_available env past = true ->
  existsb (launches (CodeOp verb args))
          (emitted (CodeExecutionTool.runCode code language input env fl past)) = true.
Proof.
  unfold CodeExecutionTool.runCode, bash_covered, docker_available.
  destruct code as [[|c0 code]|]; try discriminate.
  destruct language as [[|l0 language]|]; try discriminate.
  destruct fl as [ff [] []]; cbn [flag_bashCommands flag_allOperations orb];
    try discriminate; intros _ _ _.
  all: run_m; try discriminate; intros _.
  all: match goal with
       | Hbody : CodeExecutionTool.runCodeBody ?a ?b ?c ?e ?f ?p = _ |- _ =>
           pose proof (runCodeBody_creates_scratch verb args a b c e f p) as H;
           rewrite Hbody in H
       end.
  all: cbn [existsb launches orb emitted] in *; exact H.
Qed.

Lemma runCode_rejected verb args code language input env fl past opts answer :
  In (EvPrompt opts answer)
     (emitted (CodeExecutionTool.runCode code language input env fl past)) ->
  confirmed answer = false ->
  completion (CodeExecutionTool.runCode code language input env fl past)
  = Returned (failure (Js.or_default (feedback answer) "Code execution cancelled by user"))
  /\ flags_after (CodeExecutionTool.runCode code language input env fl past) = fl
  /\ existsb (launches (CodeOp verb args))
             (emitted (CodeExecutionTool.runCode code language input env fl past)) = false.
Proof.
  unfold CodeExecutionTool.runCode.
  destruct code as [[|c0 code]|]; try (intros []; fail).
  destruct language as [[|l0 language]|]; try (intros []; fail).
  destruct fl as [ff [] []].
  all: run_m; intros Hin Hrej.
  all: try match goal with
       | Hbody : CodeExecutionTool.runCodeBody ?a ?b ?c ?e ?f ?p = _ |- _ =>
           pose proof (runCodeBody_quiet a b c e f p) as [_ [_ Hq]];
           rewrite Hbody in Hq; cbn [emitted] in Hq;
           pose proof (quiet_has_no_prompt _ opts answer Hq) as Hno
       end.
  all: cbn [In app emitted] in Hin.
  all: repeat (destruct Hin as [Hin | Hin]); try discriminate Hin; try contradiction.
  all: injection Hin as <- <-; try clash_on_confirmed.
  all: split; [reflexivity | split; reflexivity].
Qed.

Ltac eval_dispatch :=
  cbn beta iota delta [String.eqb Ascii.eqb Bool.eqb andb].

Lemma same_command_launches op command timeout maxBuffer res rest :
  guarded_command op = Some command ->
  (forall verb args, op <> CodeOp verb args) ->
  existsb (launches op) (EvExec command timeout maxBuffer res :: rest) = true.
Proof.
  intros Hg Hop. cbn [existsb]. apply orb_true_intro. left.
  destruct op as [verb name | verb args | verb args].
  - cbn [launches]. rewrite Hg. apply String.eqb_refl.
  - cbn [launches]. rewrite Hg. apply String.eqb_refl.
  - exfalso. apply (Hop verb args). reflexivity.
Qed.

Lemma covered_operation_launches op env fl past :
  bash_covered fl = true ->
  reaches_gate op env past = true ->
  existsb (launches op) (emitted (perform op env fl past)) = true.
Proof.
  intros Hcov Hgate.
  destruct op as [verb name | verb args | verb args]; unfold perform;
    cbn [as_invocation invoke].
  - destruct name as [[|c s]|]; try discriminate Hgate.
    unfold SystemctlTool.execute.
    destruct verb; cbn [systemctl_verb]; eval_dispatch;
      unfold SystemctlTool.start, SystemctlTool.stop, SystemctlTool.restart,
        SystemctlTool.enable, SystemctlTool.disable;
      rewrite systemctl_runCommand_covered by exact Hcov;
      (apply same_command_launches; [reflexivity | discriminate]).
  - unfold reaches_gate in Hgate.
    unfold AptTool.execute.
    destruct verb; cbn [apt_verb]; eval_dispatch;
      unfold AptTool.install, AptTool.remove, AptTool.update, AptTool.upgrade;
      cbn [guarded_command] in Hgate |- *;
      try (destruct (args !! 0%nat) as [[|c s]|] eqn:Harg; try discriminate Hgate);
      rewrite apt_runCommand_covered by exact Hcov;
      (apply same_command_launches;
       [cbn [guarded_command]; rewrite ?Harg; reflexivity | discriminate]).
  - cbn [reaches_gate] in Hgate.
    apply andb_prop in Hgate as [Hgate Hdocker].
    apply andb_prop in Hgate as [Hcode Hlang].
    unfold CodeExecutionTool.execute.
    destruct verb; cbn [code_verb]; eval_dispatch.
    + apply runCode_covered_launches; assumption.
    + unfold CodeExecutionTool.testCode.
      apply runCode_covered_launches; assumption.
Qed.

(** C1.  When the session flag of the category ([bashCommands]) or the
    global [allOperations] flag is set, a mutating operation of systemctl,
    apt or code execution neither asks the confirmation service nor
    prompts the human, leaves the flags as they are, and, once its
    arguments are accepted, goes on to its guarded effect as if approved. *)
Theorem covered_operation_skips_confirmation (op : MutatingOperation) env fl past :
  bash_covered fl = true ->
  forallb (fun ev => negb (is_confirmation ev)) (emitted (perform op env fl past)) = true
  /\ flags_after (perform op env fl past) = fl
  /\ (reaches_gate op env past = true ->
      existsb (launches op) (emitted (perform op env fl past)) = true).
Proof.
  intros Hcov.
  destruct (invoke_contract (as_invocation op) env fl past) as [_ Hquiet].
  destruct (Hquiet Hcov) as [Hfl Hnone].
  split; [exact Hnone | split; [exact Hfl |]].
  intros Hgate. apply covered_operation_launches; assumption.
Qed.

(** [systemctl restart nginx] under the global flag. *)
Lemma covered_operation_skips_confirmation_witness :
  let op := SystemctlOp Restart (Some "nginx") in
  let fl := set_flag allOperations true no_flags in
  emitted (perform op obliging fl [])
  = [EvExec "sudo systemctl restart nginx" (Some 30000) (Some 1048576) (ExecResolved "ok" "")]
  /\ forallb (fun ev => negb (is_confirmation ev)) (emitted (perform op obliging fl [])) = true
  /\ existsb (launches op) (emitted (perform op obliging fl [])) = true.
Proof.
  cbv zeta.
  destruct (covered_operation_skips_confirmation
              (SystemctlOp Restart (Some "nginx")) obliging
              (set_flag allOperations true no_flags) [] eq_refl) as (Hquiet & _ & Hrun).
  split; [vm_compute; reflexivity | split; [exact Hquiet | apply Hrun; reflexivity]].
Defined.

Lemma rejected_operation op env fl past opts answer :
  In (EvPrompt opts answer) (emitted (perform op env fl past)) ->
  confirmed answer = false ->
  completion (perform op env fl past)
  = Returned (failure (Js.or_default (feedback answer) (cancellation_message op)))
  /\ flags_after (perform op env fl past) = fl
  /\ existsb (launches op) (emitted (perform op env fl past)) = false.
Proof.
  destruct op as [verb name | verb args | verb args]; unfold perform;
    cbn [as_invocation invoke cancellation_message].
  - unfold SystemctlTool.execute.
    destruct name as [[|c s]|]; try (intros []; fail).
    destruct verb; cbn [systemctl_verb]; eval_dispatch;
      unfold SystemctlTool.start, SystemctlTool.stop, SystemctlTool.restart,
        SystemctlTool.enable, SystemctlTool.disable;
      intros Hin Hrej;
      rewrite (systemctl_runCommand_rejected _ _ _ _ _ _ _ Hin Hrej);
      (split; [reflexivity | split; reflexivity]).
  - unfold AptTool.execute.
    destruct verb; cbn [apt_verb]; eval_dispatch;
      unfold AptTool.install, AptTool.remove, AptTool.update, AptTool.upgrade;
      try (destruct (args !! 0%nat) as [[|c s]|] eqn:Harg; try (intros []; fail));
      intros Hin Hrej;
      rewrite (apt_runCommand_rejected _ _ _ _ _ _ _ Hin Hrej);
      (split; [reflexivity | split; reflexivity]).
  - unfold CodeExecutionTool.execute.
    destruct verb; cbn [code_verb]; eval_dispatch.
    + apply runCode_rejected.
    + unfold CodeExecutionTool.testCode. apply runCode_rejected.
Qed.

(** ** Rejection and its feedback *)

(** C2, as stated, fails for the empty feedback.  In the dialog the human
    moves to "No, with feedback", opens the feedback line and submits it
    empty: the request is decided as rejected with feedback [""].  With
    that answer [systemctl stop nginx] reports its own cancellation text,
    not the (empty) feedback. *)
Lemma empty_feedback_is_replaced :
  let keys := ConfirmationDialog.named <$> ["down"; "down"; "down"; "return"; "return"] in
  let decided :=
    ConfirmationProvider.service
      (ConfirmationDialog.provider (ConfirmationDialog.press keys asked_to_stop_nginx)) in
  let o := perform (SystemctlOp Stop (Some "nginx")) (rejecting (Some "")) no_flags [] in
  Gate.log decided
  = [Surfaced stop_nginx;
     Decided stop_nginx {| confirmed := false; dontAskAgain := false; feedback := Some "" |}]
  /\ In (EvPrompt (request_options stop_nginx)
          {| confirmed := false; dontAskAgain := false; feedback := Some "" |})
        (emitted o)
  /\ exists r, completion o = Returned r
               /\ success r = false
               /\ error r = Some "Systemctl command cancelled by user"
               /\ error r <> Some "".
Proof.
  cbv zeta. split; [reflexivity | split].
  - right; left; reflexivity.
  - eexists. split; [reflexivity |].
    split; [reflexivity | split; [reflexivity | discriminate]].
Qed.

(** C2, amended.  When the human rejects the confirmation request of a
    mutating operation, the guarded effect is not performed, the flags are
    unchanged and the call returns a failure whose [error] is the feedback
    when one was given and is not empty, and the tool's cancellation text
    otherwise; in particular a non-empty feedback [f] is returned exactly. *)
Theorem rejection_returns_feedback (op : MutatingOperation) env fl past opts answer :
  In (EvPrompt opts answer) (emitted (perform op env fl past)) ->
  confirmed answer = false ->
  completion (perform op env fl past)
  = Returned (failure (Js.or_default (feedback answer) (cancellation_message op)))
  /\ existsb (launches op) (emitted (perform op env fl past)) = false
  /\ (forall f, feedback answer = Some f -> f <> "" ->
      completion (perform op env fl past) = Returned (failure f)).
Proof.
  intros Hin Hrej.
  destruct (rejected_operation op env fl past opts answer Hin Hrej) as (Hc & _ & Hnot).
  split; [exact Hc | split; [exact Hnot |]].
  intros f Hf Hne. rewrite Hc, Hf.
  destruct f; [contradiction | reflexivity].
Qed.

(** The scenario of the specification: rejected with feedback "not now". *)
Lemma rejection_returns_feedback_witness :
  let op := AptOp Install ["htop"] in
  let o := perform op (rejecting (Some "not now")) no_flags [] in
  completion o = Returned {| success := false; output := None;
                             error := Some "not now"; data := None |}
  /\ existsb (launches op) (emitted o) = false.
Proof.
  cbv zeta.
  destruct (rejection_returns_feedback (AptOp Install ["htop"])
              (rejecting (Some "not now")) no_flags []
              {| operation := "Run apt command"; filename := "apt install -y htop";
                 showVSCodeOpen := false;
                 content := Some "Command: sudo apt install -y htop" |}
              {| confirmed := false; dontAskAgain := false; feedback := Some "not now" |})
    as (_ & Hnot & Hexact).
  - right; left; reflexivity.
  - reflexivity.
  - split; [| exact Hnot].
    apply (Hexact "not now"); [reflexivity | discriminate].
Defined.

(** ** Headless runs *)

















(** ** The conversation history under streaming *)

Section History.

Import ChatProvider App.

Variable clock : nat -> Z.






End History.




(** ** Content deltas *)

Section Deltas.

Import ChatProvider App.

Variable clock : nat -> Z.

Lemma append_cons (x : ascii) (a b : string) : String x a +:+ b = String x (a +:+ b).
Proof. reflexivity. Qed.

Lemma append_assoc (a b c : string) : (a +:+ b) +:+ c = a +:+ (b +:+ c).
Proof.
  induction a as [| x a IH]; [reflexivity |].
  rewrite !append_cons, IH. reflexivity.
Qed.

Lemma append_empty_r (a : string) : a +:+ "" = a.
Proof.
  induction a as [| x a IH]; [reflexivity |].
  rewrite append_cons, IH. reflexivity.
Qed.

Lemma append_content_twice a b e :
  append_content b (append_content a e) = append_content (a +:+ b) e.
Proof.
  unfold append_content. cbn [Chat.type Chat.content Chat.timestamp Chat.isStreaming
                               Chat.toolCalls Chat.toolCall Chat.toolResult].
  rewrite append_assoc. reflexivity.
Qed.

Lemma append_content_streaming text e :
  is_streaming (append_content text e) = is_streaming e.
Proof. reflexivity. Qed.

Lemma updateLast_snoc updater h e : updateLast updater (h ++ [e]) = h ++ [updater e].
Proof.
  unfold updateLast. rewrite length_app. cbn [length].
  replace (length h + 1 - 1)%nat with (length h + 0)%nat by lia.
  rewrite lookup_app_r by lia.
  replace (length h + 0 - length h)%nat with 0%nat by lia. cbn [lookup list_lookup].
  rewrite insert_app_r. reflexivity.
Qed.

Lemma consume_cons chunk rest s :
  consume clock (chunk :: rest) s = consume clock rest (on_chunk clock chunk s).
Proof. reflexivity. Qed.

Lemma deltas_cons chunk rest : deltas (chunk :: rest) = deltas [chunk] ++ deltas rest.
Proof. unfold deltas. cbn [flat_map]. rewrite app_nil_r. reflexivity. Qed.

(** A plain chunk with no text changes neither the history nor the open
    entry. *)
Lemma on_chunk_plain_idle chunk s :
  plain chunk = true -> deltas [chunk] = [] ->
  history (chat (on_chunk clock chunk s)) = history (chat s)
  /\ streamingEntry (on_chunk clock chunk s) = streamingEntry s
  /\ dates (chat (on_chunk clock chunk s)) = dates (chat s).
Proof.
  unfold plain, deltas, on_chunk. cbn [flat_map].
  destruct (Chunk.type chunk); try discriminate; intros _.
  - destruct (Chunk.content chunk) as [[| c text] |]; try discriminate;
      intros _; repeat split.
  - intros _. destruct (Chunk.tokenCount chunk); repeat split.
Qed.

(** A non-empty delta, from its chunk. *)
Lemma delta_of_chunk chunk text :
  deltas [chunk] = [text] ->
  Chunk.type chunk = content_t /\ Chunk.content chunk = Some text /\ text <> "".
Proof.
  unfold deltas. cbn [flat_map].
  destruct (Chunk.type chunk); try discriminate.
  destruct (Chunk.content chunk) as [[| c t] |]; try discriminate.
  cbn [app]. intros [= <-]. repeat split. discriminate.
Qed.

Lemma deltas_one chunk : deltas [chunk] = [] \/ exists text, deltas [chunk] = [text].
Proof.
  unfold deltas. cbn [flat_map].
  destruct (Chunk.type chunk); try (left; reflexivity).
  destruct (Chunk.content chunk) as [[| c t] |]; try (left; reflexivity).
  right. eexists. reflexivity.
Qed.

(** A delta on an open last entry appends to it. *)
Lemma on_chunk_open chunk text s h e opened :
  deltas [chunk] = [text] ->
  streamingEntry s = Some opened ->
  history (chat s) = h ++ [e] ->
  is_streaming e = true ->
  history (chat (on_chunk clock chunk s)) = h ++ [append_content text e]
  /\ streamingEntry (on_chunk clock chunk s) = Some opened.
Proof.
  intros Hd Hopen Hh He.
  destruct (delta_of_chunk _ _ Hd) as (Hty & Hc & Hne).
  unfold on_chunk. rewrite Hty, Hc, Hopen.
  destruct text as [| c text]; [contradiction |].
  cbn [on_chat chat streamingEntry updateLastEntry setHistory history].
  rewrite Hh, updateLast_snoc, He. split; [reflexivity | exact Hopen].
Qed.

(** A delta with no open entry opens one at the end. *)
Lemma on_chunk_opens chunk text s :
  deltas [chunk] = [text] ->
  streamingEntry s = None ->
  history (chat (on_chunk clock chunk s))
  = history (chat s) ++ [streamed (clock (dates (chat s))) text]
  /\ streamingEntry (on_chunk clock chunk s) = Some (streamed (clock (dates (chat s))) text).
Proof.
  intros Hd Hnone.
  destruct (delta_of_chunk _ _ Hd) as (Hty & Hc & Hne).
  unfold on_chunk. rewrite Hty, Hc, Hnone.
  destruct text as [| c text]; [contradiction |].
  split; reflexivity.
Qed.

(** While an entry is open at the end of the history, plain chunks only
    append their text to it. *)
Lemma consume_open chunks s h e opened :
  forallb plain chunks = true ->
  streamingEntry s = Some opened ->
  history (chat s) = h ++ [e] ->
  is_streaming e = true ->
  history (chat (consume clock chunks s)) = h ++ [append_content (Js.concat (deltas chunks)) e].
Proof.
  revert s e. induction chunks as [| chunk rest IH]; intros s e Hplain Hopen Hh He.
  - cbn [consume fold_left deltas flat_map Js.concat fold_right].
    rewrite Hh. do 2 f_equal. unfold append_content.
    rewrite append_empty_r. destruct e; reflexivity.
  - cbn [forallb] in Hplain. apply andb_prop in Hplain as [Hchunk Hrest].
    rewrite consume_cons, deltas_cons.
    destruct (deltas_one chunk) as [Hnone | [text Htext]].
    + destruct (on_chunk_plain_idle chunk s Hchunk Hnone) as (Hsame & Hentry & _).
      rewrite Hnone. cbn [app].
      apply IH; [exact Hrest | congruence | congruence | exact He].
    + destruct (on_chunk_open chunk text s h e opened Htext Hopen Hh He) as [Hh' Hopen'].
      rewrite Htext. cbn [app Js.concat fold_right].
      rewrite (IH _ (append_content text e) Hrest Hopen' Hh' He).
      rewrite append_content_twice. reflexivity.
Qed.

(** From a state with no open entry, plain chunks open one entry at the
    first non-empty delta and keep appending to it. *)
Lemma consume_plain chunks s :
  forallb plain chunks = true ->
  streamingEntry s = None ->
  history (chat (consume clock chunks s))
  = history (chat s)
    ++ match deltas chunks with
       | [] => []
       | first :: more => [streamed (clock (dates (chat s))) (Js.concat (first :: more))]
       end.
Proof.
  revert s. induction chunks as [| chunk rest IH]; intros s Hplain Hnone.
  - cbn. symmetry. apply app_nil_r.
  - cbn [forallb] in Hplain. apply andb_prop in Hplain as [Hchunk Hrest].
    rewrite consume_cons, deltas_cons.
    destruct (deltas_one chunk) as [Hidle | [text Htext]].
    + destruct (on_chunk_plain_idle chunk s Hchunk Hidle) as (Hsame & Hentry & Hdates).
      rewrite Hidle. cbn [app].
      rewrite IH by congruence. rewrite Hsame, Hdates. reflexivity.
    + destruct (on_chunk_opens chunk text s Htext Hnone) as [Hh' Hopen'].
      rewrite Htext. cbn [app].
      rewrite (consume_open rest _ _ _ _ Hrest Hopen' Hh' eq_refl).
      reflexivity.
Qed.

Lemma count_assistant_app h1 h2 :
  count_assistant (h1 ++ h2) = (count_assistant h1 + count_assistant h2)%nat.
Proof. unfold count_assistant. rewrite List.filter_app, length_app. reflexivity. Qed.

Lemma count_assistant_fmap (f : ChatEntry -> ChatEntry) h :
  (forall e, is_assistant (f e) = is_assistant e) ->
  count_assistant (f <$> h) = count_assistant h.
Proof.
  intros Hf. unfold count_assistant.
  induction h as [| e h IH]; [reflexivity |].
  cbn [fmap list_fmap List.filter]. rewrite Hf.
  destruct (is_assistant e); cbn [length]; rewrite IH; reflexivity.
Qed.

Lemma add_tool_calls_count calls st :
  count_assistant (history (add_tool_calls clock calls st)) = count_assistant (history st).
Proof.
  revert st. induction calls as [| call rest IH]; intros st; cbn [add_tool_calls].
  - reflexivity.
  - rewrite IH. cbn [tick addEntry setHistory history].
    rewrite count_assistant_app. cbn. lia.
Qed.

(** A chunk that is no non-empty content delta creates no assistant
    entry. *)
Lemma on_chunk_count chunk s :
  deltas [chunk] = [] ->
  count_assistant (history (chat (on_chunk clock chunk s)))
  = count_assistant (history (chat s)).
Proof.
  unfold deltas, on_chunk. cbn [flat_map].
  destruct (Chunk.type chunk).
  - destruct (Chunk.content chunk) as [[| c text] |]; try reflexivity. discriminate.
  - intros _. destruct (Chunk.tokenCount chunk); reflexivity.
  - intros _. destruct (Chunk.toolCalls chunk) as [calls |]; [| reflexivity].
    cbn [chat]. rewrite add_tool_calls_count. cbn [setHistory history].
    apply count_assistant_fmap. intros e. destruct (is_streaming e); reflexivity.
  - intros _.
    destruct (Chunk.toolCall chunk) as [call |], (Chunk.toolResult chunk) as [result |];
      try reflexivity.
    cbn [chat setHistory history].
    apply count_assistant_fmap. intros e.
    destruct (is_streaming e); [reflexivity |].
    destruct (is_call_of call e) eqn:Hcall; [| reflexivity].
    unfold is_call_of in Hcall. unfold is_assistant. cbn [as_result Chat.type].
    destruct (Chat.type e); cbn in Hcall; try discriminate Hcall. reflexivity.
  - intros _. destruct (streamingEntry s); cbn [on_chat chat setIsStreaming setHistory history].
    + apply count_assistant_fmap. intros e. destruct (is_streaming e); reflexivity.
    + reflexivity.
Qed.

Lemma consume_count chunks s :
  deltas chunks = [] ->
  count_assistant (history (chat (consume clock chunks s)))
  = count_assistant (history (chat s)).
Proof.
  revert s. induction chunks as [| chunk rest IH]; intros s Hnone.
  - reflexivity.
  - rewrite deltas_cons in Hnone.
    apply app_eq_nil in Hnone as [Hchunk Hrest].
    rewrite consume_cons, (IH _ Hrest). apply on_chunk_count. exact Hchunk.
Qed.

End Deltas.

(** C9, as stated, fails: the two content chunks of this stream are
    separated by a tool round, and each opens an assistant entry of its
    own; no entry holds their concatenation. *)
Lemma content_after_tool_round_opens_second_entry :
  let chunks := [content_chunk "a"; tool_calls_chunk [call_ls];
                 tool_result_chunk call_ls (succeeded "a.txt"); content_chunk "b"] in
  let h := ChatProvider.history (App.chat (App.consume (fun n : nat => Z.of_nat n) chunks fresh)) in
  deltas chunks = ["a"; "b"]
  /\ count_assistant h = 2%nat
  /\ Chat.content <$> List.filter is_assistant h = ["a"; "b"].
Proof.
  cbv zeta. split; [reflexivity | split; reflexivity].
Qed.

(** C9, amended.  Consumed from a state with no open entry, a stream of
    content and token-count chunks only (no tool-calls, tool-result or
    done chunk between its deltas) whose non-empty content texts are
    [c1 .. cn], [n >= 1], appends exactly one entry, an assistant entry
    opened by the first of them, and leaves it holding [c1 ++ .. ++ cn];
    with no non-empty content text it appends nothing.  And whatever its
    chunks, a stream with no non-empty content text leaves the number of
    assistant entries as it was. *)
Theorem content_deltas_build_one_entry (clock : nat -> Z) (chunks : list StreamingChunk)
    (s : App.Consumer) :
  App.streamingEntry s = None ->
  (forallb plain chunks = true ->
   ChatProvider.history (App.chat (App.consume clock chunks s))
   = ChatProvider.history (App.chat s)
     ++ match deltas chunks with
        | [] => []
        | first :: more =>
            [streamed (clock (ChatProvider.dates (App.chat s))) (Js.concat (first :: more))]
        end)
  /\ (deltas chunks = [] ->
      count_assistant (ChatProvider.history (App.chat (App.consume clock chunks s)))
      = count_assistant (ChatProvider.history (App.chat s))).
Proof.
  intros Hnone. split.
  - intros Hplain. apply consume_plain; assumption.
  - apply consume_count.
Qed.

(** Three deltas with a token count in between. *)
Lemma content_deltas_build_one_entry_witness :
  let token_chunk :=
    {| Chunk.type := token_count_t; Chunk.content := None; Chunk.tokenCount := Some 12;
       Chunk.toolCalls := None; Chunk.toolCall := None; Chunk.toolResult := None |} in
  ChatProvider.history
    (App.chat (App.consume (fun n : nat => Z.of_nat n)
                 [content_chunk "Hel"; token_chunk; content_chunk "lo"; content_chunk "!"]
                 fresh))
  = [streamed 0 "Hello!"].
Proof.
  cbv zeta.
  destruct (content_deltas_build_one_entry (fun n : nat => Z.of_nat n)
              [content_chunk "Hel";
               {| Chunk.type := token_count_t; Chunk.content := None;
                  Chunk.tokenCount := Some 12; Chunk.toolCalls := None;
                  Chunk.toolCall := None; Chunk.toolResult := None |};
               content_chunk "lo"; content_chunk "!"]
              fresh eq_refl) as [Hone _].
  rewrite (Hone eq_refl). reflexivity.
Defined.

(** ** Names of protocol tools *)

Section Names.

Import McpNames.


Lemma length_append (a b : string) :
  String.length (a +:+ b) = (String.length a + String.length b)%nat.
Proof.
  induction a as [| x a IH]; [reflexivity |].
  rewrite append_cons. cbn [String.length]. rewrite IH. reflexivity.
Qed.


Lemma startsWith_append (p t : string) : Js.startsWith p (p +:+ t) = true.
Proof.
  induction p as [| x p IH]; [reflexivity |].
  rewrite append_cons. cbn [Js.startsWith]. rewrite Ascii.eqb_refl, IH. reflexivity.
Qed.















End Names.




(** ** One confirmation at a time *)

Section OneAtATime.

Import ConfirmationProvider.

Lemma open_prompts_snoc log ev n :
  open_prompts (log ++ [ev]) n
  = match ev with
    | Surfaced _ => S (open_prompts log n)
    | Decided _ _ => (open_prompts log n - 1)%nat
    | AutoApproved _ => open_prompts log n
    end.
Proof.
  revert n. induction log as [| e log IH]; intros n.
  - destruct ev; reflexivity.
  - destruct e; cbn [app open_prompts]; apply IH.
Qed.

(** The dialog shows the outstanding request and nothing else, and the
    prompts surfaced and not yet decided are that one request. *)
Definition in_step (st : State) : Prop :=
  options (signals st) = request_options <$> Gate.pending (service st)
  /\ open_prompts (Gate.log (service st)) 0
     = match Gate.pending (service st) with Some _ => 1%nat | None => 0%nat end.

Lemma act_in_step st a : in_step st -> in_step (act st a).
Proof.
  intros [Hopts Hlog]. destruct st as [g s]. cbn [service signals] in *.
  destruct a as [r | | d | fb | |]; cbn [act service signals].
  - (* Ask *)
    unfold Gate.requestConfirmation.
    destruct (ConfirmationService.covers (Gate.sessionFlags g) (request_type r)) eqn:Hcov.
    + unfold Gate.take_up. rewrite Hcov.
      split; cbn [service signals deliver Gate.pending Gate.log]; [exact Hopts |].
      rewrite open_prompts_snoc. exact Hlog.
    + destruct (Gate.pending g) as [p |] eqn:Hp.
      * split; cbn [service signals deliver Gate.pending Gate.log]; rewrite ?Hp; assumption.
      * destruct (Gate.waiting g) as [| w ws] eqn:Hw.
        -- unfold Gate.take_up. rewrite Hcov.
           split; cbn [service signals deliver handleConfirmationRequest setOptions options
                         Gate.pending Gate.log]; [reflexivity |].
           rewrite open_prompts_snoc, Hlog. reflexivity.
        -- split; cbn [service signals deliver Gate.pending Gate.log]; rewrite ?Hp; assumption.
  - (* Resume *)
    unfold Gate.resume.
    destruct (Gate.pending g) as [p |] eqn:Hp.
    + split; cbn [service signals deliver]; rewrite ?Hp; assumption.
    + destruct (Gate.waiting g) as [| w ws] eqn:Hw.
      * split; cbn [service signals deliver]; rewrite ?Hp; assumption.
      * unfold Gate.take_up. cbn [Gate.sessionFlags Gate.pending Gate.waiting Gate.log].
        destruct (ConfirmationService.covers (Gate.sessionFlags g) (request_type w)).
        -- split; cbn [service signals deliver Gate.pending Gate.log]; [exact Hopts |].
           rewrite open_prompts_snoc. exact Hlog.
        -- split; cbn [service signals deliver handleConfirmationRequest setOptions options
                         Gate.pending Gate.log]; [reflexivity |].
           rewrite open_prompts_snoc, Hlog. reflexivity.
  - (* Confirm *)
    unfold confirm, Gate.confirmOperation, Gate.decide. cbn [service signals].
    destruct (Gate.pending g) as [p |] eqn:Hp.
    + split; cbn [service signals setOptions options Gate.pending Gate.log]; [reflexivity |].
      rewrite open_prompts_snoc, Hlog. reflexivity.
    + split; cbn [service signals setOptions options]; rewrite ?Hp; [reflexivity | exact Hlog].
  - (* Reject *)
    unfold reject, Gate.rejectOperation, Gate.decide. cbn [service signals].
    destruct (Gate.pending g) as [p |] eqn:Hp.
    + split; cbn [service signals setOptions options Gate.pending Gate.log]; [reflexivity |].
      rewrite open_prompts_snoc, Hlog. reflexivity.
    + split; cbn [service signals setOptions options]; rewrite ?Hp; [reflexivity | exact Hlog].
  - (* ToggleAutoEdit *)
    unfold toggleAutoEdit. cbn [service signals].
    destruct (negb (autoEditEnabled s));
      split; cbn [service signals setAutoEditEnabled options Gate.setSessionFlag
                    Gate.resetSession Gate.pending Gate.log]; assumption.
  - (* Clear *)
    split; cbn [service signals Gate.resetSession Gate.pending Gate.log]; assumption.
Qed.

Lemma fold_in_step actions st : in_step st -> in_step (fold_left act actions st).
Proof.
  revert st. induction actions as [| a rest IH]; intros st H; cbn [fold_left].
  - exact H.
  - apply IH, act_in_step, H.
Qed.

Lemma after_in_step actions : in_step (after actions).
Proof. apply fold_in_step. split; reflexivity. Qed.

(** A request that arrives while another is outstanding is suspended:
    nothing is surfaced and the dialog is not touched. *)
Lemma ask_while_pending st r p :
  Gate.pending (service st) = Some p ->
  ConfirmationService.covers (Gate.sessionFlags (service st)) (request_type r) = false ->
  Gate.pending (service (act st (Ask r))) = Some p
  /\ options (signals (act st (Ask r))) = options (signals st)
  /\ Gate.waiting (service (act st (Ask r))) = Gate.waiting (service st) ++ [r]
  /\ Gate.log (service (act st (Ask r))) = Gate.log (service st).
Proof.
  intros Hp Hcov. destruct st as [g s]. cbn [service signals] in *.
  cbn [act service signals]. unfold Gate.requestConfirmation. rewrite Hcov, Hp.
  cbn [service signals deliver Gate.pending Gate.waiting Gate.log]. auto.
Qed.

(** The outstanding request leaves only by a decision of the human. *)
Lemma pending_until_decided st a p :
  Gate.pending (service st) = Some p ->
  Gate.pending (service (act st a)) = Some p
  \/ (Gate.pending (service (act st a)) = None
      /\ exists d, Gate.log (service (act st a)) = Gate.log (service st) ++ [Decided p d]).
Proof.
  intros Hp. destruct st as [g s]. cbn [service signals] in *.
  destruct a as [r | | d | fb | |]; cbn [act service signals].
  - left. unfold Gate.requestConfirmation, Gate.take_up.
    destruct (ConfirmationService.covers (Gate.sessionFlags g) (request_type r));
      rewrite ?Hp; cbn [service Gate.pending]; first [exact Hp | reflexivity].
  - left. unfold Gate.resume. rewrite Hp. cbn [service]. exact Hp.
  - right. unfold confirm, Gate.confirmOperation, Gate.decide. cbn [service]. rewrite Hp.
    split; [reflexivity | eexists; reflexivity].
  - right. unfold reject, Gate.rejectOperation, Gate.decide. cbn [service]. rewrite Hp.
    split; [reflexivity | eexists; reflexivity].
  - left. unfold toggleAutoEdit. cbn [service signals].
    destruct (negb (autoEditEnabled s));
      cbn [Gate.setSessionFlag Gate.resetSession Gate.pending]; exact Hp.
  - left. cbn [Gate.resetSession Gate.pending]. exact Hp.
Qed.

End OneAtATime.

(** The listener by itself does not queue: a second event delivered while
    a request is shown replaces it.  Serialising the requests is the
    service's part. *)
Lemma listener_shows_latest first second s :
  ConfirmationProvider.options
    (ConfirmationProvider.handleConfirmationRequest second
       (ConfirmationProvider.handleConfirmationRequest first s))
  = Some second.
Proof. reflexivity. Qed.

(** The two descriptions of the service agree on a single caller: the
    tool-side [requestConfirmation], which takes the human's answer from
    the environment, and the gate taken through one request and its
    decision. *)
Lemma service_agrees_with_gate r d env fl past :
  human_answer env (past ++ [EvRequestConfirmation (request_options r) (request_type r)])
    (request_options r) = d ->
  let g := {| Gate.sessionFlags := fl; Gate.pending := None; Gate.waiting := [];
              Gate.log := [] |} in
  let o := ConfirmationService.requestConfirmation (request_options r) (request_type r)
             env fl past in
  let g' := Gate.decide d (fst (Gate.requestConfirmation r g)) in
  Gate.sessionFlags g' = flags_after o
  /\ ((Gate.log g' = [AutoApproved r]
       /\ completion o = Returned Gate.approved
       /\ existsb is_prompt (emitted o) = false)
      \/ (Gate.log g' = [Surfaced r; Decided r d]
          /\ completion o = Returned d
          /\ In (EvPrompt (request_options r) d) (emitted o))).
Proof.
  intros Hd. cbv zeta.
  unfold Gate.requestConfirmation, Gate.take_up, ConfirmationService.requestConfirmation.
  cbn [Gate.sessionFlags Gate.pending Gate.waiting Gate.log].
  destruct (ConfirmationService.covers fl (request_type r)); cbn [fst].
  - split; [reflexivity | left]. repeat split.
  - rewrite Hd. unfold Gate.decide.
    cbn [Gate.sessionFlags Gate.pending Gate.waiting Gate.log flags_after completion emitted].
    split; [reflexivity | right].
    split; [reflexivity | split; [reflexivity | right; left; reflexivity]].
Qed.

(** C4.  Whatever the tools and the human do, in whatever order, at most
    one confirmation is outstanding: the prompts surfaced and not yet
    decided number at most one, and the dialog's state holds exactly the
    outstanding request (or nothing).  A request made while one is
    outstanding is suspended behind it without touching the dialog, and
    the outstanding request gives way only to a decision of the human. *)
Theorem one_confirmation_at_a_time (actions : list Action) :
  let st := after actions in
  (open_prompts (Gate.log (ConfirmationProvider.service st)) 0 <= 1)%nat
  /\ ConfirmationProvider.options (ConfirmationProvider.signals st)
     = request_options <$> Gate.pending (ConfirmationProvider.service st)
  /\ (forall r p,
        Gate.pending (ConfirmationProvider.service st) = Some p ->
        ConfirmationService.covers (Gate.sessionFlags (ConfirmationProvider.service st))
          (request_type r) = false ->
        Gate.pending (ConfirmationProvider.service (act st (Ask r))) = Some p
        /\ ConfirmationProvider.options (ConfirmationProvider.signals (act st (Ask r)))
           = ConfirmationProvider.options (ConfirmationProvider.signals st)
        /\ Gate.waiting (ConfirmationProvider.service (act st (Ask r)))
           = Gate.waiting (ConfirmationProvider.service st) ++ [r]
        /\ Gate.log (ConfirmationProvider.service (act st (Ask r)))
           = Gate.log (ConfirmationProvider.service st))
  /\ (forall a p,
        Gate.pending (ConfirmationProvider.service st) = Some p ->
        Gate.pending (ConfirmationProvider.service (act st a)) = Some p
        \/ (Gate.pending (ConfirmationProvider.service (act st a)) = None
            /\ exists d, Gate.log (ConfirmationProvider.service (act st a))
                         = Gate.log (ConfirmationProvider.service st) ++ [Decided p d])).
Proof.
  cbv zeta. destruct (after_in_step actions) as [Hopts Hlog].
  split; [| split; [exact Hopts | split]].
  - rewrite Hlog. destruct (Gate.pending _); lia.
  - intros r p. apply ask_while_pending.
  - intros a p. apply pending_until_decided.
Qed.

(** ** The round limit *)

Section Rounds.

Import Orchestrator.

Variable model : list ChatEntry -> ModelReply.
Variable dispatch : GrokToolCall -> ToolResult.

Lemma loop_bounded budget counter history :
  let turn := loop model dispatch budget counter history in
  history `prefix_of` entries turn
  /\ (rounds turn <= counter + budget + 1)%nat
  /\ (outcome turn = RoundLimit <-> rounds turn = (counter + budget + 1)%nat).
Proof.
  cbv zeta. revert counter history.
  induction budget as [| budget IH]; intros counter history; cbn [loop].
  - destruct (model history) as [text | text calls | e]; cbn [entries rounds outcome].
    + split; [apply prefix_app_r; reflexivity | split; [lia | split; [discriminate | lia]]].
    + split; [apply prefix_app_r; reflexivity | split; [lia | split; [lia | reflexivity]]].
    + split; [apply prefix_app_r; reflexivity | split; [lia | split; [discriminate | lia]]].
  - destruct (model history) as [text | text calls | e]; cbn [entries rounds outcome].
    + split; [apply prefix_app_r; reflexivity | split; [lia | split; [discriminate | lia]]].
    + destruct (IH (S counter)
                  (history ++ [entry assistant text (Some calls) None None]
                           ++ tool_round dispatch calls)) as (Hpre & Hle & Hiff).
      split; [| split].
      * etransitivity; [| exact Hpre]. apply prefix_app_r. reflexivity.
      * lia.
      * rewrite Hiff. lia.
    + split; [apply prefix_app_r; reflexivity | split; [lia | split; [discriminate | lia]]].
Qed.

(** A model that asks for tools on every call runs into the limit. *)
Lemma loop_insatiable budget counter history :
  (forall h, exists text calls, model h = ToolCalls text calls) ->
  outcome (loop model dispatch budget counter history) = RoundLimit.
Proof.
  intros Hmodel. revert counter history.
  induction budget as [| budget IH]; intros counter history; cbn [loop];
    destruct (Hmodel history) as (text & calls & ->).
  - reflexivity.
  - apply IH.
Qed.

End Rounds.

(** C8.  The maximum number of tool rounds is the configured one, 400 when
    the command line gives none (or gives 0 or no number).  Whatever the
    model answers, a turn ends: the round counter never passes the
    maximum by more than one, the turn ends with the round-limit outcome
    exactly when the counter has passed the maximum, and the entries the
    conversation had before the turn are still there, unchanged, at the
    front of the result. *)
Theorem round_limit_ends_the_turn (model : list ChatEntry -> Orchestrator.ModelReply)
    (dispatch : GrokToolCall -> ToolResult) (given : option CliNumber)
    (history : list ChatEntry) (message : string) :
  let maxToolRounds := Cli.maxToolRounds given in
  let turn := Orchestrator.processUserMessage model dispatch maxToolRounds history message in
  Cli.maxToolRounds None = 400
  /\ history `prefix_of` Orchestrator.entries turn
  /\ (Orchestrator.rounds turn <= Z.to_nat maxToolRounds + 1)%nat
  /\ (Orchestrator.outcome turn = Orchestrator.RoundLimit
      <-> (Orchestrator.rounds turn > Z.to_nat maxToolRounds)%nat)
  /\ ((forall h, exists text calls, model h = Orchestrator.ToolCalls text calls) ->
      Orchestrator.outcome turn = Orchestrator.RoundLimit).
Proof.
  cbv zeta. unfold Orchestrator.processUserMessage.
  destruct (loop_bounded model dispatch (Z.to_nat (Cli.maxToolRounds given)) 0
              (history ++ [Orchestrator.entry user message None None None]))
    as (Hpre & Hle & Hiff).
  split; [reflexivity | split; [| split; [| split]]].
  - etransitivity; [| exact Hpre]. apply prefix_app_r. reflexivity.
  - cbn [Nat.add] in Hle. lia.
  - rewrite Hiff. cbn [Nat.add] in *. lia.
  - apply loop_insatiable.
Qed.

(** With [--max-tool-rounds 2] and a model that never stops asking for
    [ls], the turn ends at the third round with the round-limit outcome. *)
Lemma round_limit_ends_the_turn_witness :
  let model := fun _ : list ChatEntry => Orchestrator.ToolCalls "" [call_ls] in
  let dispatch := fun _ : GrokToolCall => succeeded "a.txt" in
  let turn := Orchestrator.processUserMessage model dispatch
                (Cli.maxToolRounds (Some (Num 2))) [] "list files" in
  Orchestrator.outcome turn = Orchestrator.RoundLimit
  /\ Orchestrator.rounds turn = 3%nat
  /\ length (Orchestrator.entries turn) = 7%nat.
Proof.
  cbv zeta.
  destruct (round_limit_ends_the_turn
              (fun _ : list ChatEntry => Orchestrator.ToolCalls "" [call_ls])
              (fun _ : GrokToolCall => succeeded "a.txt")
              (Some (Num 2)) [] "list files") as (_ & _ & _ & _ & Hlimit).
  split; [| split; reflexivity].
  apply Hlimit. intros h. eexists _, _. reflexivity.
Defined.

(** Two tools ask in a row: the second waits until the human has answered
    the first, and only then is it shown. *)
Lemma one_confirmation_at_a_time_witness :
  let opts := fun name => {| operation := "Run systemctl command"; filename := name;
                             showVSCodeOpen := false; content := None |} in
  let first := {| caller := 1%nat; request_options := opts "systemctl stop nginx";
                  request_type := BashOp |} in
  let second := {| caller := 2%nat; request_options := opts "systemctl stop redis";
                   request_type := BashOp |} in
  let st := after [Ask first] in
  ConfirmationProvider.options (ConfirmationProvider.signals (act st (Ask second)))
  = Some (opts "systemctl stop nginx")
  /\ Gate.waiting (ConfirmationProvider.service (act st (Ask second))) = [second]
  /\ ConfirmationProvider.options
       (ConfirmationProvider.signals (after [Ask first; Ask second; Confirm false; Resume]))
     = Some (opts "systemctl stop redis").
Proof.
  cbv zeta.
  pose (opts := fun name => {| operation := "Run systemctl command"; filename := name;
                               showVSCodeOpen := false; content := None |}).
  pose (first := {| caller := 1%nat; request_options := opts "systemctl stop nginx";
                    request_type := BashOp |}).
  pose (second := {| caller := 2%nat; request_options := opts "systemctl stop redis";
                     request_type := BashOp |}).
  destruct (one_confirmation_at_a_time [Ask first]) as (_ & _ & Hwait & _).
  destruct (Hwait second first eq_refl eq_refl) as (_ & Hsame & Hqueue & _).
  split; [exact (eq_trans Hsame eq_refl) | split; [exact Hqueue | reflexivity]].
Defined.

(** * More of the sources: what the tools do to the system *)

(** ** Calls that only read *)

Ltac solve_unasked := split; [reflexivity | eval_events; reflexivity].

(** Case analysis on the operation name, one case per name the [switch]
    compares it with and one for the names it does not know. *)
Ltac dispatch_exactly :=
  repeat match goal with
         | |- context [String.eqb ?op ?name] =>
             is_var op;
             let E := fresh "E" in
             destruct (String.eqb op name) eqn:E;
             [ apply String.eqb_eq in E; subst op;
               cbn [String.eqb Ascii.eqb Bool.eqb andb orb negb existsb]
             | ]
         end.

Lemma systemctl_read_unasked command env fl past :
  unasked fl (SystemctlTool.runCommand command false env fl past).
Proof. unfold SystemctlTool.runCommand, unasked. run_m; solve_unasked. Qed.

Lemma apt_read_unasked command env fl past :
  unasked fl (AptTool.runCommand command false env fl past).
Proof. unfold AptTool.runCommand, unasked. run_m; solve_unasked. Qed.

Lemma disk_runCommand_unasked command env fl past :
  unasked fl (DiskTool.runCommand command env fl past).
Proof. unfold DiskTool.runCommand, unasked. run_m; solve_unasked. Qed.

Lemma network_runCommand_unasked command env fl past :
  unasked fl (NetworkTool.runCommand command env fl past).
Proof. unfold NetworkTool.runCommand, unasked. run_m; solve_unasked. Qed.

Lemma speedTest_unasked env fl past : unasked fl (NetworkTool.speedTest env fl past).
Proof.
  unfold NetworkTool.speedTest, NetworkTool.runCommand, unasked. run_m; solve_unasked.
Qed.

Lemma ret_unasked {A} (a : A) env fl past : unasked fl (ret a env fl past).
Proof. split; reflexivity. Qed.

(** A pure step after an unasked one. *)
Lemma then_ret_unasked {A B} (m : M A) (f : A -> B) env fl past :
  unasked fl (m env fl past) -> unasked fl ((a <- m ;; ret (f a)) env fl past).
Proof.
  intros [Hfl Hev]. unfold bind, ret.
  destruct (m env fl past) as [[a | e | code] fl1 ev1];
    cbn [flags_after emitted] in *; rewrite ?app_nil_r; split; assumption.
Qed.

(** X1.  The calls that only read ([systemctl status], [is-active] and
    [is-enabled], [apt search] and [show], every [disk] and [network]
    operation) never consult the confirmation service and leave the
    session flags as they were, whatever the flags are. *)
Theorem read_only_operations_never_ask (call : Invocation) env fl past :
  read_only call = true ->
  flags_after (invoke call env fl past) = fl
  /\ forallb (fun ev => negb (is_confirmation ev)) (emitted (invoke call env fl past)) = true.
Proof.
  change (read_only call = true -> unasked fl (invoke call env fl past)).
  destruct call as [operation serviceName | operation args | operation args
                   | operation args | operation args];
    cbn [read_only invoke]; try discriminate.
  - unfold SystemctlTool.execute, SystemctlTool.status, SystemctlTool.isActive,
      SystemctlTool.isEnabled.
    destruct serviceName as [[| c s] |]; try (intros _; apply ret_unasked).
    dispatch_exactly; cbn [orb]; try discriminate; intros _;
      first [ apply systemctl_read_unasked
            | apply then_ret_unasked, systemctl_read_unasked ].
  - unfold AptTool.execute, AptTool.search, AptTool.show.
    dispatch_exactly; cbn [orb]; try discriminate; intros _;
      destruct (args !! 0%nat) as [[| c s] |];
      first [ apply apt_read_unasked | apply ret_unasked ].
  - intros _.
    unfold DiskTool.execute, DiskTool.usage, DiskTool.free, DiskTool.diskUsage,
      DiskTool.findLargeFiles, DiskTool.cleanupSuggestions.
    dispatch_on_operation; first [ apply disk_runCommand_unasked | apply ret_unasked ].
  - intros _.
    unfold NetworkTool.execute, NetworkTool.ping, NetworkTool.traceroute,
      NetworkTool.interfaces, NetworkTool.connections, NetworkTool.dnsLookup.
    dispatch_on_operation;
      try destruct (args !! 0%nat) as [[| c s] |];
      first [ apply network_runCommand_unasked | apply speedTest_unasked
            | apply ret_unasked ].
Qed.

(** With no flag set, [systemctl status] runs at once. *)
Lemma read_only_operations_never_ask_witness :
  let o := invoke (Systemctl "status" (Some "nginx")) obliging no_flags [] in
  read_only (Systemctl "status" (Some "nginx")) = true
  /\ flags_after o = no_flags
  /\ forallb (fun ev => negb (is_confirmation ev)) (emitted o) = true.
Proof.
  split; [reflexivity |].
  apply (read_only_operations_never_ask (Systemctl "status" (Some "nginx"))
           obliging no_flags []).
  reflexivity.
Defined.

(** ** Calls that are turned down *)


Lemma try_catch_nonempty {A} (body : M A) handler env fl past :
  emitted (body env fl past) <> [] -> emitted (try_catch body handler env fl past) <> [].
Proof.
  unfold try_catch. destruct (body env fl past) as [[a | e | code] fl1 ev1];
    cbn [emitted]; try (intros H; exact H).
  destruct (handler e env fl1 (past ++ ev1)) as [c fl2 ev2]; cbn [emitted].
  destruct ev1; [contradiction | discriminate].
Qed.









(** ** Events of a computation, piece by piece *)

Lemma confined_ret {A} P (a : A) : confined P (ret a).
Proof. intros env fl past. reflexivity. Qed.

Lemma confined_bind {A B} P (m : M A) (k : A -> M B) :
  confined P m -> (forall a, confined P (k a)) -> confined P (bind m k).
Proof.
  intros Hm Hk env fl past. unfold bind. specialize (Hm env fl past).
  destruct (m env fl past) as [[a | e | code] fl1 ev1]; cbn [emitted] in *; try exact Hm.
  specialize (Hk a env fl1 (past ++ ev1)).
  destruct (k a env fl1 (past ++ ev1)) as [c fl2 ev2]; cbn [emitted] in *.
  rewrite forallb_app, Hm, Hk. reflexivity.
Qed.

Lemma confined_try_catch {A} P (body : M A) handler :
  confined P body -> (forall e, confined P (handler e)) -> confined P (try_catch body handler).
Proof.
  intros Hm Hk env fl past. unfold try_catch. specialize (Hm env fl past).
  destruct (body env fl past) as [[a | e | code] fl1 ev1]; cbn [emitted] in *; try exact Hm.
  specialize (Hk e env fl1 (past ++ ev1)).
  destruct (handler e env fl1 (past ++ ev1)) as [c fl2 ev2]; cbn [emitted] in *.
  rewrite forallb_app, Hm, Hk. reflexivity.
Qed.

Lemma confined_try_finally {A} P (body : M A) fin :
  confined P body -> confined P fin -> confined P (try_finally body fin).
Proof.
  intros Hm Hf env fl past. unfold try_finally. specialize (Hm env fl past).
  destruct (body env fl past) as [[a | e | code] fl1 ev1]; cbn [emitted] in *;
    try exact Hm;
    specialize (Hf env fl1 (past ++ ev1));
    destruct (fin env fl1 (past ++ ev1)) as [[u | e' | code'] fl2 ev2]; cbn [emitted] in *;
    rewrite forallb_app, Hm, Hf; reflexivity.
Qed.

Lemma confined_execAsync P command timeout maxBuffer :
  (forall res, P (EvExec command timeout maxBuffer res) = true) ->
  confined P (execAsync command timeout maxBuffer).
Proof. intros H env fl past. unfold execAsync. cbn [emitted forallb]. rewrite H. reflexivity. Qed.

Lemma confined_emit P ev : P ev = true -> confined P (emit ev).
Proof. intros H env fl past. unfold emit. cbn [emitted forallb]. rewrite H. reflexivity. Qed.

Lemma confined_mkdtemp P prefix :
  (forall res, P (EvMkdtemp prefix res) = true) -> confined P (mkdtemp prefix).
Proof. intros H env fl past. unfold mkdtemp. cbn [emitted forallb]. rewrite H. reflexivity. Qed.

Lemma confined_writeFile P path contents :
  (forall res, P (EvWriteFile path contents res) = true) -> confined P (writeFile path contents).
Proof. intros H env fl past. unfold writeFile. cbn [emitted forallb]. rewrite H. reflexivity. Qed.

Lemma confined_requestConfirmation P opts ty :
  P (EvRequestConfirmation opts ty) = true ->
  (forall answer, P (EvPrompt opts answer) = true) ->
  confined P (ConfirmationService.requestConfirmation opts ty).
Proof.
  intros Hreq Hprompt env fl past. unfold ConfirmationService.requestConfirmation.
  destruct (ConfirmationService.covers fl ty); cbn [emitted forallb];
    rewrite Hreq, ?Hprompt; reflexivity.
Qed.

Lemma confined_silent_step {A} P (m : M A) :
  (forall env fl past, emitted (m env fl past) = []) -> confined P m.
Proof. intros H env fl past. rewrite H. reflexivity. Qed.

(** One step of a proof that the events of a computation are confined:
    the combinators by their lemmas, the branches by cases. *)
Ltac confined_step :=
  first [ apply confined_ret
        | apply confined_bind; [| intros ?]
        | apply confined_try_catch; [| intros ?]
        | apply confined_try_finally
        | apply confined_silent_step; reflexivity
        | match goal with
          | |- confined _ (if ?b then _ else _) => destruct b
          | |- confined _ (match ?x with _ => _ end) => destruct x
          | |- confined _ (let '(_, _) := ?x in _) => destruct x
          end ].

(** ** Code runs only in an isolated container *)

Lemma startsWith_app_l (p a b : string) :
  Js.startsWith p a = true -> Js.startsWith p (a +:+ b) = true.
Proof.
  revert a. induction p as [| x p IH]; intros a H; [reflexivity |].
  destruct a as [| y a]; [discriminate H |].
  rewrite append_cons. cbn [Js.startsWith] in *.
  apply andb_prop in H as [-> H]. rewrite (IH _ H). reflexivity.
Qed.

Lemma includes_here (sub s : string) : Js.startsWith sub s = true -> Js.includes sub s = true.
Proof. intros H. destruct s; cbn [Js.includes]; rewrite H; reflexivity. Qed.

Lemma includes_app_r (sub a b : string) :
  Js.includes sub b = true -> Js.includes sub (a +:+ b) = true.
Proof.
  intros H. induction a as [| x a IH]; [exact H |].
  rewrite append_cons. cbn [Js.includes]. rewrite IH. apply orb_true_r.
Qed.

Lemma includes_app_l (sub a b : string) :
  Js.includes sub a = true -> Js.includes sub (a +:+ b) = true.
Proof.
  induction a as [| x a IH]; intros H.
  - cbn [Js.includes] in H. rewrite orb_false_r in H.
    apply includes_here. destruct sub; [reflexivity | discriminate H].
  - rewrite append_cons. cbn [Js.includes] in *.
    apply orb_prop in H as [H | H].
    + rewrite <- append_cons, (startsWith_app_l _ _ _ H). reflexivity.
    + rewrite (IH H). apply orb_true_r.
Qed.

Lemma isolated_buildDockerCommand image name tempDir runCommand inputPath :
  isolated (CodeExecutionTool.buildDockerCommand image ("grok-exec-" +:+ name) tempDir
              runCommand inputPath) = true.
Proof.
  unfold isolated. apply andb_true_intro. split.
  - destruct inputPath as [[| c p] |]; reflexivity.
  - unfold CodeExecutionTool.buildDockerCommand.
    destruct inputPath as [[| c p] |];
      apply includes_app_l;
      do 6 apply includes_app_r;
      apply includes_here, startsWith_append.
Qed.

Ltac confined_effect :=
  first [ apply confined_execAsync; intros ?
        | apply confined_mkdtemp; intros ?
        | apply confined_writeFile; intros ?
        | apply confined_requestConfirmation; [| intros ?]
        | apply confined_emit ].

Lemma cleanup_confined containerName tempDir :
  match containerName with
  | Some name => Js.startsWith "grok-exec-" name = true
  | None => True
  end ->
  confined code_execution_effect (CodeExecutionTool.cleanup containerName tempDir).
Proof.
  intros Hname. unfold CodeExecutionTool.cleanup, execDetached.
  repeat confined_step; try confined_effect; cbn [code_execution_effect].
  - change (Js.startsWith "docker rm -f grok-exec-" ("docker rm -f " +:+ String a s))
      with (Js.startsWith "grok-exec-" (String a s)).
    rewrite Hname. reflexivity.
  - rewrite startsWith_append. apply orb_true_r.
Qed.

Lemma runInContainer_confined code language input tempDir name :
  confined code_execution_effect
    (CodeExecutionTool.runInContainer code language input tempDir ("grok-exec-" +:+ name)).
Proof.
  unfold CodeExecutionTool.runInContainer.
  repeat confined_step; try confined_effect; try reflexivity.
  all: change (1024 * 1024 * 5) with 5242880; cbn [code_execution_effect];
    apply isolated_buildDockerCommand.
Qed.

Lemma runCodeBody_confined code language input :
  confined code_execution_effect (CodeExecutionTool.runCodeBody code language input).
Proof.
  unfold CodeExecutionTool.runCodeBody.
  repeat first [ apply runInContainer_confined
               | apply cleanup_confined; first [reflexivity | exact I]
               | confined_step ];
    try confined_effect; reflexivity.
Qed.

Lemma runCode_confined code language input :
  confined code_execution_effect (CodeExecutionTool.runCode code language input).
Proof.
  unfold CodeExecutionTool.runCode.
  repeat first [ apply runCodeBody_confined | confined_step ];
    try confined_effect; reflexivity.
Qed.

(** X3.  Whatever it is asked to run, [CodeExecutionTool] starts nothing
    but the Docker probe, one container with the limits of
    [buildDockerCommand] (no network, read-only file system, 128 MB, half
    a CPU), a 30 second timeout and a 5 MB buffer, and the two removals
    of its [finally] block. *)
Theorem code_runs_only_in_isolated_containers operation args env fl past :
  forallb code_execution_effect
    (emitted (CodeExecutionTool.execute operation args env fl past)) = true.
Proof.
  revert env fl past.
  change (confined code_execution_effect (CodeExecutionTool.execute operation args)).
  unfold CodeExecutionTool.execute, CodeExecutionTool.testCode.
  repeat first [ apply runCode_confined | confined_step ].
Qed.

(** ** The scratch directory is always cleaned up *)

Lemma startsWith_three (a n b r t : string) :
  Js.startsWith (a +:+ n +:+ b) ((a +:+ n +:+ b +:+ r) +:+ t) = true.
Proof.
  apply startsWith_app_l.
  rewrite <- (append_assoc n b r), <- (append_assoc a (n +:+ b) r).
  apply startsWith_append.
Qed.

Lemma is_run_of_buildDockerCommand image name tempDir runCommand inputPath t b res :
  is_run_of name
    (EvExec (CodeExecutionTool.buildDockerCommand image name tempDir runCommand inputPath)
       (Some t) b res) = true.
Proof.
  cbn [is_run_of]. unfold CodeExecutionTool.buildDockerCommand.
  destruct inputPath as [[| c p] |];
    apply (startsWith_three "docker run --rm --name " name " ").
Qed.

(** What the guarded part of [runCode] leaves behind: it returns, and it
    neither creates a directory nor starts a removal. *)
Lemma runInContainer_trace code language input tempDir name env fl past :
  exists r evs,
    try_catch (CodeExecutionTool.runInContainer code language input tempDir name)
      (fun error => ret (CodeExecutionTool.failed_with language (Some name) error))
      env fl past = MkOut (Returned r) fl evs
    /\ removals evs = [] /\ created_scratch evs = None
    /\ forallb (is_run_of name) evs = true.
Proof.
  unfold CodeExecutionTool.runInContainer.
  run_m; do 2 eexists; (split; [reflexivity |]);
    cbn [removals flat_map created_scratch forallb app];
    rewrite ?is_run_of_buildDockerCommand; repeat split; reflexivity.
Qed.

Lemma cleanup_trace name tempDir env fl past :
  CodeExecutionTool.cleanup (Some ("grok-exec-" +:+ name)) (Some tempDir) env fl past
  = MkOut (Returned tt) fl
      (EvExecDetached ("docker rm -f " +:+ "grok-exec-" +:+ name)
       :: match tempDir with
          | "" => []
          | _ => [EvExecDetached ("rm -rf " +:+ tempDir)]
          end).
Proof. destruct tempDir; reflexivity. Qed.

Lemma removals_app a b : removals (a ++ b) = removals a ++ removals b.
Proof. apply flat_map_app. Qed.

Lemma created_scratch_app a b :
  created_scratch (a ++ b)
  = match created_scratch a with
    | Some tempDir => Some tempDir
    | None => created_scratch b
    end.
Proof.
  induction a as [| ev a IH]; [reflexivity |].
  destruct ev as [| | | | | prefix [tempDir | e] | | |]; cbn [created_scratch app];
    first [exact IH | reflexivity].
Qed.

(** The two shapes of what [runCodeBody] does: [mkdtemp] fails and
    nothing else happens, or the directory is created, the guarded part
    runs, and the [finally] block starts the removals. *)
Lemma runCodeBody_trace code language input env fl past :
  let evs := emitted (CodeExecutionTool.runCodeBody code language input env fl past) in
  (exists prefix error, evs = [EvMkdtemp prefix (FsFailed error)])
  \/ (exists prefix tempDir name evs1,
        evs = EvMkdtemp prefix (FsOk tempDir) :: evs1
                ++ EvExecDetached ("docker rm -f " +:+ name)
                   :: match tempDir with
                      | "" => []
                      | _ => [EvExecDetached ("rm -rf " +:+ tempDir)]
                      end
        /\ removals evs1 = [] /\ created_scratch evs1 = None
        /\ forallb (is_run_of name) evs1 = true).
Proof.
  intros evs.
  assert (Hevs : evs = emitted (CodeExecutionTool.runCodeBody code language input env fl past))
    by reflexivity.
  clearbody evs. revert Hevs.
  unfold CodeExecutionTool.runCodeBody.
  unfold bind at 1 2 3. unfold tmpdir, join, try_catch at 1, bind at 1, mkdtemp, ret at 1 2.
  cbn beta iota zeta delta [completion flags_after emitted app].
  destruct (mkdtemp_answer env _ _) as [tempDir | error] eqn:Hmk.
  - unfold bind at 1 2, dateNow, randomTag.
    cbn beta iota zeta delta [completion flags_after emitted app].
    match goal with
    | |- context [try_finally (try_catch (CodeExecutionTool.runInContainer ?a ?b ?c ?d ?n) ?h)
                    ?fin ?e ?f ?p] =>
        destruct (runInContainer_trace a b c d n e f p) as (r & evs1 & Hbody & Hrm & Hmk' & Hrun);
        unfold try_finally; rewrite Hbody
    end.
    rewrite cleanup_trace. cbn beta iota zeta delta [completion flags_after emitted app].
    intros ->. right.
    do 3 eexists. exists evs1. split; [reflexivity |].
    split; [exact Hrm | split; [exact Hmk' | exact Hrun]].
  - unfold CodeExecutionTool.cleanup, CodeExecutionTool.failed_with.
    run_m. intros ->. left. do 2 eexists. reflexivity.
Qed.

Lemma forallb_is_run_of_detached name command rest :
  forallb (is_run_of name) (EvExecDetached command :: rest) = forallb (is_run_of name) rest.
Proof. reflexivity. Qed.

Lemma runCodeBody_cleanup code language input env fl past :
  let evs := emitted (CodeExecutionTool.runCodeBody code language input env fl past) in
  (forall tempDir, created_scratch evs = Some tempDir -> tempDir <> "" ->
     exists containerName before,
       evs = before ++ [EvExecDetached ("docker rm -f " +:+ containerName);
                        EvExecDetached ("rm -rf " +:+ tempDir)]
       /\ removals before = []
       /\ forallb (is_run_of containerName) evs = true)
  /\ (created_scratch evs = None -> removals evs = []).
Proof.
  cbv zeta.
  destruct (runCodeBody_trace code language input env fl past)
    as [(prefix & error & ->) | (prefix & tempDir & name & evs1 & -> & Hrm & Hmk & Hrun)].
  - split; [intros tempDir H; discriminate H | reflexivity].
  - cbn [created_scratch]. split; [| intros H; discriminate H].
    intros tempDir' [= <-] Hne.
    destruct tempDir as [| c t]; [contradiction |].
    exists name, (EvMkdtemp prefix (FsOk (String c t)) :: evs1).
    split; [reflexivity |]. split.
    + cbn [removals flat_map app]. exact Hrm.
    + cbn [forallb is_run_of andb]. rewrite forallb_app, Hrun. reflexivity.
Qed.


Lemma cleaned_up_nil : cleaned_up [].
Proof. split; [intros tempDir H; discriminate H | reflexivity]. Qed.

Lemma cleaned_up_after pre evs :
  removals pre = [] -> created_scratch pre = None ->
  (forall name, forallb (is_run_of name) pre = true) ->
  cleaned_up evs -> cleaned_up (pre ++ evs).
Proof.
  intros Hrm Hmk Hrun [Hsome Hnone]. split.
  - intros tempDir Hcreated Hne. rewrite created_scratch_app, Hmk in Hcreated.
    destruct (Hsome tempDir Hcreated Hne) as (name & before & -> & Hrm' & Hrun').
    exists name, (pre ++ before). split; [apply app_assoc |]. split.
    + rewrite removals_app, Hrm, Hrm'. reflexivity.
    + rewrite forallb_app, Hrun, Hrun'. reflexivity.
  - intros Hcreated. rewrite created_scratch_app, Hmk in Hcreated.
    rewrite removals_app, Hrm, (Hnone Hcreated). reflexivity.
Qed.

Lemma runCode_cleaned_up code language input env fl past :
  cleaned_up (emitted (CodeExecutionTool.runCode code language input env fl past)).
Proof.
  unfold CodeExecutionTool.runCode.
  destruct code as [[|c0 code]|]; try apply cleaned_up_nil.
  destruct language as [[|l0 language]|]; try apply cleaned_up_nil.
  destruct fl as [ff [] []]; cbn [flag_bashCommands flag_allOperations orb].
  all: run_m.
  all: try match goal with
       | Hbody : CodeExecutionTool.runCodeBody ?a ?b ?c ?e ?f ?p = MkOut ?c1 ?fl1 ?ev1 |- _ =>
           pose proof (runCodeBody_cleanup a b c e f p) as H; cbv zeta in H;
           rewrite Hbody in H;
           change (cleaned_up ev1) in H
       end.
  all: unfold_m.
  all: try (match goal with
            | |- cleaned_up (?a :: ?b :: ?c :: ?evs) =>
                apply (cleaned_up_after [a; b; c] evs)
            | |- cleaned_up (?a :: ?evs) => apply (cleaned_up_after [a] evs)
            end;
            first [reflexivity | intros name; reflexivity | exact H | apply cleaned_up_nil | idtac]).
Qed.

(** X4.  When [CodeExecutionTool] has created its scratch directory, the
    call ends by starting the removal of the container and of the
    directory, in that order and whatever faulted in between; the
    container removed is the one that was run, and no other removal is
    started.  When no directory was created, nothing is removed. *)
Theorem scratch_is_always_cleaned_up operation args env fl past :
  let evs := emitted (CodeExecutionTool.execute operation args env fl past) in
  (forall tempDir, created_scratch evs = Some tempDir -> tempDir <> "" ->
     exists containerName before,
       evs = before ++ [EvExecDetached ("docker rm -f " +:+ containerName);
                        EvExecDetached ("rm -rf " +:+ tempDir)]
       /\ removals before = []
       /\ forallb (is_run_of containerName) evs = true)
  /\ (created_scratch evs = None -> removals evs = []).
Proof.
  cbv zeta.
  change (cleaned_up (emitted (CodeExecutionTool.execute operation args env fl past))).
  unfold CodeExecutionTool.execute, CodeExecutionTool.testCode.
  dispatch_on_operation; first [apply runCode_cleaned_up | apply cleaned_up_nil].
Qed.

(** A Python one-liner, approved by the human. *)
Lemma scratch_is_always_cleaned_up_witness :
  let evs := emitted (CodeExecutionTool.execute "run" ["print(1)"; "python"] obliging no_flags []) in
  created_scratch evs = Some "/tmp/grok-code-exec-a1b2c3"
  /\ exists containerName before,
       evs = before ++ [EvExecDetached ("docker rm -f " +:+ containerName);
                        EvExecDetached "rm -rf /tmp/grok-code-exec-a1b2c3"]
       /\ removals before = []
       /\ forallb (is_run_of containerName) evs = true.
Proof.
  split; [reflexivity |].
  apply (scratch_is_always_cleaned_up "run" ["print(1)"; "python"] obliging no_flags []);
    [reflexivity | discriminate].
Defined.


(** ** Approval comes first *)

Lemma approved_before_seen op evs : approved_before op true evs = true.
Proof.
  induction evs as [| ev evs IH]; [reflexivity |].
  cbn [approved_before orb]. rewrite IH, Bool.implb_true_r. reflexivity.
Qed.

Lemma approved_before_app op seen a b :
  approved_before op seen (a ++ b)
  = (approved_before op seen a && approved_before op (seen || existsb is_approval a) b)%bool.
Proof.
  revert seen. induction a as [| ev a IH]; intros seen.
  - cbn [app approved_before existsb andb]. rewrite orb_false_r. reflexivity.
  - cbn [app approved_before existsb]. rewrite IH, orb_assoc, andb_assoc. reflexivity.
Qed.

Lemma approved_before_split op seen evs before ev after :
  approved_before op seen evs = true ->
  evs = before ++ ev :: after -> launches op ev = true ->
  (seen || existsb is_approval before)%bool = true.
Proof.
  intros H -> Hev. rewrite approved_before_app in H.
  apply andb_prop in H as [_ H]. cbn [approved_before] in H.
  rewrite Hev in H. apply andb_prop in H as [H _].
  destruct (seen || existsb is_approval before)%bool; [reflexivity | discriminate H].
Qed.

Ltac solve_approved :=
  cbn [approved_before launches is_approval implb orb andb];
  repeat match goal with
         | H : confirmed _ = true |- _ => rewrite H
         end;
  rewrite ?Bool.implb_true_r; reflexivity.

Lemma systemctl_runCommand_approved op command env fl past :
  bash_covered fl = false ->
  approved_before op false
    (emitted (SystemctlTool.runCommand command true env fl past)) = true.
Proof.
  unfold SystemctlTool.runCommand, bash_covered.
  destruct fl as [ff [] []]; cbn [flag_bashCommands flag_allOperations orb]; try discriminate.
  intros _. destruct op as [verb name | verb args | verb args]; run_m; solve_approved.
Qed.

Lemma apt_runCommand_approved op command env fl past :
  bash_covered fl = false ->
  approved_before op false
    (emitted (AptTool.runCommand command true env fl past)) = true.
Proof.
  unfold AptTool.runCommand, bash_covered.
  destruct fl as [ff [] []]; cbn [flag_bashCommands flag_allOperations orb]; try discriminate.
  intros _. destruct op as [verb name | verb args | verb args]; run_m; solve_approved.
Qed.

Lemma runCode_approved verb args code language input env fl past :
  bash_covered fl = false ->
  approved_before (CodeOp verb args) false
    (emitted (CodeExecutionTool.runCode code language input env fl past)) = true.
Proof.
  unfold CodeExecutionTool.runCode, bash_covered.
  destruct code as [[|c0 code]|]; try reflexivity.
  destruct language as [[|l0 language]|]; try reflexivity.
  destruct fl as [ff [] []]; cbn [flag_bashCommands flag_allOperations orb]; try discriminate.
  intros _. run_m; try solve_approved.
  all: cbn [approved_before launches is_approval implb orb andb];
    repeat match goal with
           | H : confirmed _ = true |- _ => rewrite H
           end;
    apply approved_before_seen.
Qed.

(** X5.  With no covering flag, the effect a mutating operation guards
    (the [sudo] command of [systemctl] and [apt], the scratch directory of
    a code execution) happens only after the human has approved a
    request of that call. *)
Theorem approval_precedes_the_guarded_effect (op : MutatingOperation) env fl past
    before ev after :
  bash_covered fl = false ->
  emitted (perform op env fl past) = before ++ ev :: after ->
  launches op ev = true ->
  existsb is_approval before = true.
Proof.
  intros Hfl Hsplit Hev.
  apply (approved_before_split op false (emitted (perform op env fl past)) before ev after);
    [| exact Hsplit | exact Hev].
  clear Hsplit Hev.
  destruct op as [verb serviceName | verb args | verb args]; cbn [perform as_invocation invoke].
  - unfold SystemctlTool.execute.
    destruct serviceName as [[| c s] |]; try reflexivity.
    destruct verb; cbn [systemctl_verb String.eqb Ascii.eqb Bool.eqb];
      apply systemctl_runCommand_approved, Hfl.
  - unfold AptTool.execute, AptTool.install, AptTool.remove, AptTool.update, AptTool.upgrade.
    destruct verb; cbn [apt_verb String.eqb Ascii.eqb Bool.eqb];
      try destruct (args !! 0%nat) as [[| c s] |]; try reflexivity;
      apply apt_runCommand_approved, Hfl.
  - unfold CodeExecutionTool.execute, CodeExecutionTool.testCode.
    destruct verb; cbn [code_verb String.eqb Ascii.eqb Bool.eqb];
      apply runCode_approved, Hfl.
Qed.

(** [systemctl restart nginx], approved: request, decision, command. *)
Lemma approval_precedes_the_guarded_effect_witness :
  let op := SystemctlOp Restart (Some "nginx") in
  let evs := emitted (perform op obliging no_flags []) in
  exists before ev,
    evs = before ++ [ev]
    /\ launches op ev = true
    /\ existsb is_approval before = true.
Proof.
  cbv zeta. do 2 eexists. split; [reflexivity |]. split; [reflexivity |].
  eapply (approval_precedes_the_guarded_effect (SystemctlOp Restart (Some "nginx"))
            obliging no_flags []); reflexivity.
Defined.

(** ** The input history *)

Section InputHistory.

Import InputProvider.



Lemma at_index_Some {A} (xs : list A) i :
  0 <= i < JsText.count xs -> exists x, JsText.at_index xs i = Some x.
Proof.
  unfold JsText.at_index, JsText.count. intros [Hlo Hhi].
  destruct (i <? 0) eqn:Hneg; [apply Z.ltb_lt in Hneg; lia |].
  apply lookup_lt_is_Some_2. lia.
Qed.

Lemma handleUp_in_history st :
  index_in_history st ->
  exists st' moved, handleUp st = Some (st', moved)
                    /\ index_in_history st' /\ history st' = history st.
Proof.
  unfold index_in_history, handleUp. intros Hinv.
  destruct (JsText.count (history st) =? 0) eqn:Hlen; [eauto |].
  apply Z.eqb_neq in Hlen.
  destruct (historyIndex st =? -1) eqn:Hidx.
  - cbn [historyIndex setHistoryIndex setOriginalInput history].
    destruct (at_index_Some (history st) (JsText.count (history st) - 1)) as [x ->].
    { unfold JsText.count in *. lia. }
    cbn [show_entry]. do 2 eexists. split; [reflexivity |].
    cbn [historyIndex history setCursorPosition setInput setHistoryIndex setOriginalInput].
    split; [lia | reflexivity].
  - apply Z.eqb_neq in Hidx.
    destruct (0 <? historyIndex st) eqn:Hpos; [| eauto].
    apply Z.ltb_lt in Hpos.
    cbn [historyIndex setHistoryIndex history].
    destruct (at_index_Some (history st) (historyIndex st - 1)) as [x ->]; [lia |].
    cbn [show_entry]. do 2 eexists. split; [reflexivity |].
    cbn [historyIndex history setCursorPosition setInput setHistoryIndex].
    split; [lia | reflexivity].
Qed.

Lemma handleDown_in_history st :
  index_in_history st ->
  exists st' moved, handleDown st = Some (st', moved)
                    /\ index_in_history st' /\ history st' = history st.
Proof.
  unfold index_in_history, handleDown. intros Hinv.
  destruct (historyIndex st =? -1) eqn:Hidx; [eauto |].
  apply Z.eqb_neq in Hidx.
  destruct (historyIndex st <? JsText.count (history st) - 1) eqn:Hlast.
  - apply Z.ltb_lt in Hlast.
    cbn [historyIndex setHistoryIndex history].
    destruct (at_index_Some (history st) (historyIndex st + 1)) as [x ->]; [lia |].
    cbn [show_entry]. do 2 eexists. split; [reflexivity |].
    cbn [historyIndex history setCursorPosition setInput setHistoryIndex].
    split; [lia | reflexivity].
  - do 2 eexists. split; [reflexivity |].
    cbn [historyIndex history setCursorPosition setInput setHistoryIndex].
    split; [unfold JsText.count in *; lia | reflexivity].
Qed.

Lemma nonempty_trim t : Js.nonempty (Js.trim t) = true -> Js.trim t <> "".
Proof. destruct (Js.trim t); [discriminate | discriminate]. Qed.

Lemma clean_snoc h t :
  history_is_clean h -> Js.trim t <> "" -> last h <> Some t -> history_is_clean (h ++ [t]).
Proof.
  intros Hclean Ht Hlast i x Hi.
  destruct (decide (i < length h)%nat) as [Hlt | Hge].
  - rewrite lookup_app_l in Hi by exact Hlt.
    destruct (Hclean i x Hi) as [Hx Hnext]. split; [exact Hx |].
    destruct (decide (S i < length h)%nat) as [Hlt' | Hge'].
    + rewrite lookup_app_l by exact Hlt'. exact Hnext.
    + assert (S i = length h) as Hlen by lia.
      rewrite lookup_app_r by lia. rewrite Hlen, Nat.sub_diag. cbn.
      intros [= <-]. apply Hlast.
      rewrite last_lookup. replace (Init.Nat.pred (length h)) with i by lia. exact Hi.
  - rewrite lookup_app_r in Hi by lia.
    destruct (i - length h)%nat eqn:Hd; [| discriminate Hi].
    injection Hi as <-. split; [exact Ht |].
    rewrite lookup_ge_None_2; [discriminate |].
    rewrite length_app. cbn. lia.
Qed.

Lemma at_index_last {A} (xs : list A) : JsText.at_index xs (JsText.count xs - 1) = last xs.
Proof.
  unfold JsText.at_index, JsText.count. rewrite last_lookup.
  destruct xs as [| x xs]; [reflexivity |].
  cbn [length]. destruct (Z.of_nat (S (length xs)) - 1 <? 0) eqn:Hneg.
  - apply Z.ltb_lt in Hneg. lia.
  - f_equal. lia.
Qed.

Lemma addToHistory_invariant submitted st :
  history_is_clean (history st) ->
  index_in_history (addToHistory submitted st)
  /\ history_is_clean (history (addToHistory submitted st)).
Proof.
  intros Hclean. unfold addToHistory, index_in_history.
  destruct (Js.nonempty (Js.trim submitted)) eqn:Hblank;
    cbn [historyIndex history setOriginalInput setHistoryIndex setHistory].
  - rewrite at_index_last.
    destruct (last (history st)) as [newest |] eqn:Hlast.
    + destruct (String.eqb newest submitted) eqn:Hsame.
      * split; [unfold JsText.count; lia | exact Hclean].
      * split; [unfold JsText.count; lia |].
        apply clean_snoc; [exact Hclean | apply nonempty_trim, Hblank |].
        rewrite Hlast. intros [= ->]. rewrite String.eqb_refl in Hsame. discriminate.
    + split; [unfold JsText.count; lia |].
      apply clean_snoc; [exact Hclean | apply nonempty_trim, Hblank |].
      rewrite Hlast. discriminate.
  - split; [unfold JsText.count; lia | exact Hclean].
Qed.

Lemma call_invariant u c st :
  index_in_history st -> history_is_clean (history st) ->
  exists st', call u c st = Some st'
              /\ index_in_history st' /\ history_is_clean (history st').
Proof.
  intros Hidx Hclean.
  destruct c; cbn [call];
    try match goal with ctrl : bool |- _ => destruct ctrl end;
    try (eexists; split; [reflexivity |];
         first [ apply addToHistory_invariant, Hclean
               | split; [| exact Hclean];
                 unfold index_in_history in *;
                 repeat match goal with
                        | |- context [if ?b then _ else _] => destruct b
                        end;
                 cbn; unfold JsText.count in *; lia ]).
  - destruct (handleUp_in_history st Hidx) as (st' & moved & -> & Hidx' & Hhist).
    exists st'. split; [reflexivity |]. split; [exact Hidx' | rewrite Hhist; exact Hclean].
  - destruct (handleDown_in_history st Hidx) as (st' & moved & -> & Hidx' & Hhist).
    exists st'. split; [reflexivity |]. split; [exact Hidx' | rewrite Hhist; exact Hclean].
Qed.

Lemma calls_invariant u cs st :
  index_in_history st -> history_is_clean (history st) ->
  exists st', calls u cs st = Some st'
              /\ index_in_history st' /\ history_is_clean (history st').
Proof.
  revert st. induction cs as [| c cs IH]; intros st Hidx Hclean; cbn [calls].
  - exists st. split; [reflexivity | split; assumption].
  - destruct (call_invariant u c st Hidx Hclean) as (st' & -> & Hidx' & Hclean').
    apply IH; assumption.
Qed.

Lemma initial_invariant : index_in_history initial /\ history_is_clean (history initial).
Proof.
  split; [unfold index_in_history, JsText.count; cbn; lia |].
  intros i t H. discriminate H.
Qed.

Lemma at_index_nat {A} (xs : list A) (i : nat) : JsText.at_index xs (Z.of_nat i) = xs !! i.
Proof.
  unfold JsText.at_index. destruct (Z.of_nat i <? 0) eqn:H.
  - apply Z.ltb_lt in H. lia.
  - rewrite Nat2Z.id. reflexivity.
Qed.

Lemma up_first st :
  historyIndex st = -1 -> history st <> [] ->
  exists st', handleUp st = Some (st', true)
              /\ browsing st (length (history st) - 1) st'.
Proof.
  intros Hidx Hne. unfold handleUp, JsText.count.
  destruct (history st) as [| h hs] eqn:Hh; [contradiction |].
  change (Z.of_nat (length (h :: hs)) =? 0) with false. cbn iota.
  rewrite Hidx. cbn [Z.eqb Pos.eqb].
  cbn [historyIndex setHistoryIndex setOriginalInput].
  replace (Z.of_nat (length (h :: hs)) - 1) with (Z.of_nat (length (h :: hs) - 1))
    by (cbn [length]; lia).
  rewrite at_index_nat.
  destruct (lookup_lt_is_Some_2 (h :: hs) (length (h :: hs) - 1)) as [x Hx];
    [cbn [length]; lia |].
  rewrite Hx. cbn [show_entry]. eexists. split; [reflexivity |].
  unfold browsing.
  cbn [history originalInput historyIndex input cursorPosition
       setCursorPosition setInput setHistoryIndex setOriginalInput].
  rewrite Hh. repeat split; exact Hx.
Qed.

Lemma up_next st0 i st :
  browsing st0 (S i) st ->
  exists st', handleUp st = Some (st', true) /\ browsing st0 i st'.
Proof.
  intros (Hh & Ho & Hidx & Hin & Hcur). unfold handleUp, JsText.count.
  assert (S i < length (history st0))%nat as Hlt by (apply lookup_lt_is_Some_1; eauto).
  rewrite Hh.
  destruct (Z.of_nat (length (history st0)) =? 0) eqn:H0; [apply Z.eqb_eq in H0; lia |].
  rewrite Hidx.
  destruct (Z.of_nat (S i) =? -1) eqn:H1; [apply Z.eqb_eq in H1; lia |].
  destruct (0 <? Z.of_nat (S i)) eqn:H2; [| apply Z.ltb_ge in H2; lia].
  cbn [historyIndex setHistoryIndex].
  replace (Z.of_nat (S i) - 1) with (Z.of_nat i) by lia.
  rewrite at_index_nat.
  destruct (lookup_lt_is_Some_2 (history st0) i) as [x Hx]; [lia |].
  rewrite Hx. cbn [show_entry]. eexists. split; [reflexivity |].
  unfold browsing.
  cbn [history originalInput historyIndex input cursorPosition
       setCursorPosition setInput setHistoryIndex setOriginalInput].
  repeat split; assumption.
Qed.

Lemma down_next st0 i st :
  browsing st0 i st -> (S i < length (history st0))%nat ->
  exists st', handleDown st = Some (st', true) /\ browsing st0 (S i) st'.
Proof.
  intros (Hh & Ho & Hidx & Hin & Hcur) Hlt. unfold handleDown, JsText.count.
  rewrite Hh, Hidx.
  destruct (Z.of_nat i =? -1) eqn:H1; [apply Z.eqb_eq in H1; lia |].
  destruct (Z.of_nat i <? Z.of_nat (length (history st0)) - 1) eqn:H2;
    [| apply Z.ltb_ge in H2; lia].
  cbn [historyIndex setHistoryIndex].
  replace (Z.of_nat i + 1) with (Z.of_nat (S i)) by lia.
  rewrite at_index_nat.
  destruct (lookup_lt_is_Some_2 (history st0) (S i)) as [x Hx]; [lia |].
  rewrite Hx. cbn [show_entry]. eexists. split; [reflexivity |].
  unfold browsing.
  cbn [history originalInput historyIndex input cursorPosition
       setCursorPosition setInput setHistoryIndex setOriginalInput].
  repeat split; assumption.
Qed.

Lemma down_last st0 i st :
  browsing st0 i st -> S i = length (history st0) ->
  exists st', handleDown st = Some (st', true)
              /\ input st' = input st0
              /\ cursorPosition st' = JsText.length (input st0)
              /\ historyIndex st' = -1
              /\ history st' = history st0.
Proof.
  intros (Hh & Ho & Hidx & Hin & Hcur) Hlast. unfold handleDown, JsText.count.
  rewrite Hh, Hidx.
  destruct (Z.of_nat i =? -1) eqn:H1; [apply Z.eqb_eq in H1; lia |].
  destruct (Z.of_nat i <? Z.of_nat (length (history st0)) - 1) eqn:H2;
    [apply Z.ltb_lt in H2; lia |].
  eexists. split; [reflexivity |].
  cbn [history originalInput historyIndex input cursorPosition
       setCursorPosition setInput setHistoryIndex setOriginalInput].
  rewrite Ho. repeat split. exact Hh.
Qed.

Lemma times_add n m handler st :
  times (n + m) handler st
  = match times n handler st with
    | Some st' => times m handler st'
    | None => None
    end.
Proof.
  revert st. induction n as [| n IH]; intros st; [reflexivity |].
  cbn [Nat.add times]. destruct (handler st) as [[st' moved] |]; [apply IH | reflexivity].
Qed.

Lemma times_up st0 i j st :
  browsing st0 (i + j) st ->
  exists st', times j handleUp st = Some st' /\ browsing st0 i st'.
Proof.
  revert st. induction j as [| j IH]; intros st Hb.
  - rewrite Nat.add_0_r in Hb. exists st. split; [reflexivity | exact Hb].
  - rewrite Nat.add_succ_r in Hb.
    destruct (up_next st0 (i + j) st Hb) as (st' & Hup & Hb').
    cbn [times]. rewrite Hup. apply IH, Hb'.
Qed.

Lemma times_down st0 i j st :
  browsing st0 i st -> (i + j < length (history st0))%nat ->
  exists st', times j handleDown st = Some st' /\ browsing st0 (i + j) st'.
Proof.
  revert i st. induction j as [| j IH]; intros i st Hb Hlt.
  - rewrite Nat.add_0_r. exists st. split; [reflexivity | exact Hb].
  - destruct (down_next st0 i st Hb) as (st' & Hdown & Hb'); [lia |].
    cbn [times]. rewrite Hdown.
    replace (i + S j)%nat with (S i + j)%nat by lia.
    apply IH; [exact Hb' | lia].
Qed.

(** X6.  From the provider's initial signals, no sequence of calls of
    the functions it hands out throws, whatever the editing functions of
    [text-utils] return, and the history index stays -1 or an index of
    the history: [handleUp] and [handleDown] never read an entry outside
    the history. *)
Theorem history_navigation_stays_in_range (u : TextUtils) (cs : list Call) :
  exists st, calls u cs initial = Some st
             /\ -1 <= historyIndex st < JsText.count (history st).
Proof.
  destruct initial_invariant as [Hidx Hclean].
  destruct (calls_invariant u cs initial Hidx Hclean) as (st & Hst & Hidx' & _).
  exists st. split; [exact Hst | exact Hidx'].
Qed.

(** X7.  The input history never holds a blank text, and never the same
    text twice in a row, whatever is submitted and whatever else is
    called in between. *)
Theorem history_has_no_blank_and_no_repeat (u : TextUtils) (cs : list Call) :
  exists st, calls u cs initial = Some st
             /\ forall i t, history st !! i = Some t ->
                            Js.trim t <> "" /\ history st !! S i <> Some t.
Proof.
  destruct initial_invariant as [Hidx Hclean].
  destruct (calls_invariant u cs initial Hidx Hclean) as (st & Hst & _ & Hclean').
  exists st. split; [exact Hst | exact Hclean'].
Qed.


(** X8.  Browsing the history keeps the draft.  From a state that is not
    browsing, [k] presses of Up (no more than the history holds) show the
    [k]-th newest entry, and [k] presses of Down then bring back the
    input that was being typed, with the cursor at its end, and leave the
    history as it was. *)
Theorem browsing_the_history_keeps_the_draft (st : InputState) (k : nat) :
  historyIndex st = -1 -> (1 <= k <= length (history st))%nat ->
  exists shown,
    times k handleUp st = Some shown
    /\ history st !! (length (history st) - k)%nat = Some (input shown)
    /\ exists back,
         times k handleDown shown = Some back
         /\ input back = input st
         /\ cursorPosition back = JsText.length (input st)
         /\ historyIndex back = -1
         /\ history back = history st.
Proof.
  intros Hidx [Hk1 Hkn].
  destruct (up_first st Hidx) as (st1 & Hup & Hb1).
  { intros Hnil. rewrite Hnil in Hkn. cbn in Hkn. lia. }
  destruct k as [| k]; [lia |].
  destruct (times_up st (length (history st) - S k) k st1) as (shown & Hups & Hb).
  { replace (length (history st) - S k + k)%nat with (length (history st) - 1)%nat by lia.
    exact Hb1. }
  exists shown. split; [cbn [times]; rewrite Hup; exact Hups |].
  split; [apply Hb |].
  destruct (times_down st (length (history st) - S k) k shown Hb) as (st2 & Hdowns & Hb2);
    [lia |].
  destruct (down_last st _ st2 Hb2) as (back & Hdown & Hback); [lia |].
  exists back. split; [| exact Hback].
  replace (S k) with (k + 1)%nat by lia.
  rewrite times_add, Hdowns. cbn [times]. rewrite Hdown. reflexivity.
Qed.

(** Two entries back and forth over a draft. *)
Lemma browsing_the_history_keeps_the_draft_witness :
  let st := {| input := "git sta"; cursorPosition := 3; history := ["ls"; "pwd"];
               historyIndex := -1; originalInput := "" |} in
  exists shown,
    times 2 handleUp st = Some shown
    /\ input shown = "ls"
    /\ exists back,
         times 2 handleDown shown = Some back
         /\ input back = "git sta" /\ cursorPosition back = 7.
Proof.
  cbv zeta.
  destruct (browsing_the_history_keeps_the_draft
              {| input := "git sta"; cursorPosition := 3; history := ["ls"; "pwd"];
                 historyIndex := -1; originalInput := "" |} 2 eq_refl)
    as (shown & Hup & Hshown & back & Hdown & Hinput & Hcursor & _).
  { cbn. lia. }
  exists shown. split; [exact Hup |]. split; [injection Hshown as <-; reflexivity |].
  exists back. split; [exact Hdown |]. split; [exact Hinput | exact Hcursor].
Defined.

End InputHistory.

(** ** The cursor in the input box *)

Lemma lines_nonempty s : JsText.lines s <> [].
Proof.
  destruct s as [| c s]; cbn [JsText.lines]; [discriminate |].
  destruct (Nat.eqb (nat_of_ascii c) 10); [discriminate |].
  destruct (JsText.lines s); discriminate.
Qed.

(** The lines and their line feeds make up the text: one past its end
    is where a further line would start. *)
Lemma line_start_all s :
  line_start (JsText.lines s) (length (JsText.lines s)) = JsText.length s + 1.
Proof.
  unfold JsText.length. induction s as [| c s IH]; [reflexivity |].
  cbn [JsText.lines]. destruct (Nat.eqb (nat_of_ascii c) 10).
  - cbn [length line_start String.length]. unfold JsText.length at 1. cbn [String.length].
    rewrite IH. lia.
  - pose proof (lines_nonempty s) as Hne.
    destruct (JsText.lines s) as [| line rest]; [contradiction |].
    cbn [length line_start String.length] in *. unfold JsText.length in *.
    cbn [String.length]. lia.
Qed.

Lemma locate_finds allLines i totalChars cursorPos :
  totalChars <= cursorPos <= totalChars + line_start allLines (length allLines) - 1 ->
  exists k line,
    fst (ChatInput.locate allLines i totalChars cursorPos) = i + Z.of_nat k
    /\ allLines !! k = Some line
    /\ 0 <= snd (ChatInput.locate allLines i totalChars cursorPos) <= JsText.length line
    /\ totalChars + line_start allLines k
       + snd (ChatInput.locate allLines i totalChars cursorPos) = cursorPos.
Proof.
  revert i totalChars. induction allLines as [| line rest IH]; intros i totalChars Hpos.
  - cbn [length line_start] in Hpos. lia.
  - cbn [ChatInput.locate].
    destruct (cursorPos <=? totalChars + JsText.length line) eqn:Hhere.
    + apply Z.leb_le in Hhere. exists 0%nat, line. cbn [fst snd line_start lookup].
      repeat split; try reflexivity; lia.
    + apply Z.leb_gt in Hhere. cbn [length line_start] in Hpos.
      destruct (IH (i + 1) (totalChars + JsText.length line + 1)) as (k & l & Hi & Hl & Hc & Hsum);
        [lia |].
      exists (S k), l. cbn [line_start lookup].
      repeat split; try assumption; lia.
Qed.

Lemma locate_misses allLines i totalChars cursorPos :
  totalChars + line_start allLines (length allLines) - 1 < cursorPos ->
  ChatInput.locate allLines i totalChars cursorPos = (0, 0).
Proof.
  revert i totalChars. induction allLines as [| line rest IH]; intros i totalChars Hpos;
    [reflexivity |].
  cbn [ChatInput.locate]. cbn [length line_start] in Hpos.
  assert (0 <= line_start rest (length rest)) as Hnn.
  { clear. induction rest as [| l rest IH]; cbn [length line_start]; [lia |].
    unfold JsText.length. lia. }
  destruct (cursorPos <=? totalChars + JsText.length line) eqn:Hhere.
  - apply Z.leb_le in Hhere. lia.
  - apply IH. lia.
Qed.

(** X9.  [cursorInfo] turns a cursor offset into a line and a column of
    the input: for an offset inside the text, the line exists, the
    column is inside that line, and the start of the line plus the column
    is the offset again.  An offset past the end of the text falls back
    to line 0, column 0. *)
Theorem cursorInfo_locates_the_cursor (input : string) (cursorPos : Z) :
  let lineIndex := fst (ChatInput.cursorInfo input cursorPos) in
  let charIndex := snd (ChatInput.cursorInfo input cursorPos) in
  (0 <= cursorPos <= JsText.length input ->
   exists line,
     JsText.at_index (JsText.lines input) lineIndex = Some line
     /\ 0 <= charIndex <= JsText.length line
     /\ line_start (JsText.lines input) (Z.to_nat lineIndex) + charIndex = cursorPos)
  /\ (JsText.length input < cursorPos -> lineIndex = 0 /\ charIndex = 0).
Proof.
  cbv zeta. unfold ChatInput.cursorInfo. split.
  - intros Hpos.
    destruct (locate_finds (JsText.lines input) 0 0 cursorPos) as (k & line & Hi & Hl & Hc & Hsum).
    { rewrite line_start_all. lia. }
    exists line. rewrite Hi. rewrite Z.add_0_l.
    unfold JsText.at_index.
    destruct (Z.of_nat k <? 0) eqn:Hneg; [apply Z.ltb_lt in Hneg; lia |].
    rewrite Nat2Z.id. split; [exact Hl |]. split; [exact Hc | lia].
  - intros Hpos. rewrite locate_misses; [split; reflexivity |].
    rewrite line_start_all. lia.
Qed.

(** The cursor after [git ] on the second line. *)
Lemma cursorInfo_locates_the_cursor_witness :
  let input := "git add ." +:+ Js.LF +:+ "git commit" in
  ChatInput.cursorInfo input 14 = (1, 4)
  /\ exists line,
       JsText.at_index (JsText.lines input) 1 = Some line
       /\ 0 <= 4 <= JsText.length line
       /\ line_start (JsText.lines input) 1 + 4 = 14.
Proof.
  cbv zeta. split; [reflexivity |].
  apply (cursorInfo_locates_the_cursor ("git add ." +:+ Js.LF +:+ "git commit") 14).
  vm_compute. split; discriminate.
Defined.

(** ** The command suggestions *)

Section Suggestions.

Import CommandSuggestions.


Lemma filter_sublist {A} (f : A -> bool) (l : list A) : sublist (List.filter f l) l.
Proof.
  induction l as [| x l IH]; cbn [List.filter]; [constructor |].
  destruct (f x); [apply sublist_skip | apply sublist_cons]; exact IH.
Qed.

Lemma filter_all {A} (f : A -> bool) (l : list A) :
  (forall x, In x l -> f x = true) -> List.filter f l = l.
Proof.
  induction l as [| x l IH]; intros H; cbn [List.filter]; [reflexivity |].
  rewrite (H x (or_introl eq_refl)), IH; [reflexivity |].
  intros y Hy. apply H. right. exact Hy.
Qed.

Lemma lower_lower c : Js.lower (Js.lower c) = Js.lower c.
Proof.
  unfold Js.lower.
  destruct (Nat.leb 65 (nat_of_ascii c) && Nat.leb (nat_of_ascii c) 90)%bool eqn:Hup;
    [| rewrite Hup; reflexivity].
  apply andb_prop in Hup as [Hlo Hhi].
  apply Nat.leb_le in Hlo, Hhi.
  rewrite nat_ascii_embedding by lia.
  destruct (Nat.leb 65 (nat_of_ascii c + 32) && Nat.leb (nat_of_ascii c + 32) 90)%bool eqn:H;
    [| reflexivity].
  apply andb_prop in H as [_ H]. apply Nat.leb_le in H. lia.
Qed.

Lemma toLowerCase_idempotent s : Js.toLowerCase (Js.toLowerCase s) = Js.toLowerCase s.
Proof.
  induction s as [| c s IH]; [reflexivity |].
  cbn [Js.toLowerCase]. rewrite lower_lower, IH. reflexivity.
Qed.

(** X10.  The suggestions shown for an input are the first matches, at
    most eight: they are taken from the list in its order, each of them
    starts with the input when case is ignored, none is left out when the
    list has no more than eight entries, and filtering again (or with
    the input in lower case) changes nothing. *)
Theorem suggestions_are_the_first_matches (suggestions : list CommandSuggestion)
    (input : string) :
  let shown := filterCommandSuggestions suggestions input in
  sublist shown suggestions
  /\ (length shown <= 8)%nat
  /\ (forall s, In s shown -> matches input s = true)
  /\ ((length suggestions <= 8)%nat ->
      forall s, In s suggestions -> matches input s = true -> In s shown)
  /\ filterCommandSuggestions shown input = shown
  /\ filterCommandSuggestions suggestions (Js.toLowerCase input) = shown.
Proof.
  cbv zeta. unfold filterCommandSuggestions, MAX_SUGGESTIONS.
  change (fun s => Js.startsWith (Js.toLowerCase input) (Js.toLowerCase (command s)))
    with (matches input).
  assert (Hin : forall s, In s (firstn 8 (List.filter (matches input) suggestions)) ->
                          matches input s = true).
  { intros s Hs.
    assert (In s (List.filter (matches input) suggestions)) as Hs'
      by (rewrite <- (firstn_skipn 8); apply in_or_app; left; exact Hs).
    apply filter_In in Hs'. apply Hs'. }
  split; [| split; [| split; [| split; [| split]]]].
  - etransitivity; [apply sublist_take | apply filter_sublist].
  - apply firstn_le_length.
  - exact Hin.
  - intros Hlen s Hs Hm. rewrite firstn_all2.
    + apply filter_In. split; assumption.
    + etransitivity; [apply sublist_length, filter_sublist | exact Hlen].
  - rewrite (filter_all _ _ Hin). rewrite firstn_firstn. reflexivity.
  - rewrite toLowerCase_idempotent. reflexivity.
Qed.

(** The commands of the chat interface that start with [/C]. *)
Lemma suggestions_are_the_first_matches_witness :
  filterCommandSuggestions ChatInterface.commandSuggestions "/C"
  = [ {| command := "/clear"; description := "Clear chat history" |};
      {| command := "/commit-and-push"; description := "AI commit & push to remote" |} ]
  /\ In {| command := "/clear"; description := "Clear chat history" |}
        (filterCommandSuggestions ChatInterface.commandSuggestions "/C").
Proof.
  split; [reflexivity |].
  apply (suggestions_are_the_first_matches ChatInterface.commandSuggestions "/C");
    [cbn; lia | cbn; tauto | reflexivity].
Defined.

End Suggestions.

(** ** When the stream is done *)

Section Closing.

Import ChatProvider App.




Lemma add_tool_calls_none_streaming clock calls st :
  none_streaming (history st) -> none_streaming (history (add_tool_calls clock calls st)).
Proof.
  revert st. induction calls as [| call calls IH]; intros st H; cbn [add_tool_calls];
    [exact H |].
  apply IH. cbn [tick addEntry setHistory history].
  apply Forall_app. split; [exact H |]. repeat constructor.
Qed.

Lemma on_chunk_idle_means_closed clock chunk s :
  idle_means_closed s -> idle_means_closed (on_chunk clock chunk s).
Proof.
  unfold idle_means_closed, on_chunk. intros Hinv.
  destruct (Chunk.type chunk).
  - destruct (Chunk.content chunk) as [[| c text] |]; try exact Hinv.
    destruct (streamingEntry s) eqn:Hs; cbn [streamingEntry on_chat]; [| discriminate].
    rewrite Hs. discriminate.
  - destruct (Chunk.tokenCount chunk); [| exact Hinv].
    cbn [streamingEntry on_chat chat setTokenCount history]. exact Hinv.
  - destruct (Chunk.toolCalls chunk) as [calls |]; [| exact Hinv].
    cbn [streamingEntry chat]. intros _.
    apply add_tool_calls_none_streaming. cbn [setHistory history].
    apply Forall_fmap, Forall_forall. intros entry _. cbn.
    destruct (is_streaming entry) eqn:Hs; [reflexivity | exact Hs].
  - destruct (Chunk.toolCall chunk) as [call |]; [| exact Hinv].
    destruct (Chunk.toolResult chunk) as [result |]; [| exact Hinv].
    cbn [streamingEntry chat setHistory history]. intros _.
    apply Forall_fmap, Forall_forall. intros entry _. cbn.
    destruct (is_streaming entry) eqn:Hs; [reflexivity |].
    destruct (is_call_of call entry); [| exact Hs].
    unfold is_streaming, as_result in *. cbn [Chat.isStreaming]. exact Hs.
  - destruct (streamingEntry s) eqn:Hs; cbn [streamingEntry on_chat];
      rewrite Hs; [discriminate |].
    intros _. cbn [chat setIsStreaming history]. apply Hinv. reflexivity.
Qed.

Lemma consume_idle_means_closed clock chunks s :
  idle_means_closed s -> idle_means_closed (consume clock chunks s).
Proof.
  unfold consume. revert s. induction chunks as [| chunk chunks IH]; intros s H;
    cbn [fold_left]; [exact H |].
  apply IH, on_chunk_idle_means_closed, H.
Qed.

Lemma on_done_closes clock chunk s :
  Chunk.type chunk = done_t -> idle_means_closed s ->
  none_streaming (history (chat (on_chunk clock chunk s)))
  /\ isStreaming (chat (on_chunk clock chunk s)) = false.
Proof.
  intros Hdone Hinv. unfold on_chunk. rewrite Hdone.
  destruct (streamingEntry s) eqn:Hs;
    cbn [on_chat chat setIsStreaming setHistory history isStreaming].
  - split; [| reflexivity].
    apply Forall_fmap, Forall_forall. intros entry _. cbn.
    destruct (is_streaming entry) eqn:He; [reflexivity | exact He].
  - split; [apply Hinv, Hs | reflexivity].
Qed.

Lemma consume_snoc clock chunks chunk s :
  consume clock (chunks ++ [chunk]) s = on_chunk clock chunk (consume clock chunks s).
Proof. unfold consume. rewrite fold_left_app. reflexivity. Qed.

(** X11.  When the agent's stream ends with a [done] chunk, nothing is
    left streaming: no entry of the history is marked as streaming
    (given that none was before the turn), and the streaming and
    processing signals are off. *)
Theorem done_leaves_nothing_streaming (clock : nat -> Z) (userInput : string)
    (chunks : list StreamingChunk) (final : StreamingChunk) (st : ChatState) :
  Chunk.type final = done_t ->
  Forall (fun entry => is_streaming entry = false) (history st) ->
  let st' := processUserMessage clock userInput (chunks ++ [final]) None st in
  Forall (fun entry => is_streaming entry = false) (history st')
  /\ isStreaming st' = false
  /\ isProcessing st' = false.
Proof.
  intros Hdone Hclosed. cbv zeta. unfold processUserMessage.
  rewrite consume_snoc.
  match goal with
  | |- context [on_chunk clock final ?s] =>
      destruct (on_done_closes clock final s Hdone) as [Hh Hs]
  end.
  { apply consume_idle_means_closed. intros _.
    cbn [chat setIsStreaming setIsProcessing tick addEntry setHistory history].
    apply Forall_app. split; [exact Hclosed |]. repeat constructor. }
  cbn [setIsProcessing history isStreaming isProcessing].
  split; [exact Hh | split; [exact Hs | reflexivity]].
Qed.

(** A one-chunk answer and the end of the stream. *)
Lemma done_leaves_nothing_streaming_witness :
  let st' := processUserMessage (fun _ => 0) "hi" ([content_chunk "Hello"] ++ [done_chunk])
               None ChatProvider.initial in
  Forall (fun entry => is_streaming entry = false) (history st')
  /\ isStreaming st' = false
  /\ isProcessing st' = false.
Proof.
  apply (done_leaves_nothing_streaming (fun _ => 0) "hi" [content_chunk "Hello"] done_chunk
           ChatProvider.initial); [reflexivity | constructor].
Defined.

End Closing.

(** ** What the chat history displays *)

Section Display.

Import ChatHistory.

Lemma last_n_suffix {A} n (xs : list A) : exists hidden, xs = hidden ++ JsText.last_n n xs.
Proof. exists (firstn (length xs - n) xs). unfold JsText.last_n. symmetry. apply firstn_skipn. Qed.

Lemma last_n_length {A} n (xs : list A) : (length (JsText.last_n n xs) <= n)%nat.
Proof. unfold JsText.last_n. rewrite length_skipn. lia. Qed.

Lemma last_n_all {A} n (xs : list A) : (length xs <= n)%nat -> JsText.last_n n xs = xs.
Proof.
  intros H. unfold JsText.last_n. replace (length xs - n)%nat with 0%nat by lia. reflexivity.
Qed.

Lemma last_n_last {A} n (xs : list A) : (0 < n)%nat -> last (JsText.last_n n xs) = last xs.
Proof.
  intros Hn. unfold JsText.last_n.
  destruct (decide (length xs = 0)%nat) as [H0 | H0].
  - destruct xs; [reflexivity | discriminate H0].
  - rewrite !last_lookup, length_skipn. change skipn with (@drop A). rewrite lookup_drop.
    f_equal. lia.
Qed.

(** X12.  The chat history displays the latest entries: at most twenty,
    in their order, the end of the filtered history.  With no
    confirmation pending they are the end of the history itself (all of
    it when it has no more than twenty entries); while one is pending, no
    ["Executing..."] placeholder of a tool call is among them. *)
Theorem the_latest_entries_are_displayed (entries : list ChatEntry)
    (options : option ConfirmationOptions) :
  let shown := displayedEntries entries options in
  (length shown <= 20)%nat
  /\ sublist shown entries
  /\ (exists hidden, filteredEntries entries options = hidden ++ shown)
  /\ (options = None ->
      (exists older, entries = older ++ shown)
      /\ last shown = last entries
      /\ ((length entries <= 20)%nat -> shown = entries))
  /\ (is_Some options -> forall entry, In entry shown -> is_placeholder entry = false).
Proof.
  cbv zeta. unfold displayedEntries.
  split; [apply last_n_length |].
  split.
  { destruct (last_n_suffix 20 (filteredEntries entries options)) as [hidden Hh].
    transitivity (filteredEntries entries options).
    - rewrite Hh at 2. apply sublist_inserts_l. reflexivity.
    - unfold filteredEntries. destruct options; [apply filter_sublist | reflexivity]. }
  split; [apply last_n_suffix |].
  split.
  - intros ->. cbn [filteredEntries].
    split; [apply last_n_suffix |].
    split; [apply last_n_last; lia | apply last_n_all].
  - intros [opts ->] entry Hin. cbn [filteredEntries] in Hin.
    destruct (last_n_suffix 20 (List.filter (fun e => negb (is_placeholder e)) entries))
      as [hidden Hh].
    assert (In entry (List.filter (fun e => negb (is_placeholder e)) entries)) as Hf
      by (rewrite Hh; apply in_or_app; right; exact Hin).
    apply filter_In in Hf as [_ Hf]. apply negb_true_iff in Hf. exact Hf.
Qed.

(** One entry and no confirmation pending: the entry is displayed. *)
Lemma the_latest_entries_are_displayed_witness :
  let entry := {| Chat.type := user; Chat.content := "hello"; Chat.timestamp := 0;
                  Chat.isStreaming := None; Chat.toolCalls := None; Chat.toolCall := None;
                  Chat.toolResult := None |} in
  (exists older, [entry] = older ++ displayedEntries [entry] None)
  /\ last (displayedEntries [entry] None) = last [entry]
  /\ ((length [entry] <= 20)%nat -> displayedEntries [entry] None = [entry]).
Proof.
  cbv zeta.
  apply (the_latest_entries_are_displayed
           [ {| Chat.type := user; Chat.content := "hello"; Chat.timestamp := 0;
                Chat.isStreaming := None; Chat.toolCalls := None; Chat.toolCall := None;
                Chat.toolResult := None |} ] None).
  reflexivity.
Defined.



Lemma leading_le s : (leading s <= String.length s)%nat.
Proof.
  induction s as [| c s IH]; cbn [leading String.length]; [lia |].
  destruct (Js.is_whitespace c); lia.
Qed.

Lemma search_nonspace_leading i s :
  search_nonspace i s
  = if Nat.eqb (leading s) (String.length s) then -1 else i + Z.of_nat (leading s).
Proof.
  revert i. induction s as [| c s IH]; intros i; cbn [search_nonspace leading String.length];
    [reflexivity |].
  destruct (Js.is_whitespace c).
  - rewrite IH. cbn [Nat.eqb]. destruct (Nat.eqb (leading s) (String.length s)); [reflexivity | lia].
  - cbn [Nat.eqb]. lia.
Qed.

Lemma trimEnd_nonspace c s : Js.is_whitespace c = false -> Js.trimEnd (String c s) <> "".
Proof.
  intros Hc. cbn [Js.trimEnd]. destruct (Js.trimEnd s); [rewrite Hc |]; discriminate.
Qed.

Lemma trim_blank s : Js.trim s = "" <-> leading s = String.length s.
Proof.
  unfold Js.trim. induction s as [| c s IH]; cbn [Js.trimStart leading String.length].
  - split; reflexivity.
  - destruct (Js.is_whitespace c) eqn:Hc.
    + rewrite IH. lia.
    + split; [| discriminate]. intros H. exfalso. exact (trimEnd_nonspace c s Hc H).
Qed.

Lemma trimStart_drop n s :
  (n <= leading s)%nat -> Js.trimStart (JsText.drop n s) = Js.trimStart s.
Proof.
  revert s. induction n as [| n IH]; intros s Hn; [reflexivity |].
  destruct s as [| c s]; [reflexivity |].
  cbn [leading] in Hn. cbn [JsText.drop Js.trimStart].
  destruct (Js.is_whitespace c); [apply IH; lia | lia].
Qed.

Lemma trimStart_take n s : (n <= leading s)%nat -> Js.trimStart (JsText.take n s) = "".
Proof.
  revert s. induction n as [| n IH]; intros s Hn; [reflexivity |].
  destruct s as [| c s]; [reflexivity |].
  cbn [leading] in Hn. cbn [JsText.take Js.trimStart].
  destruct (Js.is_whitespace c); [apply IH; lia | lia].
Qed.

Lemma take_drop n s : JsText.take n s +:+ JsText.drop n s = s.
Proof.
  revert s. induction n as [| n IH]; intros s; [reflexivity |].
  destruct s as [| c s]; [reflexivity |].
  cbn [JsText.take JsText.drop]. rewrite append_cons, IH. reflexivity.
Qed.

Lemma drop_length n s : String.length (JsText.drop n s) = (String.length s - n)%nat.
Proof.
  revert s. induction n as [| n IH]; intros s; [cbn; lia |].
  destruct s as [| c s]; [reflexivity |]. cbn [JsText.drop String.length]. apply IH.
Qed.

Lemma drop_leading_flush s :
  leading s <> String.length s ->
  JsText.drop (leading s) s <> "" /\ Js.trimStart (JsText.drop (leading s) s) = JsText.drop (leading s) s.
Proof.
  induction s as [| c s IH]; cbn [leading String.length]; [contradiction |].
  destruct (Js.is_whitespace c) eqn:Hc.
  - intros H. cbn [JsText.drop]. apply IH. lia.
  - intros _. cbn [JsText.drop Js.trimStart]. rewrite Hc. split; [discriminate | reflexivity].
Qed.


Lemma narrow_spec acc line :
  narrow acc line
  = if Nat.eqb (leading line) (String.length line) then acc
    else match acc with
         | None => Some (Z.of_nat (leading line))
         | Some b => Some (Z.min b (Z.of_nat (leading line)))
         end.
Proof.
  unfold narrow. rewrite search_nonspace_leading.
  destruct (Nat.eqb (leading line) (String.length line)) eqn:Hblank.
  - apply Nat.eqb_eq, trim_blank in Hblank. rewrite Hblank. reflexivity.
  - destruct (String.eqb (Js.trim line) "") eqn:Ht.
    + apply String.eqb_eq, trim_blank, Nat.eqb_eq in Ht. congruence.
    + destruct (0 + Z.of_nat (leading line) =? -1) eqn:H1; [apply Z.eqb_eq in H1; lia |].
      rewrite Z.add_0_l. reflexivity.
Qed.


Lemma minimum_fold lines acc :
  match fold_left narrow lines acc with
  | None => acc = None /\ Forall (fun line => ~ nonblank line) lines
  | Some m =>
      Forall (fun line => nonblank line -> m <= Z.of_nat (leading line)) lines
      /\ (forall a, acc = Some a -> m <= a)
      /\ (acc = Some m \/ exists line, In line lines /\ nonblank line /\ Z.of_nat (leading line) = m)
  end.
Proof.
  revert acc. induction lines as [| line lines IH]; intros acc; cbn [fold_left].
  - destruct acc as [a |].
    + split; [constructor |]. split; [intros ? [= ->]; lia | left; reflexivity].
    + split; [reflexivity | constructor].
  - specialize (IH (narrow acc line)). rewrite narrow_spec in *.
    destruct (fold_left narrow lines _) as [m |].
    + destruct IH as (Hall & Hacc & Hatt).
      destruct (Nat.eqb (leading line) (String.length line)) eqn:Hblank.
      * apply Nat.eqb_eq in Hblank.
        split; [constructor; [intros H; contradiction | exact Hall] |].
        split; [exact Hacc |].
        destruct Hatt as [H | (l & Hin & Hl)]; [left; exact H | right; exists l; split; [right |]; tauto].
      * apply Nat.eqb_neq in Hblank.
        destruct acc as [a |].
        -- specialize (Hacc _ eq_refl).
           split; [constructor; [intros _; lia | exact Hall] |].
           split; [intros ? [= <-]; lia |].
           destruct Hatt as [[= Hm] | (l & Hin & Hl)].
           ++ destruct (Z.min_spec a (Z.of_nat (leading line))) as [[_ Hmin] | [_ Hmin]].
              ** left. f_equal. lia.
              ** right. exists line. split; [left; reflexivity |]. split; [exact Hblank | lia].
           ++ right. exists l. split; [right |]; tauto.
        -- specialize (Hacc _ eq_refl).
           split; [constructor; [intros _; lia | exact Hall] |].
           split; [intros ? [=] |].
           destruct Hatt as [[= Hm] | (l & Hin & Hl)].
           ++ right. exists line. split; [left; reflexivity |]. split; [exact Hblank | exact Hm].
           ++ right. exists l. split; [right |]; tauto.
    + destruct IH as [Hnone Hall].
      destruct (Nat.eqb (leading line) (String.length line)) eqn:Hblank.
      * apply Nat.eqb_eq in Hblank. split; [exact Hnone |].
        constructor; [intros H; apply H; exact Hblank | exact Hall].
      * destruct acc; discriminate Hnone.
Qed.


Lemma baseIndentation_spec lines :
  0 <= baseIndentation lines
  /\ Forall (fun line => nonblank line ->
                         baseIndentation lines <= Z.of_nat (leading line)) lines
  /\ ((exists line, In line lines /\ nonblank line) ->
      exists line, In line lines /\ nonblank line
                   /\ Z.of_nat (leading line) = baseIndentation lines).
Proof.
  unfold baseIndentation, minimum_indentation.
  pose proof (minimum_fold lines None) as H.
  destruct (fold_left narrow lines None) as [m |].
  - destruct H as (Hall & _ & Hatt).
    destruct Hatt as [H | (l & Hin & Hnb & Hl)]; [discriminate H |].
    split; [lia |]. split; [exact Hall |]. intros _. exists l. tauto.
  - destruct H as [_ Hall]. split; [lia |]. split.
    + eapply Forall_impl; [exact Hall |]. intros line Hb Hnb. contradiction.
    + intros (l & Hin & Hnb). rewrite Forall_forall in Hall.
      exfalso. apply (Hall l); [apply list_elem_of_In; exact Hin | exact Hnb].
Qed.


Lemma cut_le_leading b line :
  0 <= b -> (nonblank line -> b <= Z.of_nat (leading line)) ->
  (cut b line <= leading line)%nat.
Proof.
  intros Hb Hle. unfold cut, JsText.length.
  destruct (decide (leading line = String.length line)) as [Hblank | Hnb].
  - rewrite Hblank. lia.
  - specialize (Hle Hnb). pose proof (leading_le line). lia.
Qed.

(** X13.  [renderFileContent] removes indentation and nothing else: it
    keeps the number of lines; what it takes off the front of a line is
    white space only, so the trimmed text of every line is unchanged;
    from every line that is not blank it takes the same number of
    characters, the base indentation; and when some line is not blank,
    one of the rendered lines starts with its text. *)
Theorem renderFileContent_removes_only_indentation (content : string) :
  let lines := JsText.lines content in
  let shown := renderFileContent content in
  length shown = length lines
  /\ (forall i line, lines !! i = Some line ->
       exists indent rest,
         line = indent +:+ rest /\ shown !! i = Some rest
         /\ Js.trimStart indent = "" /\ Js.trim rest = Js.trim line
         /\ (Js.trim line <> "" ->
             JsText.length indent = ChatHistory.baseIndentation lines))
  /\ ((exists line, In line lines /\ Js.trim line <> "") ->
      exists rest, In rest shown /\ rest <> "" /\ Js.trimStart rest = rest).
Proof.
  cbv zeta. unfold renderFileContent.
  destruct (baseIndentation_spec (JsText.lines content)) as (Hb & Hall & Hatt).
  set (lines := JsText.lines content) in *.
  set (b := baseIndentation lines) in *.
  split; [apply length_fmap |]. split.
  - intros i line Hi.
    assert (Hle : nonblank line -> b <= Z.of_nat (leading line)).
    { rewrite Forall_forall in Hall. apply Hall. eapply list_elem_of_lookup_2. exact Hi. }
    pose proof (cut_le_leading b line Hb Hle) as Hcut.
    exists (JsText.take (cut b line) line), (JsText.drop (cut b line) line).
    split; [symmetry; apply take_drop |].
    split; [rewrite list_lookup_fmap, Hi; reflexivity |].
    split; [apply trimStart_take, Hcut |].
    split; [unfold Js.trim; rewrite trimStart_drop by exact Hcut; reflexivity |].
    intros Hnb.
    assert (nonblank line) as Hnb' by (intros H; apply Hnb, trim_blank, H).
    specialize (Hle Hnb'). pose proof (leading_le line) as Hlen.
    pose proof (take_drop (cut b line) line) as Hsplit.
    apply (f_equal String.length) in Hsplit.
    rewrite length_append, drop_length in Hsplit.
    unfold JsText.length. unfold cut, JsText.length in *. lia.
  - intros (line & Hin & Hnb).
    destruct Hatt as (l & Hl & Hnbl & Hlead).
    { exists line. split; [exact Hin |]. intros H. apply Hnb, trim_blank, H. }
    exists (JsText.substring_from l b).
    split; [apply in_map_iff; exists l; split; [reflexivity | exact Hl] |].
    unfold JsText.substring_from.
    replace (Z.to_nat (Z.min (Z.max b 0) (JsText.length l))) with (leading l).
    + apply drop_leading_flush, Hnbl.
    + pose proof (leading_le l). unfold JsText.length. lia.
Qed.

(** Two lines of a Python body, indented by four and by eight. *)
Lemma renderFileContent_removes_only_indentation_witness :
  let content := "    if x:" +:+ Js.LF +:+ "        return 1" in
  renderFileContent content = ["if x:"; "    return 1"]
  /\ exists rest, In rest (renderFileContent content) /\ rest <> "" /\ Js.trimStart rest = rest.
Proof.
  cbv zeta. split; [reflexivity |].
  apply (renderFileContent_removes_only_indentation
           ("    if x:" +:+ Js.LF +:+ "        return 1")).
  exists "    if x:". split; [left; reflexivity | vm_compute; discriminate].
Defined.

End Display.

(** ** The diff renderer *)

Section Diff.

Import DiffRenderer.

Lemma numbered_app_inv pre rest :
  forall o n, numbered o n (pre ++ rest) -> exists o' n', numbered o' n' rest.
Proof.
  induction pre as [| e pre IH]; intros o n H; [exists o, n; exact H |].
  cbn [app numbered] in H.
  destruct (type e).
  - destruct H as (_ & _ & H). exact (IH _ _ H).
  - destruct H as (_ & _ & H). exact (IH _ _ H).
  - destruct H as (_ & _ & H). exact (IH _ _ H).
  - destruct H as (_ & _ & old & new & _ & H). exact (IH _ _ H).
  - destruct H as (_ & _ & H). exact (IH _ _ H).
Qed.

Lemma count_before_O side body : count_before side 0 body = 0.
Proof. unfold count_before. destruct body; reflexivity. Qed.

Lemma count_before_S side k e body :
  count_before side (S k) (e :: body)
  = (if side e then 1 else 0) + count_before side k body.
Proof.
  unfold count_before, JsText.count. cbn [take List.filter].
  destruct (side e); cbn [length]; lia.
Qed.

Lemma numbered_counts body post :
  Forall (fun e => type e <> hunk) body ->
  forall o n, numbered o n (body ++ post) ->
  forall k e, body !! k = Some e ->
    oldLine e = (if on_old_side e then Some (o + 1 + count_before on_old_side k body) else None)
    /\ newLine e = (if on_new_side e then Some (n + 1 + count_before on_new_side k body) else None).
Proof.
  induction 1 as [| e0 body Hnh Hall IH]; intros o n Hnum k e Hk; [discriminate Hk |].
  cbn [app numbered] in Hnum.
  destruct k as [| k].
  - injection Hk as <-. rewrite !count_before_O, !Z.add_0_r.
    unfold on_old_side, on_new_side.
    destruct (type e0); try contradiction;
      destruct Hnum as (Ho & Hn & _); rewrite Ho, Hn; split; reflexivity.
  - cbn [lookup list_lookup] in Hk. rewrite !count_before_S.
    unfold on_old_side at 2, on_new_side at 2.
    destruct (type e0); try contradiction;
      destruct Hnum as (_ & _ & Hnum);
      destruct (IH _ _ Hnum k e Hk) as (Ho & Hn); rewrite Ho, Hn;
      (split; [destruct (on_old_side e) | destruct (on_new_side e)]);
      try reflexivity; f_equal; lia.
Qed.

(** What one line adds to the result. *)
Lemma step_adds p line :
  exists new,
    result (step p line) = result p ++ new
    /\ (forall rest, numbered (currentOldLine (step p line)) (currentNewLine (step p line)) rest ->
                     numbered (currentOldLine p) (currentNewLine p) (new ++ rest))
    /\ (inHunk p = true -> inHunk (step p line) = true)
    /\ (is_hunk_header line = true -> inHunk (step p line) = true)
    /\ (inHunk p = false -> is_hunk_header line = false -> step p line = p)
    /\ (inHunk (step p line) = true ->
        if is_change line then
          exists e, List.filter displayable new = [e]
                    /\ content e = JsText.substring_from line 1
                    /\ match type e with
                       | add => Js.startsWith "+" line = true
                       | del => Js.startsWith "-" line = true
                       | context => Js.startsWith " " line = true
                       | _ => False
                       end
        else List.filter displayable new = []).
Proof.
  unfold step, is_change, is_hunk_header.
  destruct (hunkHeaderRegex line) as [[old new] |] eqn:Hh.
  - eexists. split; [reflexivity |]. cbn.
    split; [| repeat split; try reflexivity; intros; discriminate].
    intros rest Hnum. rewrite Hh. repeat split. exists old, new. split; [reflexivity | exact Hnum].
  - destruct (inHunk p) eqn:Hin; cbn [negb].
    + destruct (Js.startsWith "+" line) eqn:Hadd;
        [| destruct (Js.startsWith "-" line) eqn:Hdel;
           [| destruct (Js.startsWith " " line) eqn:Hctx;
              [| destruct (Js.startsWith BACKSLASH line) eqn:Hbs]]].
      all: cbn [result currentOldLine currentNewLine inHunk].
      all: try (eexists; split; [reflexivity |]).
      5: exists []; split; [symmetry; apply app_nil_r |].
      all: split; [intros rest Hnum; cbn; try (repeat split; exact Hnum); exact Hnum |].
      all: split; [intros; try reflexivity; assumption |].
      all: split; [intros; discriminate |].
      all: split; [intros; discriminate |].
      all: intros _; cbn [negb andb orb List.filter displayable type content]; try reflexivity.
      all: eexists; split; [reflexivity |]; cbn [type content];
        split; [reflexivity | reflexivity].
    + exists []. split; [symmetry; apply app_nil_r |].
      split; [intros rest Hnum; exact Hnum |].
      split; [intros; discriminate |].
      split; [intros; discriminate |].
      split; [intros; reflexivity |]. intros H. rewrite Hin in H. discriminate H.
Qed.

Lemma parser_shape ls :
  forall p, exists tail,
    result (fold_left step ls p) = result p ++ tail
    /\ numbered (currentOldLine p) (currentNewLine p) tail
    /\ Forall2 change_of (List.filter displayable tail)
         (List.filter is_change (if inHunk p then ls else after_first_header ls)).
Proof.
  induction ls as [| line ls IH]; intros p.
  { exists []. split; [symmetry; apply app_nil_r |]. split; [exact I |].
    destruct (inHunk p); constructor. }
  cbn [fold_left].
  destruct (step_adds p line) as (new & Hres & Hnum & Hkeep & Hhdr & Hsame & Hdisp).
  destruct (inHunk p) eqn:Hin.
  - destruct (IH (step p line)) as (tail & Htail & Hnumt & Hall).
    rewrite (Hkeep eq_refl) in Hall. specialize (Hdisp (Hkeep eq_refl)).
    exists (new ++ tail). rewrite Htail, Hres, app_assoc. split; [reflexivity |].
    split; [apply Hnum, Hnumt |].
    rewrite List.filter_app. cbn [List.filter].
    destruct (is_change line).
    + destruct Hdisp as (e & -> & He). cbn [app]. constructor; [exact He | exact Hall].
    + rewrite Hdisp. exact Hall.
  - cbn [after_first_header].
    destruct (is_hunk_header line) eqn:Hh.
    + destruct (IH (step p line)) as (tail & Htail & Hnumt & Hall).
      rewrite (Hhdr eq_refl) in Hall. specialize (Hdisp (Hhdr eq_refl)).
      exists (new ++ tail). rewrite Htail, Hres, app_assoc. split; [reflexivity |].
      split; [apply Hnum, Hnumt |].
      rewrite List.filter_app.
      unfold is_change in Hdisp. rewrite Hh in Hdisp. cbn [negb andb] in Hdisp.
      rewrite Hdisp. exact Hall.
    + rewrite (Hsame eq_refl eq_refl).
      destruct (IH p) as (tail & Htail & Hnumt & Hall). rewrite Hin in Hall.
      exists tail. split; [exact Htail |]. split; [exact Hnumt | exact Hall].
Qed.

Lemma parse_shape diffContent :
  numbered 0 0 (parseDiffWithLineNumbers diffContent)
  /\ Forall2 change_of (List.filter displayable (parseDiffWithLineNumbers diffContent))
       (List.filter is_change (after_first_header (JsText.lines diffContent))).
Proof.
  unfold parseDiffWithLineNumbers.
  destruct (parser_shape (JsText.lines diffContent)
              {| result := []; currentOldLine := 0; currentNewLine := 0; inHunk := false |})
    as (tail & Htail & Hnum & Hall).
  rewrite Htail. cbn [result app]. split; [exact Hnum | exact Hall].
Qed.

(** X14.  The lines of a hunk are numbered from its header.  Of the
    entries [parseDiffWithLineNumbers] returns, those between a hunk
    header [@@ -a,b +c,d @@] and the next one carry consecutive numbers:
    the deleted and the context lines count the old file from [a], the
    added and the context lines count the new file from [c]; an added
    line has no old number, a deleted line no new one, and the entry of
    a header is the header line itself.  (Numbers below 2^53, where the
    arithmetic of JavaScript is exact.) *)
Theorem hunk_lines_are_numbered_from_the_header (diffContent : string)
    (pre body post : list DiffLine) (h : DiffLine) :
  parseDiffWithLineNumbers diffContent = pre ++ h :: body ++ post ->
  type h = hunk ->
  Forall (fun e => type e <> hunk) body ->
  exists old new,
    hunkHeaderRegex (content h) = Some (old, new)
    /\ (parseInt old + JsText.count body < 2 ^ 53 ->
        parseInt new + JsText.count body < 2 ^ 53 ->
        forall k e, body !! k = Some e ->
          oldLine e = (if on_old_side e
                       then Some (parseInt old + count_before on_old_side k body) else None)
          /\ newLine e = (if on_new_side e
                          then Some (parseInt new + count_before on_new_side k body) else None)).
Proof.
  intros Hparse Hh Hbody.
  destruct (parse_shape diffContent) as [Hnum _]. rewrite Hparse in Hnum.
  apply numbered_app_inv in Hnum. destruct Hnum as (o & n & Hnum).
  cbn [numbered] in Hnum. rewrite Hh in Hnum.
  destruct Hnum as (_ & _ & old & new & Hhdr & Hnum).
  exists old, new. split; [exact Hhdr |]. intros _ _ k e Hk.
  destruct (numbered_counts body post Hbody _ _ Hnum k e Hk) as [Ho Hn].
  rewrite Ho, Hn.
  split; [destruct (on_old_side e) | destruct (on_new_side e)];
    try reflexivity; f_equal; lia.
Qed.

(** A hunk of four lines that starts at line 3 of the old file and at
    line 7 of the new one. *)
Lemma hunk_lines_are_numbered_from_the_header_witness :
  let diffContent := "@@ -3,2 +7,3 @@" +:+ Js.LF +:+ " ctx" +:+ Js.LF +:+ "-old" +:+ Js.LF
                     +:+ "+new" +:+ Js.LF +:+ "+more" in
  let h := {| type := hunk; oldLine := None; newLine := None; content := "@@ -3,2 +7,3 @@" |} in
  let body := [ {| type := context; oldLine := Some 3; newLine := Some 7; content := "ctx" |};
                {| type := del; oldLine := Some 4; newLine := None; content := "old" |};
                {| type := add; oldLine := None; newLine := Some 8; content := "new" |};
                {| type := add; oldLine := None; newLine := Some 9; content := "more" |} ] in
  parseDiffWithLineNumbers diffContent = h :: body
  /\ exists old new,
       hunkHeaderRegex (content h) = Some (old, new)
       /\ (parseInt old + JsText.count body < 2 ^ 53 ->
           parseInt new + JsText.count body < 2 ^ 53 ->
           forall k e, body !! k = Some e ->
             oldLine e = (if on_old_side e
                          then Some (parseInt old + count_before on_old_side k body) else None)
             /\ newLine e = (if on_new_side e
                             then Some (parseInt new + count_before on_new_side k body)
                             else None)).
Proof.
  cbv zeta. split; [reflexivity |].
  apply (hunk_lines_are_numbered_from_the_header
           ("@@ -3,2 +7,3 @@" +:+ Js.LF +:+ " ctx" +:+ Js.LF +:+ "-old" +:+ Js.LF
            +:+ "+new" +:+ Js.LF +:+ "+more")
           []
           [ {| type := context; oldLine := Some 3; newLine := Some 7; content := "ctx" |};
             {| type := del; oldLine := Some 4; newLine := None; content := "old" |};
             {| type := add; oldLine := None; newLine := Some 8; content := "new" |};
             {| type := add; oldLine := None; newLine := Some 9; content := "more" |} ]
           []
           {| type := hunk; oldLine := None; newLine := None; content := "@@ -3,2 +7,3 @@" |}).
  - reflexivity.
  - reflexivity.
  - repeat constructor; discriminate.
Defined.

Lemma filter_displayable_fmap (f : DiffLine -> DiffLine) xs :
  (forall x, type (f x) = type x) ->
  List.filter displayable (f <$> xs) = f <$> List.filter displayable xs.
Proof.
  intros Hf. induction xs as [| x xs IH]; [reflexivity |].
  cbn [fmap list_fmap List.filter]. rewrite IH.
  assert (displayable (f x) = displayable x) as -> by (unfold displayable; rewrite Hf; reflexivity).
  destruct (displayable x); reflexivity.
Qed.

Lemma fold_narrow_content ds :
  forall acc,
    fold_left (fun b line => ChatHistory.narrow b (content line)) ds acc
    = fold_left ChatHistory.narrow (content <$> ds) acc.
Proof. induction ds as [| d ds IH]; intros acc; [reflexivity | apply IH]. Qed.

Lemma rows_show spaces (data : ParsedData) :
  0 <= baseIndentation data ->
  forall ds changes,
    Forall2 change_of ds changes ->
    Forall (fun e => nonblank (replace_tabs spaces (content e)) ->
                     baseIndentation data
                     <= Z.of_nat (leading (replace_tabs spaces (content e)))) ds ->
    Forall2 (shows spaces (baseIndentation data))
      (omap (row data)
         ((fun line => {| type := type line; oldLine := oldLine line; newLine := newLine line;
                          content := replace_tabs spaces (content line) |}) <$> ds))
      changes.
Proof.
  intros Hb ds changes H. induction H as [| e line ds changes [Hc Ht] Hrest IH]; intros Hall.
  { constructor. }
  apply Forall_cons in Hall. destruct Hall as [Hle Hall].
  cbn [fmap list_fmap omap list_omap].
  assert (Hshow : forall text,
            exists indent,
              text = indent +:+ JsText.substring_from text (baseIndentation data)
              /\ (((nonblank text -> baseIndentation data <= Z.of_nat (leading text)) ->
                   Js.trimStart indent = ""
                   /\ (Js.trim (JsText.substring_from text (baseIndentation data)) <> "" ->
                       JsText.length indent = baseIndentation data)))).
  { intros text.
    exists (JsText.take (cut (baseIndentation data) text) text).
    split; [symmetry; apply take_drop |]. intros Hle'.
    pose proof (cut_le_leading _ text Hb Hle') as Hcut.
    split; [apply trimStart_take, Hcut |].
    unfold JsText.substring_from. fold (cut (baseIndentation data) text).
    unfold Js.trim. rewrite trimStart_drop by exact Hcut. intros Hnb.
    assert (nonblank text) as Hnb' by (intros H; apply Hnb, trim_blank, H).
    specialize (Hle' Hnb'). pose proof (leading_le text) as Hlen.
    pose proof (take_drop (cut (baseIndentation data) text) text) as Hsplit.
    apply (f_equal String.length) in Hsplit.
    rewrite length_append, drop_length in Hsplit.
    unfold cut, JsText.length in *. lia. }
  unfold row at 1. cbn [type content newLine oldLine].
  destruct (Hshow (replace_tabs spaces (content e))) as (indent & Hsplit & Hind).
  destruct (Hind Hle) as [Hws Hlen].
  destruct (type e); try contradiction.
  all: constructor; [| apply IH, Hall].
  all: split; [reflexivity |]; split; [exact Ht |].
  all: exists indent; cbn [displayContent]; rewrite <- Hc.
  all: split; [exact Hsplit |]; split; [exact Hws | exact Hlen].
Qed.

(** X15.  The diff renderer shows the changes of the hunks and nothing
    else.  Its rows are, in order, the lines of the diff that come after
    the first hunk header, are no hunk header themselves and start with
    [+], [-] or a space; whatever stands before the first header, and any
    other line, is not shown, and a diff without such a line shows "No
    changes detected."  A row has the first character of its line as its
    symbol, and as its text the rest of the line with every tab replaced
    by [tabWidth] spaces and an indentation removed that is white space
    only and the same on every row that is not blank. *)
Theorem the_diff_shows_the_changes_of_its_hunks (props : DiffRendererProps) :
  0 <= default DEFAULT_TAB_WIDTH (tabWidth props) ->
  let changes :=
    List.filter is_change
      (after_first_header (JsText.lines (actualDiffContent (diffContent props)))) in
  exists spaces,
    repeat_space (default DEFAULT_TAB_WIDTH (tabWidth props)) = Some spaces
    /\ match changes with
       | [] => render props = Some NoChanges
       | _ => exists rows b, render props = Some (Rows rows)
                             /\ Forall2 (shows spaces b) rows changes
       end.
Proof.
  intros Hw. cbv zeta. unfold render, parsedData, repeat_space.
  destruct (default DEFAULT_TAB_WIDTH (tabWidth props) <? 0) eqn:Hneg;
    [apply Z.ltb_lt in Hneg; lia |].
  eexists. split; [reflexivity |].
  set (spaces := Nat.iter _ _ _).
  destruct (String.eqb (diffContent props) "") eqn:He.
  { apply String.eqb_eq in He. rewrite He. reflexivity. }
  destruct (parse_shape (actualDiffContent (diffContent props))) as [_ Hall].
  set (changes := List.filter is_change _) in *.
  set (parsed := parseDiffWithLineNumbers _) in *.
  set (norm := fun line : DiffLine =>
                 {| type := type line; oldLine := oldLine line; newLine := newLine line;
                    content := replace_tabs spaces (content line) |}).
  set (shown := List.filter displayable (norm <$> parsed)).
  set (data := {| lines := shown;
                  baseIndentation := ChatHistory.baseIndentation (content <$> shown) |}).
  match goal with
  | |- match changes with [] => ?l = _ | _ :: _ => _ end =>
      assert (Hrender : l = match shown with
                            | [] => Some NoChanges
                            | _ => Some (Rows (omap (row data) shown))
                            end)
  end.
  { unfold data, ChatHistory.baseIndentation, ChatHistory.minimum_indentation.
    rewrite <- fold_narrow_content.
    assert (Hnorm : match parsed with
                    | [] => Some []
                    | _ :: _ => Some (norm <$> parsed)
                    end = Some (norm <$> parsed)) by (destruct parsed; reflexivity).
    rewrite Hnorm. fold shown. cbn [lines]. destruct shown; reflexivity. }
  rewrite Hrender. clear Hrender.
  assert (Hshown : shown = norm <$> List.filter displayable parsed)
    by (apply filter_displayable_fmap; reflexivity).
  destruct Hall as [| e line ds' changes' He1 Hrest].
  { rewrite Hshown. reflexivity. }
  exists (omap (row data) shown), (baseIndentation data).
  split; [rewrite Hshown; reflexivity |].
  rewrite Hshown at 1.
  destruct (baseIndentation_spec (content <$> shown)) as (Hb & Hle & _).
  apply (rows_show spaces data).
  - exact Hb.
  - constructor; assumption.
  - rewrite Forall_forall in Hle. apply Forall_forall. intros x Hx Hnb.
    apply (Hle (replace_tabs spaces (content x))); [| exact Hnb].
    apply list_elem_of_fmap. exists (norm x). split; [reflexivity |].
    rewrite Hshown. apply list_elem_of_fmap. exists x. split; [reflexivity | exact Hx].
Qed.

(** A diff of two files: the summary line and the file header before the
    first hunk are not shown, the file header of the second file is
    shown as a deleted line. *)
Lemma the_diff_shows_the_changes_of_its_hunks_witness :
  let props :=
    {| diffContent := "Updated f.txt with 1 addition" +:+ Js.LF +:+ "--- a/f.txt" +:+ Js.LF
                      +:+ "+++ b/f.txt" +:+ Js.LF +:+ "@@ -1,2 +1,2 @@" +:+ Js.LF
                      +:+ "   keep" +:+ Js.LF +:+ "-  old" +:+ Js.LF +:+ "+  new" +:+ Js.LF
                      +:+ "--- a/g.txt";
       tabWidth := None |} in
  render props
  = Some (Rows [ {| gutter := "1   "; backgroundColor := None; prefixSymbol := " ";
                    dim := true; displayContent := "  keep" |};
                 {| gutter := "2   "; backgroundColor := Some "#fca5a5"; prefixSymbol := "-";
                    dim := false; displayContent := "  old" |};
                 {| gutter := "2   "; backgroundColor := Some "#86efac"; prefixSymbol := "+";
                    dim := false; displayContent := "  new" |};
                 {| gutter := "3   "; backgroundColor := Some "#fca5a5"; prefixSymbol := "-";
                    dim := false; displayContent := "-- a/g.txt" |} ])
  /\ exists spaces,
       repeat_space 4 = Some spaces
       /\ exists rows b,
            render props = Some (Rows rows)
            /\ Forall2 (shows spaces b) rows ["   keep"; "-  old"; "+  new"; "--- a/g.txt"].
Proof.
  cbv zeta. split; [reflexivity |].
  apply (the_diff_shows_the_changes_of_its_hunks
           {| diffContent := "Updated f.txt with 1 addition" +:+ Js.LF +:+ "--- a/f.txt" +:+ Js.LF
                             +:+ "+++ b/f.txt" +:+ Js.LF +:+ "@@ -1,2 +1,2 @@" +:+ Js.LF
                             +:+ "   keep" +:+ Js.LF +:+ "-  old" +:+ Js.LF +:+ "+  new" +:+ Js.LF
                             +:+ "--- a/g.txt";
              tabWidth := None |}).
  vm_compute. discriminate.
Defined.

End Diff.

(** ** The confirmation dialog *)

Section Dialog.

Import ConfirmationDialog.

Lemma typing_accumulates keys :
  forall w,
    ConfirmationProvider.options (ConfirmationProvider.signals (provider w)) <> None ->
    feedbackMode (dialog w) = true ->
    forallb types_text keys = true ->
    press keys w
    = {| dialog := {| selectedOption := selectedOption (dialog w); feedbackMode := true;
                      feedback := feedback (dialog w) +:+ Js.concat (sequence <$> keys) |};
         provider := provider w; chat := chat w |}.
Proof.
  unfold press.
  induction keys as [| key keys IH]; intros w Hopen Hmode Hkeys.
  - cbn [fold_left fmap list_fmap Js.concat fold_right]. rewrite append_empty_r.
    destruct w as [[sel mode fb] prov ch]. cbn in *. subst mode. reflexivity.
  - cbn [forallb] in Hkeys. apply andb_prop in Hkeys. destruct Hkeys as [Hkey Hkeys].
    cbn [fold_left].
    assert (Hstep : onKey key w
                    = {| dialog := {| selectedOption := selectedOption (dialog w);
                                      feedbackMode := true;
                                      feedback := feedback (dialog w) +:+ sequence key |};
                         provider := provider w; chat := chat w |}).
    { unfold onKey, types_text in *.
      destruct (ConfirmationProvider.options (ConfirmationProvider.signals (provider w)));
        [| contradiction].
      rewrite Hmode.
      destruct (String.eqb (name key) "return"); [discriminate Hkey |].
      destruct (String.eqb (name key) "backspace"); [discriminate Hkey |].
      destruct (String.eqb (name key) "escape"); [discriminate Hkey |].
      cbn [negb andb] in Hkey. rewrite Hkey. reflexivity. }
    rewrite Hstep. rewrite IH; [| exact Hopen | reflexivity | exact Hkeys].
    cbn [dialog provider chat selectedOption feedback fmap list_fmap Js.concat fold_right].
    rewrite append_assoc. reflexivity.
Qed.

(** X16.  Feedback is delivered as typed, trimmed.  While a confirmation
    is pending and the dialog is in feedback mode, typing keys append
    their text to the feedback and decide nothing; Return then rejects
    the operation with the whole text, trimmed, as feedback, closes the
    dialog, clears the feedback and resets the chat's processing
    signals. *)
Theorem typed_feedback_is_delivered_trimmed (keys : list Key) (w : World) :
  ConfirmationProvider.options (ConfirmationProvider.signals (provider w)) <> None ->
  feedbackMode (dialog w) = true ->
  forallb types_text keys = true ->
  let typed := feedback (dialog w) +:+ Js.concat (sequence <$> keys) in
  provider (press keys w) = provider w
  /\ feedback (dialog (press keys w)) = typed
  /\ let w' := press (keys ++ [named "return"]) w in
     provider w' = ConfirmationProvider.reject (Some (Js.trim typed)) (provider w)
     /\ ConfirmationProvider.options (ConfirmationProvider.signals (provider w')) = None
     /\ feedback (dialog w') = ""
     /\ feedbackMode (dialog w') = false
     /\ ChatProvider.isProcessing (chat w') = false
     /\ ChatProvider.isStreaming (chat w') = false.
Proof.
  intros Hopen Hmode Hkeys. cbv zeta.
  pose proof (typing_accumulates keys w Hopen Hmode Hkeys) as Htyped.
  rewrite Htyped. cbn [provider dialog feedback].
  split; [reflexivity |]. split; [reflexivity |].
  unfold press in *. rewrite fold_left_app, Htyped. cbn [fold_left].
  unfold onKey. cbn [provider dialog feedbackMode feedback chat selectedOption].
  destruct (ConfirmationProvider.options (ConfirmationProvider.signals (provider w)));
    [| contradiction].
  cbn. repeat split; reflexivity.
Qed.

(** The human chooses "No, with feedback" for [systemctl stop nginx],
    types [no ] and presses Return: the feedback is [no]. *)
Lemma typed_feedback_is_delivered_trimmed_witness :
  let w := press (named <$> ["down"; "down"; "down"; "return"]) asked_to_stop_nginx in
  let keys := [ {| name := "n"; shift := false; ctrl := false; meta := false; sequence := "n" |};
                {| name := "o"; shift := false; ctrl := false; meta := false; sequence := "o" |};
                {| name := "space"; shift := false; ctrl := false; meta := false;
                   sequence := " " |} ] in
  Js.trim (feedback (dialog w) +:+ Js.concat (sequence <$> keys)) = "no"
  /\ let typed := feedback (dialog w) +:+ Js.concat (sequence <$> keys) in
     provider (press keys w) = provider w
     /\ feedback (dialog (press keys w)) = typed
     /\ let w' := press (keys ++ [named "return"]) w in
        provider w' = ConfirmationProvider.reject (Some (Js.trim typed)) (provider w)
        /\ ConfirmationProvider.options (ConfirmationProvider.signals (provider w')) = None
        /\ feedback (dialog w') = ""
        /\ feedbackMode (dialog w') = false
        /\ ChatProvider.isProcessing (chat w') = false
        /\ ChatProvider.isStreaming (chat w') = false.
Proof.
  split; [vm_compute; reflexivity |].
  refine (typed_feedback_is_delivered_trimmed
            [ {| name := "n"; shift := false; ctrl := false; meta := false; sequence := "n" |};
              {| name := "o"; shift := false; ctrl := false; meta := false; sequence := "o" |};
              {| name := "space"; shift := false; ctrl := false; meta := false;
                 sequence := " " |} ]
            (press (named <$> ["down"; "down"; "down"; "return"]) asked_to_stop_nginx)
            _ _ _).
  - vm_compute. discriminate.
  - vm_compute. reflexivity.
  - vm_compute. reflexivity.
Defined.

Lemma onKey_selection key w :
  (selectedOption (dialog w) < options_length)%nat ->
  (selectedOption (dialog (onKey key w)) < options_length)%nat.
Proof.
  intros Hsel. unfold onKey, options_length in *.
  destruct (ConfirmationProvider.options (ConfirmationProvider.signals (provider w)));
    [| exact Hsel].
  repeat match goal with
         | |- context [if ?b then _ else _] => destruct b
         end; cbn [dialog selectedOption]; try exact Hsel.
  - destruct (selectedOption (dialog w)); lia.
  - apply Nat.mod_upper_bound. discriminate.
  - destruct (selectedOption (dialog w)) as [| [| [| ?]]] eqn:Hn;
      cbn [dialog selectedOption]; rewrite ?Hn; lia.
Qed.

Lemma onKey_undecided key w :
  decides key = false -> provider (onKey key w) = provider w /\ chat (onKey key w) = chat w.
Proof.
  unfold decides, onKey. intros Hkey. apply orb_false_elim in Hkey. destruct Hkey as [Hr He].
  rewrite Hr, He.
  destruct (ConfirmationProvider.options (ConfirmationProvider.signals (provider w)));
    [| split; reflexivity].
  repeat match goal with
         | |- context [if ?b then _ else _] => destruct b
         end; split; reflexivity.
Qed.

Lemma down_step w :
  ConfirmationProvider.options (ConfirmationProvider.signals (provider w)) <> None ->
  feedbackMode (dialog w) = false ->
  onKey (named "down") w
  = {| dialog := {| selectedOption := (S (selectedOption (dialog w)) mod options_length)%nat;
                    feedbackMode := false; feedback := feedback (dialog w) |};
       provider := provider w; chat := chat w |}.
Proof.
  intros Hopen Hmode. unfold onKey.
  destruct (ConfirmationProvider.options (ConfirmationProvider.signals (provider w)));
    [| contradiction].
  rewrite Hmode. reflexivity.
Qed.

Lemma up_step w :
  ConfirmationProvider.options (ConfirmationProvider.signals (provider w)) <> None ->
  feedbackMode (dialog w) = false ->
  onKey (named "up") w
  = {| dialog := {| selectedOption := match selectedOption (dialog w) with
                                      | O => (options_length - 1)%nat
                                      | S prev => prev
                                      end;
                    feedbackMode := false; feedback := feedback (dialog w) |};
       provider := provider w; chat := chat w |}.
Proof.
  intros Hopen Hmode. unfold onKey.
  destruct (ConfirmationProvider.options (ConfirmationProvider.signals (provider w)));
    [| contradiction].
  rewrite Hmode. reflexivity.
Qed.

(** X17.  Only Return and Escape decide.  Whatever keys are pressed, the
    selected option stays one of the four; and keys other than Return and
    Escape leave the pending confirmation and the chat as they are.
    Pressing Down four times, or Down and then Up, comes back to the
    option that was selected. *)
Theorem only_return_and_escape_decide (keys : list Key) (w : World) :
  (selectedOption (dialog w) < options_length)%nat ->
  (selectedOption (dialog (press keys w)) < options_length)%nat
  /\ (forallb (fun key => negb (decides key)) keys = true ->
      provider (press keys w) = provider w /\ chat (press keys w) = chat w)
  /\ (ConfirmationProvider.options (ConfirmationProvider.signals (provider w)) <> None ->
      feedbackMode (dialog w) = false ->
      selectedOption (dialog (press (named <$> ["down"; "down"; "down"; "down"]) w))
      = selectedOption (dialog w)
      /\ selectedOption (dialog (press (named <$> ["down"; "up"]) w))
         = selectedOption (dialog w)
      /\ selectedOption (dialog (press (named <$> ["up"; "down"]) w))
         = selectedOption (dialog w)).
Proof.
  intros Hsel. split; [| split].
  - revert w Hsel. unfold press.
    induction keys as [| key keys IH]; intros w Hsel; [exact Hsel |].
    cbn [fold_left]. apply IH, onKey_selection, Hsel.
  - revert w Hsel. unfold press.
    induction keys as [| key keys IH]; intros w Hsel Hkeys; [split; reflexivity |].
    cbn [forallb] in Hkeys. apply andb_prop in Hkeys. destruct Hkeys as [Hkey Hkeys].
    apply negb_true_iff in Hkey.
    cbn [fold_left].
    destruct (IH (onKey key w) (onKey_selection key w Hsel) Hkeys) as [Hp Hc].
    destruct (onKey_undecided key w Hkey) as [Hp' Hc'].
    rewrite Hp, Hc, Hp', Hc'. split; reflexivity.
  - intros Hopen Hmode. unfold press. cbn [fmap list_fmap fold_left].
    repeat match goal with
           | |- context [onKey (named ?key) ?x] =>
               lazymatch x with
               | context [onKey] => fail
               | _ =>
                   first [ rewrite (down_step x) | rewrite (up_step x) ];
                   [| cbn [provider dialog feedbackMode];
                      first [exact Hopen | exact Hmode | reflexivity] ..]
               end
           end.
    cbn [dialog selectedOption]. unfold options_length in *.
    destruct (selectedOption (dialog w)) as [| [| [| [| ?]]]]; try lia;
      repeat split; reflexivity.
Qed.

(** Moving the selection and typing a letter decide nothing for
    [systemctl stop nginx]. *)
Lemma only_return_and_escape_decide_witness :
  let keys := named <$> ["down"; "tab"; "up"; "x"] in
  (selectedOption (dialog (press keys asked_to_stop_nginx)) < options_length)%nat
  /\ (forallb (fun key => negb (decides key)) keys = true ->
      provider (press keys asked_to_stop_nginx) = provider asked_to_stop_nginx
      /\ chat (press keys asked_to_stop_nginx) = chat asked_to_stop_nginx)
  /\ (ConfirmationProvider.options
         (ConfirmationProvider.signals (provider asked_to_stop_nginx)) <> None ->
      feedbackMode (dialog asked_to_stop_nginx) = false ->
      selectedOption
        (dialog (press (named <$> ["down"; "down"; "down"; "down"]) asked_to_stop_nginx))
      = selectedOption (dialog asked_to_stop_nginx)
      /\ selectedOption (dialog (press (named <$> ["down"; "up"]) asked_to_stop_nginx))
         = selectedOption (dialog asked_to_stop_nginx)
      /\ selectedOption (dialog (press (named <$> ["up"; "down"]) asked_to_stop_nginx))
         = selectedOption (dialog asked_to_stop_nginx)).
Proof.
  refine (only_return_and_escape_decide (named <$> ["down"; "tab"; "up"; "x"])
            asked_to_stop_nginx _).
  vm_compute. lia.
Defined.

End Dialog.

(** ** The exit status of the headless drivers *)

Section ExitStatus.

Import Headless.

Lemma stays_bind {A B} (m : M A) (k : A -> M B) :
  stays m -> (forall a, stays (k a)) -> stays (bind m k).
Proof.
  intros Hm Hk env fl past code. unfold bind.
  specialize (Hm env fl past).
  destruct (m env fl past) as [[a | e | c] fl1 ev1]; cbn [completion] in *.
  - specialize (Hk a env fl1 (past ++ ev1) code).
    destruct (k a env fl1 (past ++ ev1)) as [c2 fl2 ev2]. exact Hk.
  - discriminate.
  - exfalso. exact (Hm c eq_refl).
Qed.

Lemma stays_invoke call : stays (invoke call).
Proof.
  intros env fl past code.
  destruct (invoke_contract call env fl past) as [(r & Hr & _) _]. rewrite Hr. discriminate.
Qed.

Lemma stays_executeBashCommand command : stays (GrokAgent.executeBashCommand command).
Proof.
  intros env fl past code. unfold GrokAgent.executeBashCommand. run_m; discriminate.
Qed.

Lemma stays_run r : stays (GrokAgent.run r).
Proof.
  induction r as [entries | e | call next IH | command next IH]; cbn [GrokAgent.run].
  - intros env fl past code. discriminate.
  - intros env fl past code. discriminate.
  - apply stays_bind; [apply stays_invoke | exact IH].
  - apply stays_bind; [apply stays_executeBashCommand | exact IH].
Qed.

Lemma stays_log line : stays (console_log line).
Proof. intros env fl past code. discriminate. Qed.


Lemma reports_bind {A B} (m : M A) (k : A -> M B) :
  stays m -> (forall a, reports (k a)) -> reports (bind m k).
Proof.
  intros Hm Hk env fl past. unfold bind.
  specialize (Hm env fl past).
  destruct (m env fl past) as [[a | e | c] fl1 ev1]; cbn [completion] in *.
  - specialize (Hk a env fl1 (past ++ ev1)).
    destruct (k a env fl1 (past ++ ev1)) as [[b | e | c] fl2 ev2];
      cbn [completion emitted] in *; [| exact I | exact Hk].
    destruct Hk as (before & line & ->). exists (ev1 ++ before), line.
    rewrite app_assoc. reflexivity.
  - exact I.
  - exfalso. exact (Hm c eq_refl).
Qed.

Lemma reports_exit {A} (line : string) :
  reports (console_log line ;;; (process_exit 1 : M A)).
Proof. intros env fl past. reflexivity. Qed.

Lemma reports_pushAndReport commitResult : reports (pushAndReport commitResult).
Proof.
  unfold pushAndReport.
  apply reports_bind; [apply stays_log | intros _].
  apply reports_bind; [apply stays_executeBashCommand | intros pushResult].
  apply reports_bind.
  { destruct (_ && _)%bool.
    - apply stays_bind; [apply stays_log | intros _; apply stays_executeBashCommand].
    - intros env fl past code. discriminate. }
  intros pushResult'. destruct (success pushResult').
  - intros env fl past. exists [], (first_line_or (output pushResult') "Push successful").
    reflexivity.
  - apply reports_exit.
Qed.

Lemma reports_commit agent : 
  reports
    (ConfirmationService.setSessionFlag allOperations true ;;;
     console_log ("🤖 Processing commit and push..." +:+ Js.LF) ;;;
     console_log ("> /commit-and-push" +:+ Js.LF) ;;;
     initialStatusResult <- GrokAgent.executeBashCommand "git status --porcelain" ;;
     match success initialStatusResult, output initialStatusResult with
     | true, Some status =>
         if Js.nonempty (Js.trim status) then
           console_log "✅ git status: Changes detected" ;;;
           addResult <- GrokAgent.executeBashCommand "git add ." ;;
           if success addResult then
             console_log "✅ git add: Changes staged" ;;;
             diffResult <- GrokAgent.executeBashCommand "git diff --cached" ;;
             console_log "🤖 Generating commit message..." ;;;
             commitMessageEntries <-
               GrokAgent.processUserMessage agent (commitPrompt status (output diffResult)) ;;
             let commitMessage := commitMessage_of commitMessageEntries in
             if Js.nonempty commitMessage then
               let cleanCommitMessage := Js.strip_quotes commitMessage in
               console_log ("✅ Generated commit message: " +:+ Js.DQUOTE
                            +:+ cleanCommitMessage +:+ Js.DQUOTE) ;;;
               let commitCommand :=
                 "git commit -m " +:+ Js.DQUOTE +:+ cleanCommitMessage +:+ Js.DQUOTE in
               commitResult <- GrokAgent.executeBashCommand commitCommand ;;
               if success commitResult then pushAndReport commitResult
               else
                 console_log ("❌ git commit: "
                              +:+ Js.or_default (error commitResult) "Commit failed") ;;;
                 process_exit 1
             else
               console_log "❌ Failed to generate commit message" ;;;
               process_exit 1
           else
             console_log ("❌ git add: "
                          +:+ Js.or_default (error addResult) "Failed to stage changes") ;;;
             process_exit 1
         else
           console_log "❌ No changes to commit. Working directory is clean." ;;;
           process_exit 1
     | _, _ =>
         console_log "❌ No changes to commit. Working directory is clean." ;;;
         process_exit 1
     end).
Proof.
  apply reports_bind; [intros env fl past code; discriminate | intros _].
  apply reports_bind; [apply stays_log | intros _].
  apply reports_bind; [apply stays_log | intros _].
  apply reports_bind; [apply stays_executeBashCommand | intros initialStatusResult].
  destruct (success initialStatusResult); [| apply reports_exit].
  destruct (output initialStatusResult) as [status |]; [| apply reports_exit].
  destruct (Js.nonempty (Js.trim status)); [| apply reports_exit].
  apply reports_bind; [apply stays_log | intros _].
  apply reports_bind; [apply stays_executeBashCommand | intros addResult].
  destruct (success addResult); [| apply reports_exit].
  apply reports_bind; [apply stays_log | intros _].
  apply reports_bind; [apply stays_executeBashCommand | intros diffResult].
  apply reports_bind; [apply stays_log | intros _].
  apply reports_bind; [apply stays_run | intros commitMessageEntries].
  cbv zeta. destruct (Js.nonempty (commitMessage_of commitMessageEntries));
    [| apply reports_exit].
  apply reports_bind; [apply stays_log | intros _].
  apply reports_bind; [apply stays_executeBashCommand | intros commitResult].
  destruct (success commitResult); [apply reports_pushAndReport | apply reports_exit].
Qed.

(** X18.  The commit-and-push driver reports by its exit status.  It
    never throws; when it ends the process, the status is 1; and it
    returns (status 0) only when the last line it logged is the success
    of [git push].  Every other outcome -- a clean working directory, a
    failed [git add], no commit message, a failed commit or push, an
    error of the agent -- ends the process with status 1. *)
Theorem commit_and_push_reports_by_exit_status (agent : GrokAgent.t) env fl past :
  let o := handleCommitAndPushHeadless agent env fl past in
  (forall e, completion o <> Thrown e)
  /\ (forall code, completion o = Exited code -> code = 1)
  /\ (completion o = Returned tt \/ completion o = Exited 1)
  /\ (completion o = Returned tt -> ends_with_push (emitted o)).
Proof.
  cbv zeta. unfold handleCommitAndPushHeadless, try_catch.
  pose proof (reports_commit agent env fl past) as H.
  match goal with
  | H : match completion ?m with _ => _ end |- _ =>
      destruct m as [[[] | e | code] fl1 ev1]
  end; cbn [completion emitted] in *.
  - split; [intros e; discriminate |]. split; [intros code; discriminate |].
    split; [left; reflexivity | intros _; exact H].
  - unfold bind, console_error, emit, process_exit. cbn [completion emitted].
    split; [intros e'; discriminate |].
    split; [intros code Hc; injection Hc as <-; reflexivity |].
    split; [right; reflexivity | intros Hc; discriminate Hc].
  - subst code. split; [intros e; discriminate |].
    split; [intros code Hc; injection Hc as <-; reflexivity |].
    split; [right; reflexivity | intros Hc; discriminate Hc].
Qed.


End ExitStatus.

(** ** The cursor stays inside the input *)

Section Cursor.

Import InputProvider.

Lemma take_length n s : String.length (JsText.take n s) = Nat.min n (String.length s).
Proof.
  revert s. induction n as [| n IH]; intros s; [reflexivity |].
  destruct s as [| c s]; [reflexivity |]. cbn [JsText.take String.length]. rewrite IH. lia.
Qed.

Lemma slice_prefix_length s p :
  0 <= p <= JsText.length s -> JsText.length (JsText.slice s 0 p) = p.
Proof.
  intros Hp. unfold JsText.slice, JsText.absolute, JsText.length in *.
  destruct (0 <? 0) eqn:H0; [apply Z.ltb_lt in H0; lia |].
  destruct (p <? 0) eqn:Hneg; [apply Z.ltb_lt in Hneg; lia |].
  rewrite take_length.
  replace (Z.to_nat (Z.min 0 (Z.of_nat (String.length s)))) with 0%nat by lia.
  cbn [JsText.drop]. lia.
Qed.

Lemma show_entry_cursor newInput st st' :
  show_entry newInput st = Some st' -> cursor_in_input st'.
Proof.
  unfold show_entry. destruct newInput as [entry |]; [| discriminate].
  intros H. injection H as <-. unfold cursor_in_input, JsText.length. cbn. lia.
Qed.

Lemma call_cursor u c st st' :
  keeps_positions u -> is_handler c = true -> cursor_in_input st ->
  call u c st = Some st' -> cursor_in_input st'.
Proof.
  intros Hu Hc Hst Hcall. unfold cursor_in_input in *.
  destruct (Hu (input st) (cursorPosition st) Hst) as (Hedit & Hins & Hmove).
  assert (Hlen : forall s, 0 <= JsText.length s) by (intros s; unfold JsText.length; lia).
  destruct c; try discriminate Hc; cbn [call] in Hcall.
  - (* clearInput *) injection Hcall as <-. cbn. unfold JsText.length. cbn. lia.
  - (* insertAtCursor *) injection Hcall as <-. cbn. apply Hins.
  - (* handleBackspace *)
    injection Hcall as <-. unfold handleBackspace. cbn.
    destruct ctrl; apply Hedit; cbn; tauto.
  - (* handleDelete *)
    injection Hcall as <-. unfold handleDelete. cbn.
    destruct ctrl; apply Hedit; cbn; tauto.
  - (* handleLeft *)
    injection Hcall as <-. unfold handleLeft.
    destruct ctrl; cbn; [apply Hmove; cbn; tauto | lia].
  - (* handleRight *)
    injection Hcall as <-. unfold handleRight.
    destruct ctrl; cbn; [apply Hmove; cbn; tauto | lia].
  - (* handleUp *)
    unfold handleUp in Hcall.
    destruct (JsText.count (history st) =? 0); [injection Hcall as <-; exact Hst |].
    destruct (historyIndex st =? -1).
    + destruct (show_entry _ _) as [shown |] eqn:Hshow; [| discriminate Hcall].
      injection Hcall as <-. exact (show_entry_cursor _ _ _ Hshow).
    + destruct (0 <? historyIndex st); [| injection Hcall as <-; exact Hst].
      destruct (show_entry _ _) as [shown |] eqn:Hshow; [| discriminate Hcall].
      injection Hcall as <-. exact (show_entry_cursor _ _ _ Hshow).
  - (* handleDown *)
    unfold handleDown in Hcall.
    destruct (historyIndex st =? -1); [injection Hcall as <-; exact Hst |].
    destruct (historyIndex st <? JsText.count (history st) - 1).
    + destruct (show_entry _ _) as [shown |] eqn:Hshow; [| discriminate Hcall].
      injection Hcall as <-. exact (show_entry_cursor _ _ _ Hshow).
    + injection Hcall as <-. cbn. unfold JsText.length. lia.
  - (* handleHome *) injection Hcall as <-. cbn. lia.
  - (* handleEnd *) injection Hcall as <-. cbn. lia.
  - (* handleKillLine *)
    injection Hcall as <-. unfold handleKillLine.
    cbn [setOriginalInput setInput setCursorPosition input cursorPosition].
    pose proof (slice_prefix_length (input st) (cursorPosition st) Hst) as Hpre.
    unfold JsText.length in *. rewrite length_append. lia.
  - (* handleKillLineBack *)
    injection Hcall as <-. unfold handleKillLineBack.
    cbn [setOriginalInput setInput setCursorPosition input cursorPosition].
    assert (Hq : 0 <= moveToLineStart u (input st) (cursorPosition st)
                 <= JsText.length (input st)) by (apply Hmove; cbn; tauto).
    pose proof (slice_prefix_length (input st) _ Hq) as Hpre.
    unfold JsText.length in *. rewrite length_append. lia.
  - (* handleKillWord *)
    injection Hcall as <-. unfold handleKillWord. cbn. apply Hedit; cbn; tauto.
  - (* addToHistory *)
    injection Hcall as <-. unfold addToHistory.
    destruct (Js.nonempty (Js.trim submitted)); cbn; exact Hst.
Qed.

(** X20.  The cursor never leaves the input.  When the editing functions
    of [text-utils] keep a position inside the text they return, then
    after any sequence of calls of the provider's handlers, from its
    initial signals, the cursor position is between 0 and the length of
    the input: the position [cursorInfo] is given is one it locates. *)
Theorem the_cursor_stays_inside_the_input (u : TextUtils) (cs : list Call) :
  keeps_positions u ->
  forallb is_handler cs = true ->
  exists st, calls u cs initial = Some st
             /\ 0 <= cursorPosition st <= JsText.length (input st).
Proof.
  intros Hu Hcs.
  destruct initial_invariant as [Hidx Hclean].
  assert (Hcur : cursor_in_input initial) by (unfold cursor_in_input, JsText.length; cbn; lia).
  revert Hidx Hclean Hcur Hcs. generalize initial as st.
  induction cs as [| c cs IH]; intros st Hidx Hclean Hcur Hcs.
  - exists st. split; [reflexivity | exact Hcur].
  - cbn [forallb] in Hcs. apply andb_prop in Hcs. destruct Hcs as [Hc Hcs].
    destruct (call_invariant u c st Hidx Hclean) as (st1 & Hcall & Hidx1 & Hclean1).
    cbn [calls]. rewrite Hcall.
    apply IH; [exact Hidx1 | exact Hclean1 | | exact Hcs].
    exact (call_cursor u c st st1 Hu Hc Hcur Hcall).
Qed.

(** With editing functions that neither edit nor move, after a
    submission, a look at the history and a few movements. *)
Lemma the_cursor_stays_inside_the_input_witness :
  exists st,
    calls idle_utils [AddToHistory "ls"; HandleUp; HandleLeft false; HandleKillLine; HandleEnd]
      initial = Some st
    /\ 0 <= cursorPosition st <= JsText.length (input st).
Proof.
  refine (the_cursor_stays_inside_the_input idle_utils
            [AddToHistory "ls"; HandleUp; HandleLeft false; HandleKillLine; HandleEnd] _ _).
  - intros s p Hp. split; [| split].
    + intros edit Hin. cbn in Hin.
      destruct Hin as [<- | [<- | [<- | [<- | []]]]]; exact Hp.
    + intros typed. exact Hp.
    + intros q Hin. cbn in Hin.
      destruct Hin as [<- | [<- | [<- | [<- | []]]]]; exact Hp.
  - reflexivity.
Defined.

End Cursor.

(** ** The [mcp add] command *)

Section McpAdd.

Import McpCommand.

















End McpAdd.

(** ** The API key prompt *)

Section ApiKey.

Import ApiKeyInput.

Lemma uses_validated_app e1 e2 :
  (forall last, uses_validated last e2) ->
  forall last, uses_validated last e1 -> uses_validated last (e1 ++ e2).
Proof.
  intros H2. induction e1 as [| ev e1 IH]; intros last H1; [apply H2 |].
  cbn [app]. destruct ev; cbn [uses_validated] in *;
    try (apply IH; exact H1);
    try (destruct H1 as (Hn & Hl & H1); split; [exact Hn | split; [exact Hl | apply IH, H1]]).
  destruct H1 as (Hl & H1). split; [exact Hl | apply IH, H1].
Qed.

Lemma handleSubmit_effects host past s :
  (forall last, uses_validated last (snd (handleSubmit host past s)))
  /\ Forall (fun ev => forall k, key_used ev = Some k -> k <> "")
       (snd (handleSubmit host past s))
  /\ existsb is_exit (snd (handleSubmit host past s)) = false.
Proof.
  unfold handleSubmit, save.
  destruct (Js.nonempty (Js.trim (input s))) eqn:Hkey; cbn [negb];
    [| split; [intros last; exact I | split; [constructor | reflexivity]]].
  cbn [setIsSubmitting input]. apply nonempty_trim in Hkey.
  set (apiKey := Js.trim (input s)) in *.
  assert (Hk : forall k, Some apiKey = Some k -> k <> "")
    by (intros k H; injection H as <-; exact Hkey).
  destruct (GrokAgent_throws host apiKey past);
    [| destruct (getSettingsManager_throws host _);
       [| destruct (updateUserSetting_throws host "apiKey" apiKey _)]];
    try destruct (onApiKeySet_throws host apiKey _); cbn [snd app].
  all: split; [intros last; cbn; repeat split; reflexivity |].
  all: split; [| reflexivity].
  all: repeat constructor; cbn; first [exact Hk | intros k H; discriminate H].
Qed.

Lemma onKey_effects host past key s :
  (forall last, uses_validated last (snd (onKey host past key s)))
  /\ Forall (fun ev => forall k, key_used ev = Some k -> k <> "") (snd (onKey host past key s)).
Proof.
  unfold onKey.
  destruct (isSubmitting s); [split; [intros last; exact I | constructor] |].
  destruct (_ && _)%bool.
  { split; [intros last; exact I |]. repeat constructor. intros k H. discriminate H. }
  destruct (String.eqb _ "return").
  { destruct (handleSubmit_effects host past s) as (H1 & H2 & _). split; assumption. }
  destruct (String.eqb _ "backspace"); [split; [intros last; exact I | constructor] |].
  destruct (_ && _)%bool; split; first [intros last; exact I | constructor].
Qed.

Lemma onKey_ignored host past key s :
  isSubmitting s = true -> onKey host past key s = (s, []).
Proof. intros H. unfold onKey. rewrite H. reflexivity. Qed.

(** X23.  Only a validated key is exported and saved, and never a blank
    one.  Whatever keys are pressed and however the agent's constructor,
    the settings manager and the callback behave: every key that is
    validated ([new GrokAgent]), exported ([GROK_API_KEY]), saved
    ([apiKey] of the user settings) or handed over is non-empty; an
    export, a save and a hand-over use the key that was validated just
    before, in the same submission; and while a submission is accepted
    ([isSubmitting]), keys are ignored. *)
Theorem only_a_validated_key_is_saved (host : Host) (keys : list ConfirmationDialog.Key)
    (past : list Effect) (s : Signals) :
  let effects := snd (press host past keys s) in
  (forall last, uses_validated last effects)
  /\ Forall (fun ev => forall k, key_used ev = Some k -> k <> "") effects
  /\ (isSubmitting s = true -> press host past keys s = (s, [])).
Proof.
  cbv zeta. revert past s.
  induction keys as [| key keys IH]; intros past s; cbn [press].
  { split; [intros last; exact I | split; [constructor | reflexivity]]. }
  destruct (onKey_effects host past key s) as [Hshape Hkeys].
  pose proof (onKey_ignored host past key s) as Hignored.
  destruct (onKey host past key s) as [s1 done]. cbn [snd] in *.
  destruct (existsb is_exit done) eqn:Hexit.
  - cbn [snd]. split; [exact Hshape | split; [exact Hkeys |]].
    intros Hs. specialize (Hignored Hs). injection Hignored as -> ->. discriminate Hexit.
  - destruct (IH (past ++ done) s1) as (IH1 & IH2 & IH3).
    destruct (press host (past ++ done) keys s1) as [s2 more]. cbn [snd] in *.
    split; [intros last; apply uses_validated_app; [exact IH1 | apply Hshape] |].
    split; [apply Forall_app; split; assumption |].
    intros Hs. specialize (Hignored Hs). injection Hignored as -> ->.
    specialize (IH3 Hs). injection IH3 as -> ->. reflexivity.
Qed.

(** Return on an empty prompt, then a key typed with a space before it,
    Return, and a key that comes too late. *)
Lemma only_a_validated_key_is_saved_witness :
  let keys := [ConfirmationDialog.named "return"; typing " "; typing "k"; typing "1";
               ConfirmationDialog.named "return"; typing "x"] in
  press obliging_host [] keys initial
  = ({| input := " k1"; error := ""; isSubmitting := true |},
     [NewGrokAgent "k1"; SetEnv "GROK_API_KEY" "k1"; GetSettingsManager;
      UpdateUserSetting "apiKey" "k1";
      ConsoleLog (Js.LF +:+ "✅ API key saved to ~/.grok/user-settings.json");
      OnApiKeySet "k1"])
  /\ (forall last, uses_validated last (snd (press obliging_host [] keys initial)))
  /\ Forall (fun ev => forall k, key_used ev = Some k -> k <> "")
       (snd (press obliging_host [] keys initial))
  /\ (isSubmitting initial = true -> press obliging_host [] keys initial = (initial, [])).
Proof.
  split; [vm_compute; reflexivity |].
  exact (only_a_validated_key_is_saved obliging_host
           [ConfirmationDialog.named "return"; typing " "; typing "k"; typing "1";
            ConfirmationDialog.named "return"; typing "x"] [] initial).
Defined.

End ApiKey.

(** ** The test mode of the code execution tool *)

(** X24.  The test mode runs a sample, not the submitted code, for four
    languages.  For [javascript], [python], [bash] and [java] (spelled so)
    a [test] call is the [run] call of the fixed "Hello from test!"
    program of the language: the code that was submitted is not looked
    at, not even whether there is any.  For the other languages with a
    configuration a [test] call is the [run] call of the submitted code
    without input. *)
Theorem test_mode_runs_a_sample_for_four_languages (code language : string)
    (more : list string) env fl past :
  (In language ["javascript"; "python"; "bash"; "java"] ->
   exists sample,
     CodeExecutionTool.lookup language CodeExecutionTool.testInputs = Some sample
     /\ CodeExecutionTool.execute "test" (code :: language :: more) env fl past
        = CodeExecutionTool.execute "run" [sample; language] env fl past
     /\ CodeExecutionTool.execute "test" ["" ; language] env fl past
        = CodeExecutionTool.execute "run" [sample; language] env fl past)
  /\ (In language ["typescript"; "python3"; "cpp"; "c"; "go"; "rust"; "shell"; "sh"] ->
      CodeExecutionTool.execute "test" (code :: language :: more) env fl past
      = CodeExecutionTool.execute "run" [code; language] env fl past).
Proof.
  split; intros Hin; cbn [In] in Hin.
  - destruct Hin as [<- | [<- | [<- | [<- | []]]]];
      (eexists; split; [reflexivity | split; reflexivity]).
  - destruct Hin as [<- | [<- | [<- | [<- | [<- | [<- | [<- | [<- | []]]]]]]]]; reflexivity.
Qed.

(** Two different programs under test, one run. *)
Lemma test_mode_runs_a_sample_for_four_languages_witness :
  CodeExecutionTool.execute "test" ["while (true) {}"; "javascript"] obliging no_flags []
  = CodeExecutionTool.execute "test" ["process.exit(1)"; "javascript"] obliging no_flags [].
Proof.
  destruct (proj1 (test_mode_runs_a_sample_for_four_languages "while (true) {}" "javascript" []
                     obliging no_flags []) (or_introl eq_refl)) as (sample & Hs & H1 & _).
  destruct (proj1 (test_mode_runs_a_sample_for_four_languages "process.exit(1)" "javascript" []
                     obliging no_flags []) (or_introl eq_refl)) as (sample' & Hs' & H2 & _).
  rewrite H1, H2. congruence.
Defined.
